(** * The data ingestion, validation and aggregation engine

    A shallow embedding of [src/lib/data-processing.ts] (the record decoder's
    coercion step, the three schema validators and [generateBusinessSummary])
    and of [src/lib/demo-data.ts] (the three generators of demo data and
    [getDemoBusinessSummary]).

    Conventions of the embedding:
    - a JavaScript number is an IEEE 754 binary64 value, taken from the
      Standard Library's executable specification [SpecFloat] (precision 53,
      maximal exponent 1024, round to nearest even);
    - a JavaScript string is a [string] holding the UTF-8 bytes of the text;
    - a decoded row (an object built by the CSV parser) is a finite map from
      column names to cell values; a property that is absent reads as
      [None], which is JavaScript's [undefined];
    - the records handed to [generateBusinessSummary] follow the TypeScript
      interfaces, every property being optional at run time;
    - an exception is an explicit [Throw] outcome;
    - the results of [Math.random()] are given by a function of the number
      of the draw, and the date texts of the demo data by a function of the
      day offset. *)

From Stdlib Require Import ZArith NArith Lia Bool List String Ascii DecimalString.
From Stdlib Require Import Floats.SpecFloat Sorting.Sorted Sorting.Permutation.
From Stdlib Require DecimalNat.
From stdpp Require Import base gmap strings list.

Local Open Scope Z_scope.

(** ** Numbers *)

Definition prec : Z := 53.
Definition emax : Z := 1024.

Abbreviation number := spec_float.

Definition NaN : number := S754_nan.
Definition zero : number := S754_zero false.
Definition neg_zero : number := S754_zero true.
Definition Infinity : number := S754_infinity false.

(** The number whose value is the integer [z] (rounded when [z] needs more
    than 53 bits). *)
Definition number_of_Z (z : Z) : number := binary_normalize prec emax z 0 false.
Definition number_of_nat (n : nat) : number := number_of_Z (Z.of_nat n).

Definition one : number := number_of_Z 1.
Definition minus_one : number := number_of_Z (-1).
Definition five : number := number_of_Z 5.

Definition js_add : number -> number -> number := SFadd prec emax.
Definition js_sub : number -> number -> number := SFsub prec emax.
Definition js_mul : number -> number -> number := SFmul prec emax.
Definition js_div : number -> number -> number := SFdiv prec emax.

(** [x < y] and [x <= y] on numbers; both are false when an operand is NaN. *)
Definition js_lt (x y : number) : bool := SFltb x y.
Definition js_le (x y : number) : bool := SFleb x y.

Definition isNaN (x : number) : bool :=
  match x with S754_nan => true | _ => false end.

Definition is_zero (x : number) : bool :=
  match x with S754_zero _ => true | _ => false end.

(** ToBoolean on a number: NaN, +0 and -0 are falsy. *)
Definition number_truthy (x : number) : bool := negb (isNaN x || is_zero x).

(** [Math.min(a, b)] and [Math.max(a, b)]: NaN if an argument is NaN, and -0
    counts as smaller than +0. *)
Definition Math_min (a b : number) : number :=
  if isNaN a || isNaN b then NaN
  else match a, b with
       | S754_zero false, S754_zero true => b
       | _, _ => if js_lt b a then b else a
       end.

Definition Math_max (a b : number) : number :=
  if isNaN a || isNaN b then NaN
  else match a, b with
       | S754_zero true, S754_zero false => b
       | _, _ => if js_lt a b then b else a
       end.

(** ** Strings *)

Definition lower_char (c : ascii) : ascii :=
  let n := nat_of_ascii c in
  if ((65 <=? n) && (n <=? 90))%nat then ascii_of_nat (n + 32) else c.

(** [String.prototype.toLowerCase]. Only the letters A-Z are mapped: the
    texts are matched against ASCII words alone, and no other character
    lowers to a letter sequence that could complete one of those words. *)
Fixpoint toLowerCase (s : string) : string :=
  match s with
  | EmptyString => EmptyString
  | String c r => String (lower_char c) (toLowerCase r)
  end.

Fixpoint startsWith (s word : string) {struct word} : bool :=
  match word with
  | EmptyString => true
  | String a word' =>
      match s with
      | EmptyString => false
      | String b s' => Ascii.eqb a b && startsWith s' word'
      end
  end.

(** [text.includes(word)]: [word] occurs somewhere in [text]. *)
Fixpoint includes (text word : string) : bool :=
  startsWith text word ||
  match text with
  | EmptyString => false
  | String _ r => includes r word
  end.

(** [strip_prefix p s] is the rest of [s] after the prefix [p], if [s] starts
    with [p]. *)
Fixpoint strip_prefix (p s : string) {struct p} : option string :=
  match p with
  | EmptyString => Some s
  | String a p' =>
      match s with
      | EmptyString => None
      | String b s' => if Ascii.eqb a b then strip_prefix p' s' else None
      end
  end.

Fixpoint rev_string (s acc : string) : string :=
  match s with
  | EmptyString => acc
  | String c r => rev_string r (String c acc)
  end.

(** ** Numeric literals: [parseFloat] and [Number] on strings *)

Definition is_digit (c : ascii) : bool :=
  ((48 <=? nat_of_ascii c) && (nat_of_ascii c <=? 57))%nat.

Definition digit_value (c : ascii) : N := N.of_nat (nat_of_ascii c - 48).

(** The longest run of decimal digits at the start of [s], read onto the
    accumulator [acc]: its value, the number of digits and the rest. *)
Fixpoint scan_digits (s : string) (acc : N) (n : nat) : N * nat * string :=
  match s with
  | String c r =>
      if is_digit c then scan_digits r (10 * acc + digit_value c)%N (S n)
      else (acc, n, s)
  | EmptyString => (acc, n, s)
  end.

(** The value of a digit of radix [radix] (2, 8 or 16), if [c] is one. *)
Definition radix_digit (radix : N) (c : ascii) : option N :=
  let n := nat_of_ascii c in
  let v := if ((48 <=? n) && (n <=? 57))%nat then Some (N.of_nat (n - 48))
           else if ((97 <=? n) && (n <=? 102))%nat then Some (N.of_nat (n - 87))
           else if ((65 <=? n) && (n <=? 70))%nat then Some (N.of_nat (n - 55))
           else None in
  match v with
  | Some d => if (d <? radix)%N then Some d else None
  | None => None
  end.

(** A string made of digits of radix [radix] only, read onto [acc]. *)
Fixpoint scan_radix (radix : N) (s : string) (acc : N) : option N :=
  match s with
  | EmptyString => Some acc
  | String c r =>
      match radix_digit radix c with
      | Some d => scan_radix radix r (radix * acc + d)%N
      | None => None
      end
  end.

(** White space and line terminators of the language, in UTF-8: TAB, LF, VT,
    FF, CR, SP; U+00A0; U+1680; U+2000..U+200A, U+2028, U+2029, U+202F;
    U+205F; U+3000; U+FEFF. *)
Definition ws1 (c : ascii) : bool :=
  let n := nat_of_ascii c in ((9 <=? n) && (n <=? 13) || (n =? 32))%nat.

Definition ws2 (c1 c2 : ascii) : bool :=
  ((nat_of_ascii c1 =? 194) && (nat_of_ascii c2 =? 160))%nat.

Definition ws3 (c1 c2 c3 : ascii) : bool :=
  let a := nat_of_ascii c1 in
  let b := nat_of_ascii c2 in
  let c := nat_of_ascii c3 in
  ((a =? 225) && (b =? 154) && (c =? 128)
   || (a =? 226) && (b =? 128)
      && ((128 <=? c) && (c <=? 138) || (c =? 168) || (c =? 169) || (c =? 175))
   || (a =? 226) && (b =? 129) && (c =? 159)
   || (a =? 227) && (b =? 128) && (c =? 128)
   || (a =? 239) && (b =? 187) && (c =? 191))%nat.

(** Removes leading white space. With [back = true] the string is read
    backwards, so the bytes of a character come last byte first. *)
Fixpoint trim_start (back : bool) (s : string) : string :=
  match s with
  | EmptyString => s
  | String c1 r1 =>
      if ws1 c1 then trim_start back r1
      else
        match r1 with
        | EmptyString => s
        | String c2 r2 =>
            if (if back then ws2 c2 c1 else ws2 c1 c2) then trim_start back r2
            else
              match r2 with
              | EmptyString => s
              | String c3 r3 =>
                  if (if back then ws3 c3 c2 c1 else ws3 c1 c2 c3)
                  then trim_start back r3 else s
              end
        end
  end.

Definition trim (s : string) : string :=
  rev_string (trim_start true (rev_string (trim_start false s) EmptyString)) EmptyString.

(** The mathematical value [m * 10 ^ e] of a decimal literal, rounded to the
    nearest number (ties to even). *)
Definition number_of_decimal (neg : bool) (m : N) (e : Z) : number :=
  match m with
  | N0 => S754_zero neg
  | Npos p =>
      if 0 <=? e then binary_normalize prec emax (cond_Zopp neg (Zpos p * 10 ^ e)) 0 false
      else
        let '(q, e', l) := SFdiv_core_binary prec emax (Zpos p) 0 (10 ^ (- e)) 0 in
        binary_round_aux prec emax neg q e' l
  end.

(** ExponentPart, when a complete one starts [s]: its value and the rest;
    otherwise exponent 0 and [s] itself. *)
Definition scan_exponent (s : string) : Z * string :=
  match s with
  | String c r =>
      if Ascii.eqb c "e" || Ascii.eqb c "E" then
        let '(neg, r1) :=
          match r with
          | String "+" r' => (false, r')
          | String "-" r' => (true, r')
          | _ => (false, r)
          end in
        let '(v, n, r2) := scan_digits r1 0%N 0%nat in
        match n with
        | O => (0, s)
        | S _ => (cond_Zopp neg (Z.of_N v), r2)
        end
      else (0, s)
  | EmptyString => (0, s)
  end.

(** The longest prefix of [s] that is a StrUnsignedDecimalLiteral:
    [Infinity], [digits . digits? exponent?], [. digits exponent?] or
    [digits exponent?]. The result is the value of that prefix, negated when
    [neg], and the rest of [s]. *)
Definition scan_unsigned (neg : bool) (s : string) : option (number * string) :=
  match strip_prefix "Infinity" s with
  | Some r => Some (S754_infinity neg, r)
  | None =>
      let '(ip, ni, r1) := scan_digits s 0%N 0%nat in
      match r1 with
      | String "." r2 =>
          let '(m, nf, r3) := scan_digits r2 ip 0%nat in
          match ni, nf with
          | O, O => None
          | _, _ =>
              let '(e, r4) := scan_exponent r3 in
              Some (number_of_decimal neg m (e - Z.of_nat nf), r4)
          end
      | _ =>
          match ni with
          | O => None
          | S _ =>
              let '(e, r4) := scan_exponent r1 in
              Some (number_of_decimal neg ip e, r4)
          end
      end
  end.

(** The longest prefix of [s] that is a StrDecimalLiteral (an optional sign
    and a StrUnsignedDecimalLiteral). *)
Definition scan_StrDecimalLiteral (s : string) : option (number * string) :=
  match s with
  | String "+" r => scan_unsigned false r
  | String "-" r => scan_unsigned true r
  | _ => scan_unsigned false s
  end.

(** [parseFloat(s)]: leading white space is skipped, the longest prefix that
    is a decimal literal is read, and NaN is returned when there is none. *)
Definition parseFloat (s : string) : number :=
  match scan_StrDecimalLiteral (trim_start false s) with
  | Some (v, _) => v
  | None => NaN
  end.

(** A binary, octal or hexadecimal integer literal [0b.. 0o.. 0x..]. *)
Definition scan_NonDecimalIntegerLiteral (s : string) : option number :=
  match s with
  | String "0" (String c (String d r)) =>
      let radix :=
        if Ascii.eqb c "b" || Ascii.eqb c "B" then Some 2%N
        else if Ascii.eqb c "o" || Ascii.eqb c "O" then Some 8%N
        else if Ascii.eqb c "x" || Ascii.eqb c "X" then Some 16%N
        else None in
      match radix with
      | Some rd =>
          match scan_radix rd (String d r) 0%N with
          | Some v => Some (number_of_Z (Z.of_N v))
          | None => None
          end
      | None => None
      end
  | _ => None
  end.

(** [Number(s)] on a string (StringToNumber): the whole string, white space
    at both ends apart, has to be a numeric literal; the empty string is 0. *)
Definition StringToNumber (s : string) : number :=
  match trim s with
  | EmptyString => zero
  | t =>
      match scan_NonDecimalIntegerLiteral t with
      | Some v => v
      | None =>
          match scan_StrDecimalLiteral t with
          | Some (v, EmptyString) => v
          | _ => NaN
          end
      end
  end.

(** ** Decoded rows and the decoder's coercion step *)

(** A cell of a decoded row: the text read from the file, or the number it
    was coerced to. *)
Inductive value : Type :=
  | VNumber (n : number)
  | VString (s : string).

(** A decoded row maps the column names it has to their cells. *)
Abbreviation row := (gmap string value).

(** The second argument of the parser's [transform] callback: the column
    name when the file has a header row, the column index otherwise. *)
Inductive field : Type :=
  | FieldName (name : string)
  | FieldIndex (index : nat).

Definition numericFields : list string :=
  ["Quantity"; "Amount"; "Stock"; "Price"; "Rating"; "Customer_Age"; "Min_Alert"]%string.

(** [array.includes(x)] on an array of strings. *)
Definition Array_includes (l : list string) (x : string) : bool :=
  existsb (String.eqb x) l.

(** The [transform] callback handed to the parser by [parseCsvFile]. *)
Definition transform (v : string) (header : field) : value :=
  match header with
  | FieldName name =>
      if Array_includes numericFields name then
        let num := parseFloat v in
        if isNaN num then VString v else VNumber num
      else VString v
  | FieldIndex _ => VString v
  end.

(** ** Schema validators *)

Record ValidationResult : Type := mkValidationResult {
  valid : bool;
  errors : list string
}.

(** [errors.push(e)]. *)
Definition push (errors : list string) (e : string) : list string := errors ++ [e].

(** [field in firstRow]. *)
Definition has_field (name : string) (r : row) : bool :=
  bool_decide (is_Some (r !! name)).

(** ToBoolean on the result of a property read. *)
Definition truthy (v : option value) : bool :=
  match v with
  | None => false
  | Some (VNumber n) => number_truthy n
  | Some (VString s) => negb (String.eqb s EmptyString)
  end.

(** [Number(v)] on the result of a property read. *)
Definition Number (v : option value) : number :=
  match v with
  | None => NaN
  | Some (VNumber n) => n
  | Some (VString s) => StringToNumber s
  end.

(** The decimal text of a natural number, as a template literal prints it. *)
Definition show_nat (n : nat) : string := NilZero.string_of_uint (Nat.to_uint n).

(** One step of [requiredFields.forEach(...)]. *)
Definition check_required (firstRow : row) (errors : list string) (name : string)
  : list string :=
  if has_field name firstRow then errors
  else push errors ("Missing required field: " +:+ name).

(** One step of [data.slice(0, 5).forEach((row, index) => ...)]. *)
Definition check_types (errors : list string) (ir : nat * row) : list string :=
  let '(index, r) := ir in
  let errors :=
    if truthy (r !! "Quantity"%string) && isNaN (Number (r !! "Quantity"%string))
    then push errors ("Row " +:+ show_nat (index + 1) +:+ ": Quantity must be a number")
    else errors in
  if truthy (r !! "Amount"%string) && isNaN (Number (r !! "Amount"%string))
  then push errors ("Row " +:+ show_nat (index + 1) +:+ ": Amount must be a number")
  else errors.

(** The elements of an array with their indices, from [i] on. *)
Fixpoint indexed {A : Type} (i : nat) (l : list A) : list (nat * A) :=
  match l with
  | [] => []
  | x :: r => (i, x) :: indexed (S i) r
  end.

Definition validateSalesData (data : list row) : ValidationResult :=
  let errors := [] in
  let requiredFields := ["Date"; "Product"; "Quantity"; "Amount"]%string in
  match data with
  | [] => mkValidationResult false (push errors "No data found in the file")
  | firstRow :: _ =>
      let errors := fold_left (check_required firstRow) requiredFields errors in
      let errors := fold_left check_types (indexed 0 (firstn 5 data)) errors in
      mkValidationResult (Nat.eqb (length errors) 0) errors
  end.

Definition validateInventoryData (data : list row) : ValidationResult :=
  let errors := [] in
  let requiredFields := ["Product"; "Stock"; "Price"]%string in
  match data with
  | [] => mkValidationResult false (push errors "No data found in the file")
  | firstRow :: _ =>
      let errors := fold_left (check_required firstRow) requiredFields errors in
      mkValidationResult (Nat.eqb (length errors) 0) errors
  end.

Definition validateReviewData (data : list row) : ValidationResult :=
  let errors := [] in
  let requiredFields := ["Date"; "Rating"; "Review"; "Product"]%string in
  match data with
  | [] => mkValidationResult false (push errors "No data found in the file")
  | firstRow :: _ =>
      let errors := fold_left (check_required firstRow) requiredFields errors in
      mkValidationResult (Nat.eqb (length errors) 0) errors
  end.

(** ** The records of the aggregation engine *)

(** The interfaces [SalesData], [InventoryData] and [ReviewData]. A property
    an object lacks reads as [None]. The records have the types that the
    interfaces declare; the caller passes decoded rows, in which a cell of a
    numeric column that the decoder could not read is a text, and what a
    text does to the revenue totals is modelled on the rows themselves
    (see [Rows.revenue_totals]). *)
Module SalesData.
Record t : Type := mk {
  Date : option string;
  Product : option string;
  Category : option string;
  Quantity : option number;
  Amount : option number;
  Customer_Age : option number;
  Location : option string
}.
End SalesData.

Module InventoryData.
Record t : Type := mk {
  Product : option string;
  Category : option string;
  Stock : option number;
  Price : option number;
  Supplier : option string;
  Min_Alert : option number
}.
End InventoryData.

Module ReviewData.
Record t : Type := mk {
  Date : option string;
  Rating : option number;
  Review : option string;
  Product : option string;
  Platform : option string
}.
End ReviewData.

Module TopProduct.
Record t : Type := mk { product : string; revenue : number }.
End TopProduct.

Module LowStockItem.
Record t : Type := mk { product : option string; stock : option number }.
End LowStockItem.

Record BusinessSummary : Type := mkBusinessSummary {
  totalRevenue : number;
  totalOrders : nat;
  averageOrderValue : number;
  topProducts : list TopProduct.t;
  lowStockItems : list LowStockItem.t;
  averageRating : number;
  sentimentScore : number
}.

(** The outcome of a call: a value, or an exception. *)
Inductive error : Type := TypeError.

Inductive completion (A : Type) : Type :=
  | Return (a : A)
  | Throw (e : error).

Arguments Return {A} a.
Arguments Throw {A} e.

(** Sequencing: an exception ends the computation. *)
#[global] Instance completion_bind : MBind completion :=
  fun A B k c =>
    match c with
    | Return a => k a
    | Throw e => Throw e
    end.

(** ** Operators on property reads *)

(** [x || d] where [x] is a number or undefined and [d] a number. *)
Definition number_or (x : option number) (d : number) : number :=
  match x with
  | Some v => if number_truthy v then v else d
  | None => d
  end.

(** ToNumber on a number or undefined. *)
Definition ToNumber (x : option number) : number :=
  match x with
  | Some v => v
  | None => NaN
  end.

(** ToPropertyKey on a string or undefined. *)
Definition ToPropertyKey (x : option string) : string :=
  match x with
  | Some s => s
  | None => "undefined"%string
  end.

(** ** [Array.prototype.sort] *)

(** [x] is placed before [y] when [comparefn(x, y)] is negative; a NaN
    result counts as 0. The sort is stable, which fixes its result when
    [comparefn] is a consistent comparator; when it is not (a difference
    that is NaN next to differences that are not), the language leaves the
    order to the implementation: what is proved of the order is proved
    where the comparator is consistent. *)
Definition sorts_before {A : Type} (comparefn : A -> A -> number) (x y : A) : bool :=
  js_lt (comparefn x y) zero.

Fixpoint sort_insert {A : Type} (comparefn : A -> A -> number) (x : A) (l : list A)
  : list A :=
  match l with
  | [] => [x]
  | y :: r =>
      if sorts_before comparefn y x then y :: sort_insert comparefn x r
      else x :: y :: r
  end.

Fixpoint Array_sort {A : Type} (comparefn : A -> A -> number) (l : list A) : list A :=
  match l with
  | [] => []
  | x :: r => sort_insert comparefn x (Array_sort comparefn r)
  end.

(** ** Objects used as dictionaries *)

(** The own properties of the accumulator [{} as Record<string, number>], in
    the order of their creation. Names that [Object.prototype] defines,
    such as [constructor], are not told apart from other names. *)
Abbreviation object := (list (string * number)).

(** [acc[key]]. *)
Fixpoint obj_get (acc : object) (key : string) : option number :=
  match acc with
  | [] => None
  | (k, v) :: r => if String.eqb k key then Some v else obj_get r key
  end.

(** [acc[key] = v]: an existing property keeps its place. *)
Fixpoint obj_set (acc : object) (key : string) (v : number) : object :=
  match acc with
  | [] => [(key, v)]
  | (k, w) :: r => if String.eqb k key then (k, v) :: r else (k, w) :: obj_set r key v
  end.

(** A property name that is an array index: the canonical decimal text of
    an integer below 2^32 - 1. *)
Definition array_index (key : string) : option N :=
  match key with
  | EmptyString => None
  | String c r =>
      let '(v, _, rest) := scan_digits key 0%N 0%nat in
      if String.eqb rest EmptyString
         && (negb (Ascii.eqb c "0") || String.eqb r EmptyString)
         && (v <=? 4294967294)%N
      then Some v else None
  end.

Definition is_array_index (kv : string * number) : bool :=
  match array_index (fst kv) with Some _ => true | None => false end.

Definition index_of (kv : string * number) : N :=
  match array_index (fst kv) with Some i => i | None => 0%N end.

Fixpoint insert_index (x : string * number) (l : object) : object :=
  match l with
  | [] => [x]
  | y :: r =>
      if (index_of y <? index_of x)%N then y :: insert_index x r else x :: y :: r
  end.

(** [Object.entries(acc)]: the array-index keys in ascending order, then the
    other keys in the order of their creation. *)
Definition Object_entries (acc : object) : object :=
  fold_right insert_index [] (List.filter is_array_index acc)
  ++ List.filter (fun kv => negb (is_array_index kv)) acc.

(** ** The aggregation engine *)

Definition positiveWords : list string :=
  ["good"; "great"; "excellent"; "amazing"; "love"; "perfect"; "wonderful"]%string.
Definition negativeWords : list string :=
  ["bad"; "terrible"; "awful"; "hate"; "worst"; "horrible"; "disappointing"]%string.

(** The callback of [salesData.reduce] that builds [productRevenue]. *)
Definition add_revenue (acc : object) (sale : SalesData.t) : object :=
  let product := ToPropertyKey (SalesData.Product sale) in
  obj_set acc product
    (js_add (number_or (obj_get acc product) zero)
            (number_or (SalesData.Amount sale) zero)).

(** The callback of [reviewData.forEach]: it adds the review's delta to the
    running [sentimentScore]. Calling [toLowerCase] on a missing [Review]
    throws a TypeError. *)
Definition score_review (sentimentScore : number) (review : ReviewData.t)
  : completion number :=
  match ReviewData.Review review with
  | None => Throw TypeError
  | Some r =>
      let text := toLowerCase r in
      let positiveCount := length (List.filter (includes text) positiveWords) in
      let negativeCount := length (List.filter (includes text) negativeWords) in
      Return (js_add sentimentScore
                (js_sub (number_of_nat positiveCount) (number_of_nat negativeCount)))
  end.

Fixpoint forEach_review (reviewData : list ReviewData.t) (sentimentScore : number)
  : completion number :=
  match reviewData with
  | [] => Return sentimentScore
  | review :: r =>
      s ← score_review sentimentScore review;
      forEach_review r s
  end.

Definition low_stock (item : InventoryData.t) : bool :=
  js_lt (ToNumber (InventoryData.Stock item))
        (number_or (InventoryData.Min_Alert item) five).

Definition compare_stock (a b : InventoryData.t) : number :=
  js_sub (ToNumber (InventoryData.Stock a)) (ToNumber (InventoryData.Stock b)).

Definition compare_revenue (a b : string * number) : number :=
  js_sub (snd b) (snd a).

Definition generateBusinessSummary
    (salesData : list SalesData.t)
    (inventoryData : list InventoryData.t)
    (reviewData : list ReviewData.t) : completion BusinessSummary :=
  let totalRevenue :=
    fold_left (fun sum sale => js_add sum (number_or (SalesData.Amount sale) zero))
              salesData zero in
  let totalOrders := length salesData in
  let averageOrderValue :=
    if (0 <? totalOrders)%nat then js_div totalRevenue (number_of_nat totalOrders)
    else zero in
  let productRevenue := fold_left add_revenue salesData [] in
  let topProducts :=
    map (fun '(product, revenue) => TopProduct.mk product revenue)
        (firstn 5 (Array_sort compare_revenue (Object_entries productRevenue))) in
  let lowStockItems :=
    map (fun item => LowStockItem.mk (InventoryData.Product item) (InventoryData.Stock item))
        (firstn 10 (Array_sort compare_stock (List.filter low_stock inventoryData))) in
  let totalRating :=
    fold_left (fun sum review => js_add sum (number_or (ReviewData.Rating review) zero))
              reviewData zero in
  let averageRating :=
    if (0 <? length reviewData)%nat
    then js_div totalRating (number_of_nat (length reviewData)) else zero in
  sentimentScore ← forEach_review reviewData zero;
  let normalizedSentiment :=
    if (0 <? length reviewData)%nat
    then Math_max minus_one
           (Math_min one (js_div sentimentScore (number_of_nat (length reviewData))))
    else zero in
  Return (mkBusinessSummary totalRevenue totalOrders averageOrderValue topProducts
            lowStockItems averageRating normalizedSentiment).

(** The low-stock computation of [getDemoBusinessSummary]: [Min_Alert] is
    read as it is, and at most five items are kept. *)
Definition demo_low_stock (item : InventoryData.t) : bool :=
  js_lt (ToNumber (InventoryData.Stock item)) (ToNumber (InventoryData.Min_Alert item)).

Definition demo_lowStockItems (inventory : list InventoryData.t) : list LowStockItem.t :=
  map (fun item => LowStockItem.mk (InventoryData.Product item) (InventoryData.Stock item))
      (firstn 5 (Array_sort compare_stock (List.filter demo_low_stock inventory))).

(** ** Definitions used to state the properties *)

(** The messages for the names of [requiredFields] that [firstRow] lacks,
    in the order of [requiredFields]. *)
Definition missing_field_errors (requiredFields : list string) (firstRow : row)
  : list string :=
  map (fun name => "Missing required field: " +:+ name)
      (List.filter (fun name => negb (has_field name firstRow)) requiredFields).

(** The message for the row at 0-based position [index]. *)
Definition number_error (index : nat) (name : string) : string :=
  "Row " +:+ show_nat (index + 1) +:+ ": " +:+ name +:+ " must be a number".





(** The sum of a list of numbers, added from the left starting at 0, as
    [reduce((sum, x) => sum + x, 0)] computes it. *)
Definition sum_numbers (l : list number) : number := fold_left js_add l zero.

(** Sample records. *)
Definition sale (product : string) (amount : number) : SalesData.t :=
  SalesData.mk (Some "2024-08-01"%string) (Some product) (Some "Ethnic"%string)
    (Some one) (Some amount) None None.

Definition stock_item (product : string) (stock : number) (min_alert : option number)
  : InventoryData.t :=
  InventoryData.mk (Some product) (Some "Ethnic"%string) (Some stock)
    (Some (number_of_Z 500)) None min_alert.

Definition review (rating : Z) (text : string) : ReviewData.t :=
  ReviewData.mk (Some "2024-08-01"%string) (Some (number_of_Z rating)) (Some text)
    (Some "Kurta"%string) None.

(** A review row that the parser cut short: it has a date and a rating and
    lacks the columns after them. *)
Definition short_review : ReviewData.t :=
  ReviewData.mk (Some "2024-08-02"%string) (Some (number_of_Z 4)) None None None.

(** A valid number: a finite value has its mantissa in canonical form and
    its exponent in range. Every number a program can hold is valid. *)
Definition is_number (x : number) : Prop := valid_binary prec emax x = true.

(** The last step of rounding: the mantissa [m] is brought back to 53 bits
    if rounding up has made it longer, and the result is classified. *)
Definition finish (sx : bool) (m e : Z) : number :=
  let '(mrs, e') := shr_fexp prec emax m e loc_Exact in
  match shr_m mrs with
  | Z0 => S754_zero sx
  | Zpos p => if e' <=? emax - prec then S754_finite sx p e' else S754_infinity sx
  | Zneg _ => S754_nan
  end.

(** What the first step of rounding hands to the last: zero, or a mantissa
    of [d] bits, or the power [2 ^ d], at an exponent that is canonical for
    [d] bits. *)
Definition rounded_ok (m e : Z) : Prop :=
  m = 0 \/ exists d, 1 <= d /\ e = fexp prec emax (d + e) /\ 2 ^ (d - 1) <= m <= 2 ^ d.

(** The shapes a rounded value of sign [sx] can take. *)
Definition rounded (sx : bool) (r : number) : Prop :=
  r = S754_zero sx \/ r = S754_infinity sx \/ exists p e, r = S754_finite sx p e.

(** [clamp(x, lo, hi)]: [x] brought into the interval from [lo] to [hi]. *)
Definition clamp (x lo hi : number) : number :=
  if js_lt x lo then lo else if js_lt hi x then hi else x.

(** The value an order adds to the revenue: its amount, where a missing
    amount and an amount that is not a number (NaN) count as 0. *)
Definition amount_value (sale : SalesData.t) : number :=
  match SalesData.Amount sale with
  | Some x => if isNaN x then zero else x
  | None => zero
  end.

(** The amount of a sales record, when it has one, is a valid number. *)
Definition sale_ok (sale : SalesData.t) : Prop :=
  forall x, SalesData.Amount sale = Some x -> is_number x.

(** A review record has its text. *)
Definition has_Review (review : ReviewData.t) : Prop :=
  ReviewData.Review review <> None.

(** [word] occurs in [text] as a substring, and occurs in it when case is
    ignored. *)
Definition occurs_in (word text : string) : Prop :=
  exists pre post, text = pre +:+ word +:+ post.

Definition occurs_ci (word text : string) : Prop :=
  occurs_in (toLowerCase word) (toLowerCase text).

(** The number of words of a lexicon that occur in a text, case ignored. *)
Definition lexicon_count (words : list string) (text : string) : nat :=
  length (List.filter (includes (toLowerCase text)) words).

(** The delta of a review: positive matches minus negative matches. *)
Definition text_delta (text : string) : Z :=
  Z.of_nat (lexicon_count positiveWords text) - Z.of_nat (lexicon_count negativeWords text).

Definition review_delta (review : ReviewData.t) : Z :=
  match ReviewData.Review review with
  | Some text => text_delta text
  | None => 0
  end.

Definition totalDelta (reviews : list ReviewData.t) : Z :=
  fold_right (fun review acc => review_delta review + acc) 0 reviews.

(** The key under which a sale is grouped, and the sales of one key in the
    order of the list. *)
Definition product_key (sale : SalesData.t) : string :=
  ToPropertyKey (SalesData.Product sale).

Definition group (key : string) (sales : list SalesData.t) : list SalesData.t :=
  List.filter (fun sale => String.eqb (product_key sale) key) sales.

(** The names that [Object.prototype] defines. The accumulator [{}]
    inherits them: read under one of them it gives the inherited value and
    not [undefined], and an assignment to [__proto__] creates no property.
    The dictionary above has own properties only, so what is proved of the
    groups is proved for sales whose product is none of these names. *)
Definition Object_prototype_names : list string :=
  ["constructor"; "hasOwnProperty"; "isPrototypeOf"; "propertyIsEnumerable";
   "toLocaleString"; "toString"; "valueOf"; "__proto__"; "__defineGetter__";
   "__defineSetter__"; "__lookupGetter__"; "__lookupSetter__"]%string.

Definition plain_product (sale : SalesData.t) : Prop :=
  Array_includes Object_prototype_names (product_key sale) = false.

(** The accumulator [productRevenue] that [reduce] builds from the sales. *)
Definition productRevenue (sales : list SalesData.t) : object :=
  fold_left add_revenue sales [].

(** The value held under [key] after the sales have been added to an
    accumulator that held [start] under it. *)
Definition group_revenue (key : string) (sales : list SalesData.t) (start : option number)
  : option number :=
  fold_left
    (fun cur sale =>
       if String.eqb (product_key sale) key
       then Some (js_add (number_or cur zero) (number_or (SalesData.Amount sale) zero))
       else cur)
    sales start.

(** The amount of a sales record, when it has one, is a valid number and
    not infinite. *)
Definition amount_finite (sale : SalesData.t) : Prop :=
  forall x, SalesData.Amount sale = Some x ->
            is_number x /\ forall s, x <> S754_infinity s.

(** The amount of a sales record is the whole number [z], not negative. *)
Definition whole_amount (sale : SalesData.t) (z : Z) : Prop :=
  0 <= z /\ SalesData.Amount sale = Some (number_of_Z z).

(** [a] may stand before [b] in a list of descending revenue. *)
Definition descending (a b : TopProduct.t) : Prop :=
  js_le (TopProduct.revenue b) (TopProduct.revenue a) = true.

(** A value of the accumulator that the next addition reads back as it
    is. *)
Definition revenue_ok (v : number) : Prop :=
  is_number v /\ isNaN v = false /\ v <> S754_zero true.

(** The groups in the order of the sort, before [slice(0, 5)]. *)
Definition ranking (sales : list SalesData.t) : list TopProduct.t :=
  map (fun '(product, revenue) => TopProduct.mk product revenue)
      (Array_sort compare_revenue (Object_entries (productRevenue sales))).

(** The sum of a list of integers. *)
Definition Zsum (l : list Z) : Z := fold_right Z.add 0 l.


(** The stock of an inventory record, when it has one, is a valid number. *)
Definition inventory_ok (item : InventoryData.t) : Prop :=
  forall x, InventoryData.Stock item = Some x -> is_number x.

(** [a] may stand before [b] in a list of ascending stock. *)
Definition ascending (a b : LowStockItem.t) : Prop :=
  js_le (ToNumber (LowStockItem.stock a)) (ToNumber (LowStockItem.stock b)) = true.

(** ** [Math.floor] and [Math.random] *)

(** [Math.floor(x)]: the largest integer that is not above [x]; infinities,
    NaN and the zeros are returned as they are. *)
Definition Math_floor (x : number) : number :=
  match x with
  | S754_finite s m e =>
      if 0 <=? e then x
      else
        let q := Zpos m / 2 ^ (- e) in
        if s then number_of_Z (- (if Zpos m mod 2 ^ (- e) =? 0 then q else q + 1))
        else number_of_Z q
  | _ => x
  end.

(** A result of [Math.random()]: a number that is at least 0 and less
    than 1. *)
Definition unit_interval (r : number) : Prop :=
  is_number r /\ r <> neg_zero /\ js_le zero r = true /\ js_lt r one = true.

(** ** The demo summary *)

(** The callback of [sales.reduce] that builds [productRevenue] in
    [getDemoBusinessSummary]: [Amount] is read as it is. *)
Definition demo_add_revenue (acc : object) (sale : SalesData.t) : object :=
  let product := ToPropertyKey (SalesData.Product sale) in
  obj_set acc product
    (js_add (number_or (obj_get acc product) zero) (ToNumber (SalesData.Amount sale))).

(** The summary that [getDemoBusinessSummary] computes from the data of the
    three generators: no read is guarded, no division is guarded, and the
    sentiment score is the literal 0.3. *)
Definition demo_summary
    (sales : list SalesData.t)
    (inventory : list InventoryData.t)
    (reviews : list ReviewData.t) : BusinessSummary :=
  let totalRevenue :=
    fold_left (fun sum sale => js_add sum (ToNumber (SalesData.Amount sale))) sales zero in
  let totalOrders := length sales in
  let averageOrderValue := js_div totalRevenue (number_of_nat totalOrders) in
  let productRevenue := fold_left demo_add_revenue sales [] in
  let topProducts :=
    map (fun '(product, revenue) => TopProduct.mk product revenue)
        (firstn 5 (Array_sort compare_revenue (Object_entries productRevenue))) in
  let lowStockItems := demo_lowStockItems inventory in
  let averageRating :=
    js_div (fold_left (fun sum review => js_add sum (ToNumber (ReviewData.Rating review)))
                      reviews zero)
           (number_of_nat (length reviews)) in
  mkBusinessSummary totalRevenue totalOrders averageOrderValue topProducts lowStockItems
    averageRating (number_of_decimal false 3 (-1)).

(** A field that holds a number: it is present, valid and not NaN. *)
Definition holds_number (x : option number) : Prop :=
  exists v, x = Some v /\ is_number v /\ isNaN v = false.

(** What the generators of the demo data give each record. *)
Definition demo_sale (sale : SalesData.t) : Prop := holds_number (SalesData.Amount sale).

Definition demo_item (item : InventoryData.t) : Prop :=
  exists v, InventoryData.Min_Alert item = Some v /\ number_truthy v = true.

Definition demo_review (review : ReviewData.t) : Prop :=
  holds_number (ReviewData.Rating review) /\ has_Review review.

(** ** The generators of the demo data *)

(** ToUint32-free reading of a number as an array index: the number has to
    be an integer that is not negative. *)
Definition ToIndex (k : number) : option nat :=
  match k with
  | S754_zero _ => Some 0%nat
  | S754_finite false m e =>
      if 0 <=? e then Some (Z.to_nat (Zpos m * 2 ^ e))
      else if Zpos m mod 2 ^ (- e) =? 0 then Some (Z.to_nat (Zpos m / 2 ^ (- e)))
           else None
  | _ => None
  end.

(** [array[k]]: undefined when [k] is not the index of an element. *)
Definition Array_get {A : Type} (array : list A) (k : number) : option A :=
  match ToIndex k with
  | Some i => nth_error array i
  | None => None
  end.

Definition products : list string :=
  ["Blue Kurta"; "Red Saree"; "Cotton Shirt"; "Denim Jeans"; "Silk Dupatta";
   "Woolen Shawl"]%string.
Definition categories : list string := ["Ethnic"; "Western"; "Accessories"]%string.
Definition locations : list string :=
  ["Mumbai"; "Delhi"; "Bangalore"; "Chennai"; "Kolkata"; "Pune"]%string.
Definition suppliers : list string :=
  ["Fashion_Co"; "Style_Hub"; "Trend_Makers"; "Elite_Fashion"]%string.
Definition platforms : list string := ["Google"; "Facebook"; "Website"; "Amazon"]%string.

Definition positiveReviews : list string :=
  ["Excellent quality and fast delivery!"; "Great product, highly recommended";
   "Good value for money"; "Beautiful design and comfortable fit";
   "Amazing customer service"; "Perfect for festive occasions"]%string.

Definition negativeReviews : list string :=
  ["Product quality could be better"; "Delivery was delayed"; "Not as shown in pictures";
   "Expensive for the quality"; "Size was not accurate";
   "Customer support needs improvement"]%string.

Section Generators.

(** The successive results of [Math.random()], numbered from 0, and the
    text [toISOString().split('T')[0]] of the start date moved on by a
    number of days with [setDate(getDate() + days)]; the calendar
    arithmetic of [Date] depends on the time zone of the host and is left
    open. A generator is given the number of results drawn so far. *)
Variable random : nat -> number.
Variable isoDate : number -> string.

(** [Math.floor(Math.random() * n)], on the draw numbered [i]. *)
Definition random_below (n : number) (i : nat) : number :=
  Math_floor (js_mul (random i) n).

(** One turn of the loop of [generateDemoSalesData]: seven draws. *)
Definition demo_sale_record (i : nat) : SalesData.t :=
  let days := random_below (number_of_Z 90) i in
  let product := Array_get products (random_below (number_of_nat (length products)) (i + 1)) in
  let quantity := js_add (random_below (number_of_Z 5) (i + 2)) one in
  let basePrice := js_add (random_below (number_of_Z 2000) (i + 3)) (number_of_Z 500) in
  SalesData.mk
    (Some (isoDate days))
    product
    (Array_get categories (random_below (number_of_nat (length categories)) (i + 4)))
    (Some quantity)
    (Some (js_mul basePrice quantity))
    (Some (js_add (random_below (number_of_Z 40) (i + 5)) (number_of_Z 20)))
    (Array_get locations (random_below (number_of_nat (length locations)) (i + 6))).

(** [for (let i = 0; i < count; i++) data.push(...)], each turn drawing
    [draws] results. *)
Fixpoint push_records {A : Type} (record : nat -> A) (draws count i : nat) : list A :=
  match count with
  | O => []
  | S count' => record i :: push_records record draws count' (i + draws)
  end.

Definition generateDemoSalesData (i : nat) : list SalesData.t * nat :=
  (push_records demo_sale_record 7 100 i, (i + 700)%nat).

(** The callback of [products.map] in [generateDemoInventoryData]: five
    draws. *)
Definition demo_inventory_record (product : string) (i : nat) : InventoryData.t :=
  InventoryData.mk
    (Some product)
    (Array_get categories (random_below (number_of_nat (length categories)) i))
    (Some (js_add (random_below (number_of_Z 50) (i + 1)) (number_of_Z 5)))
    (Some (js_add (random_below (number_of_Z 2000) (i + 2)) (number_of_Z 500)))
    (Array_get suppliers (random_below (number_of_nat (length suppliers)) (i + 3)))
    (Some (js_add (random_below (number_of_Z 10) (i + 4)) (number_of_Z 5))).

Fixpoint map_records {A B : Type} (record : A -> nat -> B) (draws : nat) (l : list A)
    (i : nat) : list B :=
  match l with
  | [] => []
  | x :: r => record x i :: map_records record draws r (i + draws)
  end.

Definition generateDemoInventoryData (i : nat) : list InventoryData.t * nat :=
  (map_records demo_inventory_record 5 products i, (i + 5 * length products)%nat).

(** One turn of the loop of [generateDemoReviewData]: five draws. *)
Definition demo_review_record (i : nat) : ReviewData.t :=
  let days := random_below (number_of_Z 90) i in
  let rating := js_add (random_below (number_of_Z 5) (i + 1)) one in
  let isPositive := js_le (number_of_Z 4) rating in
  let reviewTexts := if isPositive then positiveReviews else negativeReviews in
  ReviewData.mk
    (Some (isoDate days))
    (Some rating)
    (Array_get reviewTexts (random_below (number_of_nat (length reviewTexts)) (i + 2)))
    (Array_get products (random_below (number_of_nat (length products)) (i + 3)))
    (Array_get platforms (random_below (number_of_nat (length platforms)) (i + 4))).

Definition generateDemoReviewData (i : nat) : list ReviewData.t * nat :=
  (push_records demo_review_record 5 50 i, (i + 250)%nat).


End Generators.

(** A field that holds a whole number between two bounds, and a field that
    holds one of the texts of a list. *)
Definition whole_between (lo hi : Z) (x : option number) : Prop :=
  exists z, x = Some (number_of_Z z) /\ lo <= z <= hi.

Definition one_of (l : list string) (x : option string) : Prop :=
  exists s, x = Some s /\ In s l.

(** What the generators promise of each record. *)
Definition generated_sale (isoDate : number -> string) (sale : SalesData.t) : Prop :=
  (exists d, 0 <= d <= 89 /\ SalesData.Date sale = Some (isoDate (number_of_Z d)))
  /\ one_of products (SalesData.Product sale)
  /\ one_of categories (SalesData.Category sale)
  /\ (exists q p, 1 <= q <= 5 /\ 500 <= p <= 2499
                  /\ SalesData.Quantity sale = Some (number_of_Z q)
                  /\ SalesData.Amount sale = Some (number_of_Z (p * q)))
  /\ whole_between 20 59 (SalesData.Customer_Age sale)
  /\ one_of locations (SalesData.Location sale).

Definition generated_item (item : InventoryData.t) : Prop :=
  one_of products (InventoryData.Product item)
  /\ one_of categories (InventoryData.Category item)
  /\ whole_between 5 54 (InventoryData.Stock item)
  /\ whole_between 500 2499 (InventoryData.Price item)
  /\ one_of suppliers (InventoryData.Supplier item)
  /\ whole_between 5 14 (InventoryData.Min_Alert item).

Definition generated_review (isoDate : number -> string) (review : ReviewData.t) : Prop :=
  (exists d, 0 <= d <= 89 /\ ReviewData.Date review = Some (isoDate (number_of_Z d)))
  /\ (exists z, 1 <= z <= 5
                /\ ReviewData.Rating review = Some (number_of_Z z)
                /\ one_of (if 4 <=? z then positiveReviews else negativeReviews)
                          (ReviewData.Review review))
  /\ one_of products (ReviewData.Product review)
  /\ one_of platforms (ReviewData.Platform review).

(** A sample run: the draws 0.0, 0.1, ..., 0.9 over and over, and one date
    text for every day. *)
Definition sample_random (i : nat) : number :=
  number_of_decimal false (N.of_nat (i mod 10)) (-1).

Definition sample_isoDate (days : number) : string := "2024-08-01".

(** ** Definitions used to state the further properties *)

(** The guard of the type check lets a cell pass when it is falsy (missing,
    empty text, 0, NaN) or when [Number] maps it to a number. *)
Definition cell_accepted (v : option value) : bool :=
  negb (truthy v && isNaN (Number v)).

(** The messages the type check adds for the row at position [ir.1]. *)
Definition type_errors (ir : nat * row) : list string :=
  (if cell_accepted (ir.2 !! "Quantity"%string) then [] else [number_error ir.1 "Quantity"])
  ++ (if cell_accepted (ir.2 !! "Amount"%string) then [] else [number_error ir.1 "Amount"]).

(** A text is blank when white space is all it holds. *)
Definition blank (s : string) : bool := String.eqb (trim s) EmptyString.

(** A cell of a numeric column is reported by the type check of the sales
    validator. *)
Definition reported (cell : value) : bool :=
  truthy (Some cell) && isNaN (Number (Some cell)).

(** A text that may follow a whole number without changing what
    [parseFloat] reads: it is empty or starts with a character that cannot
    continue the literal. *)
Definition ends_literal (s : string) : bool :=
  match s with
  | EmptyString => true
  | String c _ =>
      negb (is_digit c || Ascii.eqb c "." || Ascii.eqb c "e" || Ascii.eqb c "E")
  end.

(** The rating of a review record is the whole number [z], not negative; a
    record without rating has the rating 0. *)
Definition whole_rating (review : ReviewData.t) (z : Z) : Prop :=
  0 <= z
  /\ (ReviewData.Rating review = Some (number_of_Z z)
      \/ (z = 0 /\ ReviewData.Rating review = None)).

#[global] Instance number_eq_dec : EqDecision number.
Proof. solve_decision. Defined.

(** The distinct names of a list, in the order of their first
    occurrence. *)
Definition first_seen (keys : list string) : list string :=
  fold_left (fun seen key => if existsb (String.eqb key) seen then seen else seen ++ [key])
            keys [].

(** The entries whose revenue is [v]. *)
Definition with_revenue (v : number) (l : list TopProduct.t) : list TopProduct.t :=
  List.filter (fun tp => bool_decide (TopProduct.revenue tp = v)) l.

(** A field that, when present, holds a valid number that is not
    infinite. *)
Definition finite_field (x : option number) : Prop :=
  forall v, x = Some v -> is_number v /\ forall s, v <> S754_infinity s.

(** ** ToString on numbers *)

(** The decimal digits of a natural number. *)
Definition show_N (n : N) : string := NilZero.string_of_uint (N.to_uint n).

Fixpoint zeros (n : nat) : string :=
  match n with
  | O => EmptyString
  | S p => String "0" (zeros p)
  end.

(** [m * 2 ^ e < 10 ^ n], for a positive mantissa. *)
Definition below_pow10 (m : positive) (e n : Z) : bool :=
  Zpos m * 2 ^ Z.max e 0 * 10 ^ Z.max (- n) 0 <? 10 ^ Z.max n 0 * 2 ^ Z.max (- e) 0.

(** The least [n], from [n] on, with [m * 2 ^ e < 10 ^ n]. *)
Fixpoint decimal_exponent (fuel : nat) (m : positive) (e n : Z) : Z :=
  match fuel with
  | O => n
  | S f => if below_pow10 m e n then n else decimal_exponent f m e (n + 1)
  end.

(** The integer [s] of [k] digits and the [n] for which [s * 10 ^ (n - k)]
    is read back as the number [m * 2 ^ e], if there is one: of the two
    decimals of [k] digits next to the number, the one that is read back as
    it; the nearer one if both are, and the even one if both are as near.
    [n0] is the number of digits of the integer part of the number. *)
Definition digits_candidate (m : positive) (e n0 k : Z) : option (N * Z) :=
  let num := Zpos m * 2 ^ Z.max e 0 * 10 ^ Z.max (k - n0) 0 in
  let den := 2 ^ Z.max (- e) 0 * 10 ^ Z.max (n0 - k) 0 in
  let lo := num / den in
  let r := num mod den in
  let below := (Z.to_N lo, n0) in
  let above :=
    if lo + 1 =? 10 ^ k then (Z.to_N (10 ^ (k - 1)), n0 + 1) else (Z.to_N (lo + 1), n0) in
  let reads_back (c : N * Z) :=
    SFeqb (number_of_decimal false (fst c) (snd c - k)) (S754_finite false m e) in
  match reads_back below, reads_back above with
  | true, true =>
      Some (if (2 * r <? den) || ((2 * r =? den) && Z.even lo) then below else above)
  | true, false => Some below
  | false, true => Some above
  | false, false => None
  end.

(** The shortest digits that are read back as the number: the least [k],
    from [k] on, that has a candidate. Seventeen digits always do. *)
Fixpoint shortest_digits (fuel : nat) (m : positive) (e n0 k : Z) : N * Z * Z :=
  match fuel with
  | O => (Z.to_N (Zpos m * 2 ^ Z.max e 0 * 10 ^ Z.max (k - n0) 0
                  / (2 ^ Z.max (- e) 0 * 10 ^ Z.max (n0 - k) 0)), n0, k)
  | S f =>
      match digits_candidate m e n0 k with
      | Some (s, n) => (s, n, k)
      | None => shortest_digits f m e n0 (k + 1)
      end
  end.

(** The text of the number [s * 10 ^ (n - k)], where [s] has [k] digits:
    plain digits when [-6 < n <= 21], exponent notation otherwise. *)
Definition decimal_text (s : N) (n k : Z) : string :=
  let digits := show_N s in
  if (k <=? n) && (n <=? 21) then digits +:+ zeros (Z.to_nat (n - k))
  else if (0 <? n) && (n <=? 21) then
    substring 0 (Z.to_nat n) digits +:+ "." +:+ substring (Z.to_nat n) (Z.to_nat (k - n)) digits
  else if (-6 <? n) && (n <=? 0) then "0." +:+ zeros (Z.to_nat (- n)) +:+ digits
  else
    let e := n - 1 in
    let mantissa :=
      if k =? 1 then digits
      else substring 0 1 digits +:+ "." +:+ substring 1 (Z.to_nat (k - 1)) digits in
    mantissa +:+ "e" +:+ (if 0 <? e then "+" else "-") +:+ show_N (Z.to_N (Z.abs e)).

(** [Number::toString(x)] in radix 10. *)
Definition Number_toString (x : number) : string :=
  match x with
  | S754_nan => "NaN"
  | S754_zero _ => "0"
  | S754_infinity s => if s then "-Infinity" else "Infinity"
  | S754_finite s m e =>
      let n0 := decimal_exponent 640 m e (-324) in
      let '(d, n, k) := shortest_digits 17 m e n0 1 in
      (if s then "-" else EmptyString) +:+ decimal_text d n k
  end.

(** ** The revenue totals on decoded rows *)

(** The caller hands the decoded rows to [generateBusinessSummary] as they
    are ([data as any]): a cell of the Amount column that the decoder could
    not read as a number is still a text there, and [+] then joins texts. *)

(** ToString on a cell. *)
Definition ToString (v : value) : string :=
  match v with
  | VNumber n => Number_toString n
  | VString s => s
  end.

(** [a + b]: the sum of two numbers; when one operand is a text, the texts
    of both, joined. *)
Definition js_plus (a b : value) : value :=
  match a, b with
  | VNumber x, VNumber y => VNumber (js_add x y)
  | _, _ => VString (ToString a +:+ ToString b)
  end.

(** [x || d] on the result of a property read. *)
Definition value_or (x : option value) (d : value) : value :=
  match x with
  | Some v => if truthy x then v else d
  | None => d
  end.

Module Rows.

Record Totals : Type := mkTotals {
  totalRevenue : value;
  totalOrders : nat;
  averageOrderValue : number
}.

(** The first three steps of [generateBusinessSummary], on decoded rows. *)
Definition revenue_totals (salesData : list row) : Totals :=
  let totalRevenue :=
    fold_left (fun sum sale => js_plus sum (value_or (sale !! "Amount"%string) (VNumber zero)))
              salesData (VNumber zero) in
  let totalOrders := length salesData in
  let averageOrderValue :=
    if (0 <? totalOrders)%nat
    then js_div (Number (Some totalRevenue)) (number_of_nat totalOrders)
    else zero in
  mkTotals totalRevenue totalOrders averageOrderValue.

End Rows.

(** The record that a decoded row is when its cells have the types of the
    interface [SalesData]: a cell of another type reads as a missing one. *)
Definition number_cell (v : option value) : option number :=
  match v with
  | Some (VNumber n) => Some n
  | _ => None
  end.

Definition text_cell (v : option value) : option string :=
  match v with
  | Some (VString s) => Some s
  | _ => None
  end.

Definition SalesData_of_row (r : row) : SalesData.t :=
  SalesData.mk (text_cell (r !! "Date"%string)) (text_cell (r !! "Product"%string))
    (text_cell (r !! "Category"%string)) (number_cell (r !! "Quantity"%string))
    (number_cell (r !! "Amount"%string)) (number_cell (r !! "Customer_Age"%string))
    (text_cell (r !! "Location"%string)).

(** The Amount cell of a row is a number, is missing or is the empty
    text. *)
Definition numeric_Amount (r : row) : Prop :=
  forall s, r !! "Amount"%string = Some (VString s) -> s = EmptyString.

(** The Amount cell of a row is a text that is not empty. *)
Definition text_Amount (r : row) : Prop :=
  exists s, r !! "Amount"%string = Some (VString s) /\ s <> EmptyString.

(** A row of a sales file after decoding. *)
Definition sales_row (date product quantity amount : string) : row :=
  {[ "Date"%string := transform date (FieldName "Date");
     "Product"%string := transform product (FieldName "Product");
     "Quantity"%string := transform quantity (FieldName "Quantity");
     "Amount"%string := transform amount (FieldName "Amount") ]}.

(** ** Numbers as multiples of the least positive number *)

(** Every finite number is an integer multiple of 2^-1074, the least
    positive number: [ulps x] is that integer. It is 0 for the other
    values. *)
Definition ulps (x : number) : Z :=
  match x with
  | S754_finite s m e => cond_Zopp s (Zpos m * 2 ^ (e + 1074))
  | _ => 0
  end.

(** [y] is a finite number within the relative distance 2^-50 of [x]. *)
Definition close_to (y x : number) : Prop :=
  is_number y
  /\ (exists s m e, y = S754_finite s m e)
  /\ 2 ^ 50 * Z.abs (ulps y - ulps x) <= Z.abs (ulps x).

(** * Properties *)

(** ** Numbers: rounding, exact integers and comparison *)

Lemma digits2_pos_size (p : positive) : digits2_pos p = Pos.size p.
Proof. induction p; simpl; congruence. Qed.

(** [lia] after every power of two has been made an opaque variable. *)
Ltac pow_lia :=
  repeat match goal with
         | |- context [Z.pow 2 ?e] =>
             let x := fresh "pw" in set (x := Z.pow 2 e) in *; clearbody x
         | H : context [Z.pow 2 ?e] |- _ =>
             let x := fresh "pw" in set (x := Z.pow 2 e) in *; clearbody x
         end;
  lia.

Lemma digits_bounds (p : positive) :
  2 ^ (Zpos (digits2_pos p) - 1) <= Zpos p < 2 ^ Zpos (digits2_pos p).
Proof.
  induction p as [p IH | p IH |]; cbn [digits2_pos].
  - rewrite Pos2Z.inj_succ, Pos2Z.inj_xI.
    replace (Z.succ (Zpos (digits2_pos p)) - 1) with (Z.succ (Zpos (digits2_pos p) - 1)) by lia.
    rewrite !Z.pow_succ_r by lia. pow_lia.
  - rewrite Pos2Z.inj_succ. change (Zpos p~0) with (2 * Zpos p).
    replace (Z.succ (Zpos (digits2_pos p)) - 1) with (Z.succ (Zpos (digits2_pos p) - 1)) by lia.
    rewrite !Z.pow_succ_r by lia. pow_lia.
  - simpl. lia.
Qed.

Lemma digits_unique (p : positive) (d : Z) :
  2 ^ (d - 1) <= Zpos p < 2 ^ d -> Zpos (digits2_pos p) = d.
Proof.
  intros [Hlo Hhi]. pose proof (digits_bounds p) as [Hlo' Hhi'].
  assert (0 < d). { destruct (Z_lt_le_dec 0 d); [assumption |]. 
    assert (2 ^ d <= 1). { destruct (Z.eq_dec d 0) as [-> | ]; [simpl; lia |]. rewrite Z.pow_neg_r by lia. lia. } lia. }
  destruct (Z.lt_trichotomy (Zpos (digits2_pos p)) d) as [H1 | [H1 | H1]]; [| assumption |].
  - assert (2 ^ Zpos (digits2_pos p) <= 2 ^ (d - 1)) by (apply Z.pow_le_mono_r; lia). lia.
  - assert (2 ^ d <= 2 ^ (Zpos (digits2_pos p) - 1)) by (apply Z.pow_le_mono_r; lia). lia.
Qed.

Lemma iter_xO_Z (p k : positive) : Zpos (Pos.iter xO p k) = Zpos p * 2 ^ Zpos k.
Proof.
  induction k as [| k IH] using Pos.peano_ind.
  - simpl. lia.
  - rewrite Pos.iter_succ, Pos2Z.inj_succ, Z.pow_succ_r by lia.
    change (Zpos (Pos.iter xO p k)~0) with (2 * Zpos (Pos.iter xO p k)). rewrite IH. ring.
Qed.

Lemma digits_shift (p k : positive) :
  Zpos (digits2_pos (Pos.iter xO p k)) = Zpos (digits2_pos p) + Zpos k.
Proof.
  apply digits_unique. rewrite iter_xO_Z. pose proof (digits_bounds p) as [Hlo Hhi].
  replace (Zpos (digits2_pos p) + Zpos k - 1) with (Zpos (digits2_pos p) - 1 + Zpos k) by lia.
  rewrite !Z.pow_add_r by lia. assert (0 < 2 ^ Zpos k) by (apply Z.pow_pos_nonneg; lia). split; nia.
Qed.

Ltac unfold_fexp := unfold fexp, emin, prec, emax in *.

Lemma iter_pos_nat {A : Type} (f : A -> A) (n : positive) (x : A) :
  SpecFloat.iter_pos f n x = Nat.iter (Pos.to_nat n) f x.
Proof.
  revert x. induction n as [n IH | n IH |]; intros x; cbn [SpecFloat.iter_pos].
  - rewrite !IH, Pos2Nat.inj_xI.
    replace (S (2 * Pos.to_nat n)) with (Pos.to_nat n + (Pos.to_nat n + 1))%nat by lia.
    rewrite !Nat.iter_add. reflexivity.
  - rewrite !IH, Pos2Nat.inj_xO.
    replace (2 * Pos.to_nat n)%nat with (Pos.to_nat n + Pos.to_nat n)%nat by lia.
    rewrite Nat.iter_add. reflexivity.
  - reflexivity.
Qed.

Lemma shr_1_m (r : shr_record) : 0 <= shr_m r -> shr_m (shr_1 r) = shr_m r / 2.
Proof.
  destruct r as [m b s]. cbn [shr_m]. intros Hm. unfold shr_1.
  destruct m as [| [p | p |] | p]; cbn [shr_m].
  - reflexivity.
  - apply Z.div_unique with (r := 1); lia.
  - apply Z.div_unique with (r := 0); lia.
  - reflexivity.
  - lia.
Qed.

Lemma shr_iter_m (n : nat) (r : shr_record) :
  0 <= shr_m r ->
  shr_m (Nat.iter n shr_1 r) = shr_m r / 2 ^ Z.of_nat n.
Proof.
  intros Hm. induction n as [| n IH].
  - simpl. now rewrite Z.div_1_r.
  - rewrite Nat.iter_succ, shr_1_m.
    + rewrite IH, Nat2Z.inj_succ, Z.pow_succ_r by lia.
      rewrite Z.div_div by (try apply Z.pow_pos_nonneg; lia).
      f_equal. ring.
    + rewrite IH. apply Z.div_pos; [assumption | apply Z.pow_pos_nonneg; lia].
Qed.

(** Shifting out zero bits is exact. *)
Lemma shr_iter_exact (n : nat) (q : positive) :
  Nat.iter n shr_1 (Build_shr_record (Zpos q * 2 ^ Z.of_nat n) false false)
  = Build_shr_record (Zpos q) false false.
Proof.
  induction n as [| n IH].
  - simpl. f_equal. lia.
  - rewrite Nat.iter_succ_r.
    assert (Hstep : shr_1 (Build_shr_record (Zpos q * 2 ^ Z.of_nat (S n)) false false)
                    = Build_shr_record (Zpos q * 2 ^ Z.of_nat n) false false).
    { rewrite Nat2Z.inj_succ, Z.pow_succ_r by lia.
      assert (Hpos : 0 < Zpos q * 2 ^ Z.of_nat n).
      { apply Z.mul_pos_pos; [lia | apply Z.pow_pos_nonneg; lia]. }
      destruct (Zpos q * 2 ^ Z.of_nat n) as [| m | m] eqn:E; try lia.
      replace (Zpos q * (2 * 2 ^ Z.of_nat n)) with (Zpos m~0).
      - reflexivity.
      - rewrite Pos2Z.inj_xO, <- E. ring. }
    rewrite Hstep. exact IH.
Qed.

Lemma binary_round_aux_finish (sx : bool) (mx ex : Z) (lx : location) :
  binary_round_aux prec emax sx mx ex lx
  = finish sx (round_nearest_even (shr_m (shr_fexp prec emax mx ex lx).1)
                 (loc_of_shr_record (shr_fexp prec emax mx ex lx).1))
           (shr_fexp prec emax mx ex lx).2.
Proof.
  unfold binary_round_aux, finish. destruct (shr_fexp prec emax mx ex lx) as [mrs e'].
  reflexivity.
Qed.

Lemma shr_fexp_unfold (m e : Z) (l : location) :
  shr_fexp prec emax m e l
  = if 0 <? fexp prec emax (Zdigits2 m + e) - e
    then (Nat.iter (Z.to_nat (fexp prec emax (Zdigits2 m + e) - e)) shr_1
            (shr_record_of_loc m l),
          fexp prec emax (Zdigits2 m + e))
    else (shr_record_of_loc m l, e).
Proof.
  unfold shr_fexp, shr.
  destruct (fexp prec emax (Zdigits2 m + e) - e) as [| n | n] eqn:E; try reflexivity.
  rewrite iter_pos_nat. cbn [Z.ltb Z.compare Z.to_nat]. f_equal. lia.
Qed.

Lemma shr_m_of_loc (m : Z) (l : location) : shr_m (shr_record_of_loc m l) = m.
Proof. destruct l as [| []]; reflexivity. Qed.

Lemma loc_of_shr_record_of_loc (m : Z) (l : location) :
  loc_of_shr_record (shr_record_of_loc m l) = l.
Proof. destruct l as [| []]; reflexivity. Qed.

Lemma pow2_pos (d : Z) : 0 <= d -> exists q, 2 ^ d = Zpos q.
Proof.
  intros Hd. assert (0 < 2 ^ d) by (apply Z.pow_pos_nonneg; lia).
  destruct (2 ^ d) as [| q | q]; try lia. now exists q.
Qed.

Lemma finish_spec (sx : bool) (m e : Z) :
  -1074 <= e -> rounded_ok m e ->
  is_number (finish sx m e)
  /\ (0 < m -> finish sx m e = S754_infinity sx
               \/ exists p e', finish sx m e = S754_finite sx p e')
  /\ (m = 0 -> finish sx m e = S754_zero sx).
Proof.
  intros He [-> | (d & Hd & Hfe & Hlo & Hhi)].
  - unfold finish. rewrite shr_fexp_unfold. cbn [Zdigits2].
    replace (0 <? fexp prec emax (0 + e) - e) with false
      by (symmetry; apply Z.ltb_ge; unfold_fexp; lia).
    cbn. repeat split; try reflexivity. intros; lia.
  - assert (Hpos : 0 < m).
    { assert (0 < 2 ^ (d - 1)) by (apply Z.pow_pos_nonneg; lia). lia. }
    destruct m as [| p | p]; try lia.
    assert (Hd53 : d <= 53) by (unfold_fexp; lia).
    assert (Hcases : Zpos p < 2 ^ d \/ Zpos p = 2 ^ d) by lia.
    destruct Hcases as [Hlt | Heq].
    + assert (Hdig : Zpos (digits2_pos p) = d) by (apply digits_unique; lia).
      unfold finish. rewrite shr_fexp_unfold. cbn [Zdigits2]. rewrite Hdig, <- Hfe.
      rewrite Z.sub_diag. cbn [Z.ltb Z.compare shr_record_of_loc shr_m].
      destruct (e <=? emax - prec) eqn:Hle.
      * split; [| split; [intros _; right; eauto | lia]].
        unfold is_number. cbn. unfold bounded, canonical_mantissa.
        rewrite Hdig, <- Hfe, Z.eqb_refl, Hle. reflexivity.
      * split; [reflexivity | split; [intros _; now left | lia]].
    + assert (Hdig : Zpos (digits2_pos p) = d + 1).
      { apply digits_unique. rewrite Heq. replace (d + 1 - 1) with d by lia.
        rewrite Z.pow_add_r by lia. assert (0 < 2 ^ d) by (apply Z.pow_pos_nonneg; lia).
        change (2 ^ 1) with 2. lia. }
      unfold finish. rewrite shr_fexp_unfold. cbn [Zdigits2]. rewrite Hdig.
      destruct (0 <? fexp prec emax (d + 1 + e) - e) eqn:Hn.
      * apply Z.ltb_lt in Hn.
        assert (Hn1 : fexp prec emax (d + 1 + e) - e = 1) by (unfold_fexp; lia).
        rewrite Hn1. destruct (pow2_pos (d - 1)) as (q & Hq); [lia |].
        assert (Hp : Zpos p = Zpos q * 2 ^ Z.of_nat (Z.to_nat 1)).
        { rewrite Heq, <- Hq. change (2 ^ Z.of_nat (Z.to_nat 1)) with 2.
          replace d with (Z.succ (d - 1)) at 1 by lia. rewrite Z.pow_succ_r by lia. ring. }
        cbn [shr_record_of_loc]. rewrite Hp, shr_iter_exact. cbn [shr_m].
        assert (Hdq : Zpos (digits2_pos q) = d).
        { apply digits_unique. rewrite <- Hq. split; [lia |].
          apply Z.pow_lt_mono_r; lia. }
        destruct (fexp prec emax (d + 1 + e) <=? emax - prec) eqn:Hle.
        -- split; [| split; [intros _; right; eauto | lia]].
           unfold is_number. cbn. unfold bounded, canonical_mantissa.
           rewrite Hdq, Hle, andb_true_r. apply Z.eqb_eq. unfold_fexp. lia.
        -- split; [reflexivity | split; [intros _; now left | lia]].
      * apply Z.ltb_ge in Hn. cbn [shr_record_of_loc shr_m].
        destruct (e <=? emax - prec) eqn:Hle.
        -- split; [| split; [intros _; right; eauto | lia]].
           unfold is_number. cbn. unfold bounded, canonical_mantissa.
           rewrite Hdig, Hle, andb_true_r. apply Z.eqb_eq. unfold_fexp. lia.
        -- split; [reflexivity | split; [intros _; now left | lia]].
Qed.

Lemma round_nearest_even_cases (m : Z) (l : location) :
  round_nearest_even m l = m \/ round_nearest_even m l = m + 1.
Proof.
  destruct l as [| []]; cbn; auto. destruct (Z.even m); auto.
Qed.

Lemma round_stage (mz : positive) (ez : Z) (l : location) :
  ez <= fexp prec emax (Zpos (digits2_pos mz) + ez) ->
  rounded_ok (round_nearest_even (shr_m (shr_fexp prec emax (Zpos mz) ez l).1)
                (loc_of_shr_record (shr_fexp prec emax (Zpos mz) ez l).1))
             (shr_fexp prec emax (Zpos mz) ez l).2
  /\ -1074 <= (shr_fexp prec emax (Zpos mz) ez l).2
  /\ (-1074 <= ez ->
      0 < round_nearest_even (shr_m (shr_fexp prec emax (Zpos mz) ez l).1)
            (loc_of_shr_record (shr_fexp prec emax (Zpos mz) ez l).1)).
Proof.
  intros Hez. rewrite shr_fexp_unfold. cbn [Zdigits2].
  pose proof (digits_bounds mz) as [Hlo Hhi].
  set (dz := Zpos (digits2_pos mz)) in *.
  assert (Hdz : 1 <= dz) by (unfold dz; lia).
  destruct (0 <? fexp prec emax (dz + ez) - ez) eqn:Hn; cbn [fst snd].
  - apply Z.ltb_lt in Hn. set (n := fexp prec emax (dz + ez) - ez) in *.
    assert (Hm1 : shr_m (Nat.iter (Z.to_nat n) shr_1 (shr_record_of_loc (Zpos mz) l))
                  = Zpos mz / 2 ^ n).
    { rewrite shr_iter_m by (rewrite shr_m_of_loc; lia).
      rewrite shr_m_of_loc, Z2Nat.id by lia. reflexivity. }
    rewrite Hm1.
    assert (Hpn : 0 < 2 ^ n) by (apply Z.pow_pos_nonneg; lia).
    destruct (Z_lt_le_dec n dz) as [Hlt | Hge].
    + assert (Hb : 2 ^ (dz - n - 1) <= Zpos mz / 2 ^ n < 2 ^ (dz - n)).
      { split.
        - apply Z.div_le_lower_bound; [assumption |].
          rewrite <- Z.pow_add_r by lia. replace (n + (dz - n - 1)) with (dz - 1) by lia.
          exact Hlo.
        - apply Z.div_lt_upper_bound; [assumption |].
          rewrite <- Z.pow_add_r by lia. replace (n + (dz - n)) with dz by lia.
          exact Hhi. }
      assert (0 < 2 ^ (dz - n - 1)) by (apply Z.pow_pos_nonneg; lia).
      split; [| split].
      * right. exists (dz - n). split; [lia |]. split.
        -- replace (dz - n + fexp prec emax (dz + ez)) with (dz + ez) by (unfold n; lia).
           reflexivity.
        -- destruct (round_nearest_even_cases (Zpos mz / 2 ^ n)
                       (loc_of_shr_record
                          (Nat.iter (Z.to_nat n) shr_1 (shr_record_of_loc (Zpos mz) l))))
             as [-> | ->]; lia.
      * unfold_fexp. lia.
      * intros _.
        destruct (round_nearest_even_cases (Zpos mz / 2 ^ n)
                    (loc_of_shr_record
                       (Nat.iter (Z.to_nat n) shr_1 (shr_record_of_loc (Zpos mz) l))))
          as [-> | ->]; lia.
    + assert (Hsmall : Zpos mz / 2 ^ n = 0).
      { apply Z.div_small. split; [lia |].
        assert (2 ^ dz <= 2 ^ n) by (apply Z.pow_le_mono_r; lia). lia. }
      rewrite Hsmall.
      assert (Hemin : fexp prec emax (dz + ez) = -1074 /\ dz + ez <= -1074)
        by (unfold n in Hge; unfold_fexp; lia).
      destruct Hemin as [Hemin Hsum]. rewrite Hemin.
      split; [| split].
      * destruct (round_nearest_even_cases 0
                    (loc_of_shr_record
                       (Nat.iter (Z.to_nat n) shr_1 (shr_record_of_loc (Zpos mz) l))))
          as [-> | ->]; [now left |].
        right. exists 1. split; [lia |]. split; [reflexivity | simpl; lia].
      * lia.
      * intros Hge'. lia.
  - apply Z.ltb_ge in Hn.
    assert (Heq : ez = fexp prec emax (dz + ez)) by lia.
    rewrite shr_m_of_loc, loc_of_shr_record_of_loc.
    split; [| split].
    + right. exists dz. split; [lia |]. split; [exact Heq |].
      destruct (round_nearest_even_cases (Zpos mz) l) as [-> | ->]; lia.
    + unfold_fexp. lia.
    + intros _. destruct (round_nearest_even_cases (Zpos mz) l) as [-> | ->]; lia.
Qed.

Lemma binary_round_aux_spec (sx : bool) (mz : positive) (ez : Z) (l : location) :
  ez <= fexp prec emax (Zpos (digits2_pos mz) + ez) ->
  is_number (binary_round_aux prec emax sx (Zpos mz) ez l)
  /\ rounded sx (binary_round_aux prec emax sx (Zpos mz) ez l)
  /\ (-1074 <= ez -> binary_round_aux prec emax sx (Zpos mz) ez l <> S754_zero sx).
Proof.
  intros Hez. rewrite binary_round_aux_finish.
  destruct (round_stage mz ez l Hez) as (Hok & He' & Hpos).
  destruct (finish_spec sx _ _ He' Hok) as (Hval & Hfin & Hzero).
  split; [exact Hval |]. split.
  - destruct Hok as [H0 | (d & Hd & _ & Hlo & _)].
    + left. now apply Hzero.
    + assert (0 < 2 ^ (d - 1)) by (apply Z.pow_pos_nonneg; lia).
      destruct Hfin as [-> | (p & e' & ->)]; [lia | right; now left | right; right; eauto].
  - intros Hge. specialize (Hpos Hge).
    destruct (Hfin Hpos) as [-> | (p & e' & ->)]; discriminate.
Qed.

Lemma shl_align_spec (mx : positive) (ex e' : Z) :
  Zpos (shl_align mx ex e').1 = Zpos mx * 2 ^ (ex - (shl_align mx ex e').2)
  /\ (shl_align mx ex e').2 = Z.min ex e'
  /\ Zpos (digits2_pos (shl_align mx ex e').1) + (shl_align mx ex e').2
     = Zpos (digits2_pos mx) + ex.
Proof.
  unfold shl_align. destruct (e' - ex) as [| d | d] eqn:E; cbn [fst snd].
  - rewrite Z.sub_diag. simpl. lia.
  - rewrite Z.sub_diag. simpl. lia.
  - rewrite iter_xO_Z, digits_shift. replace (ex - e') with (Zpos d) by lia. lia.
Qed.

Lemma binary_round_spec (sx : bool) (mx : positive) (ex : Z) :
  is_number (binary_round prec emax sx mx ex)
  /\ rounded sx (binary_round prec emax sx mx ex)
  /\ (-1074 <= ex -> binary_round prec emax sx mx ex <> S754_zero sx).
Proof.
  unfold binary_round.
  pose proof (shl_align_spec mx ex (fexp prec emax (Zpos (digits2_pos mx) + ex)))
    as (_ & Hexp & Hsum).
  destruct (shl_align mx ex (fexp prec emax (Zpos (digits2_pos mx) + ex))) as [mz ez].
  cbn [fst snd] in *.
  destruct (binary_round_aux_spec sx mz ez loc_Exact) as (Hval & Hshape & Hnz).
  { rewrite Hsum, Hexp. lia. }
  repeat split; try assumption. intros Hge. apply Hnz. rewrite Hexp. unfold_fexp. lia.
Qed.

Lemma binary_normalize_spec (z e : Z) :
  is_number (binary_normalize prec emax z e false)
  /\ (z = 0 -> binary_normalize prec emax z e false = S754_zero false)
  /\ (0 < z -> rounded false (binary_normalize prec emax z e false)
               /\ (-1074 <= e -> binary_normalize prec emax z e false <> S754_zero false))
  /\ (z < 0 -> rounded true (binary_normalize prec emax z e false)
               /\ (-1074 <= e -> binary_normalize prec emax z e false <> S754_zero true)).
Proof.
  destruct z as [| p | p]; cbn [binary_normalize].
  - repeat split; try reflexivity; lia.
  - destruct (binary_round_spec false p e) as (Hv & Hs & Hz).
    repeat split; try assumption; lia.
  - destruct (binary_round_spec true p e) as (Hv & Hs & Hz).
    repeat split; try assumption; lia.
Qed.

(** A valid finite number has an exponent of at least -1074 and a mantissa
    of at most 53 bits, of exactly 53 bits above the smallest exponent. *)
Lemma is_number_finite (s : bool) (m : positive) (e : Z) :
  is_number (S754_finite s m e) ->
  -1074 <= e <= 971 /\ Zpos (digits2_pos m) <= 53
  /\ (-1074 < e -> Zpos (digits2_pos m) = 53).
Proof.
  unfold is_number. cbn. unfold bounded, canonical_mantissa. intros H.
  apply andb_prop in H. destruct H as [H1 H2].
  apply Z.eqb_eq in H1. apply Z.leb_le in H2. unfold_fexp. lia.
Qed.

Lemma js_add_is_number (x y : number) :
  is_number x -> is_number y -> is_number (js_add x y).
Proof.
  intros Hx Hy. destruct x as [sx | sx | | sx mx ex], y as [sy | sy | | sy my ey];
    try (destruct sx, sy; reflexivity || assumption); try assumption; try reflexivity.
  apply binary_normalize_spec.
Qed.

Lemma js_sub_is_number (x y : number) :
  is_number x -> is_number y -> is_number (js_sub x y).
Proof.
  intros Hx Hy. destruct x as [sx | sx | | sx mx ex], y as [sy | sy | | sy my ey];
    try (destruct sx, sy; reflexivity || assumption); try assumption; try reflexivity.
  apply binary_normalize_spec.
Qed.

Lemma rounded_not_NaN (sx : bool) (r : number) : rounded sx r -> isNaN r = false.
Proof. intros [-> | [-> | (p & e & ->)]]; reflexivity. Qed.

Lemma binary_normalize_not_NaN (z e : Z) :
  isNaN (binary_normalize prec emax z e false) = false.
Proof.
  destruct (binary_normalize_spec z e) as (_ & H0 & Hp & Hn).
  destruct (Z.lt_trichotomy z 0) as [H | [H | H]].
  - apply (rounded_not_NaN true), Hn, H.
  - now rewrite (H0 H).
  - apply (rounded_not_NaN false), Hp, H.
Qed.

(** The mantissas of two valid numbers, brought to the smaller exponent,
    compare as the numbers do. *)
Lemma SFcompare_aligned (sx sy : bool) (mx my : positive) (ex ey : Z) :
  is_number (S754_finite sx mx ex) -> is_number (S754_finite sy my ey) ->
  SFcompare (S754_finite sx mx ex) (S754_finite sy my ey)
  = Some (cond_Zopp sx (Zpos (shl_align mx ex (Z.min ex ey)).1)
          ?= cond_Zopp sy (Zpos (shl_align my ey (Z.min ex ey)).1)).
Proof.
  intros Hx Hy.
  apply is_number_finite in Hx, Hy.
  destruct Hx as (Hex & Hdx & Hnx), Hy as (Hey & Hdy & Hny).
  pose proof (digits_bounds mx) as [Hxl Hxh].
  pose proof (digits_bounds my) as [Hyl Hyh].
  pose proof (shl_align_spec mx ex (Z.min ex ey)) as (Hax & Hax2 & _).
  pose proof (shl_align_spec my ey (Z.min ex ey)) as (Hay & Hay2 & _).
  rewrite Hax, Hay, Hax2, Hay2.
  replace (Z.min ex (Z.min ex ey)) with (Z.min ex ey) by lia.
  replace (Z.min ey (Z.min ex ey)) with (Z.min ex ey) by lia.
  assert (Hpx : 0 < Zpos mx * 2 ^ (ex - Z.min ex ey)).
  { apply Z.mul_pos_pos; [lia | apply Z.pow_pos_nonneg; lia]. }
  assert (Hpy : 0 < Zpos my * 2 ^ (ey - Z.min ex ey)).
  { apply Z.mul_pos_pos; [lia | apply Z.pow_pos_nonneg; lia]. }
  assert (Hcmp : (match ex ?= ey with
                  | Eq => Pos.compare_cont Eq mx my
                  | Lt => Lt
                  | Gt => Gt
                  end)
                 = (Zpos mx * 2 ^ (ex - Z.min ex ey) ?= Zpos my * 2 ^ (ey - Z.min ex ey))).
  { destruct (Z.compare_spec ex ey) as [Heq | Hlt | Hgt].
    - subst ey. rewrite Z.min_id, Z.sub_diag. change (2 ^ 0) with 1.
      rewrite !Z.mul_1_r. reflexivity.
    - symmetry. apply Z.compare_lt_iff.
      rewrite Z.min_l, Z.sub_diag by lia. change (2 ^ 0) with 1. rewrite Z.mul_1_r.
      assert (Hd : Zpos (digits2_pos my) = 53) by (apply Hny; lia).
      rewrite Hd in Hyl. change (2 ^ (53 - 1)) with 4503599627370496 in Hyl.
      assert (Zpos mx < 2 ^ 53).
      { eapply Z.lt_le_trans; [exact Hxh |]. apply Z.pow_le_mono_r; lia. }
      change (2 ^ 53) with 9007199254740992 in *.
      assert (2 <= 2 ^ (ey - ex)).
      { change 2 with (2 ^ 1) at 1. apply Z.pow_le_mono_r; lia. }
      nia.
    - symmetry. apply Z.compare_gt_iff.
      rewrite Z.min_r, Z.sub_diag by lia. change (2 ^ 0) with 1. rewrite Z.mul_1_r.
      assert (Hd : Zpos (digits2_pos mx) = 53) by (apply Hnx; lia).
      rewrite Hd in Hxl. change (2 ^ (53 - 1)) with 4503599627370496 in Hxl.
      assert (Zpos my < 2 ^ 53).
      { eapply Z.lt_le_trans; [exact Hyh |]. apply Z.pow_le_mono_r; lia. }
      change (2 ^ 53) with 9007199254740992 in *.
      assert (2 <= 2 ^ (ex - ey)).
      { change 2 with (2 ^ 1) at 1. apply Z.pow_le_mono_r; lia. }
      nia. }
  cbn [SFcompare]. f_equal.
  destruct sx, sy; cbn [cond_Zopp].
  - rewrite Z.compare_opp, (Z.compare_antisym (Zpos mx * _)), <- Hcmp.
    destruct (ex ?= ey); reflexivity.
  - symmetry. apply Z.compare_lt_iff. lia.
  - symmetry. apply Z.compare_gt_iff. lia.
  - exact Hcmp.
Qed.

(** The sign test of a difference agrees with the comparison: this is what
    makes [(a, b) => a - b] a consistent comparator. *)
Lemma js_sub_negative (x y : number) :
  is_number x -> is_number y ->
  js_lt (js_sub x y) zero = js_lt x y.
Proof.
  intros Hx Hy.
  destruct x as [sx | sx | | sx mx ex], y as [sy | sy | | sy my ey];
    try reflexivity; try (destruct sx; reflexivity); try (destruct sy; reflexivity);
    try (destruct sx, sy; reflexivity).
  unfold js_lt, SFltb. rewrite (SFcompare_aligned _ _ _ _ _ _ Hx Hy).
  unfold js_sub. cbn [SFsub].
  set (X := cond_Zopp sx (Zpos (shl_align mx ex (Z.min ex ey)).1)).
  set (Y := cond_Zopp sy (Zpos (shl_align my ey (Z.min ex ey)).1)).
  apply is_number_finite in Hx, Hy.
  assert (Hez : -1074 <= Z.min ex ey) by lia.
  destruct (binary_normalize_spec (X - Y) (Z.min ex ey)) as (_ & H0 & Hp & Hn).
  destruct (Z.compare_spec X Y) as [Heq | Hlt | Hgt].
  - rewrite H0 by lia. reflexivity.
  - destruct Hn as [Hshape Hnz]; [lia |]. specialize (Hnz Hez).
    destruct Hshape as [Hr | [-> | (p & e & ->)]]; [contradiction | reflexivity | reflexivity].
  - destruct Hp as [Hshape Hnz]; [lia |].
    destruct Hshape as [-> | [-> | (p & e & ->)]]; reflexivity.
Qed.

(** Rounding depends on the value only: trailing zero bits moved from the
    mantissa to the exponent do not change the result. *)
Lemma shr_fexp_scale (m m' : positive) (e j : Z) :
  0 <= j -> Zpos m' = Zpos m * 2 ^ j ->
  e <= fexp prec emax (Zpos (digits2_pos m) + e) ->
  shr_fexp prec emax (Zpos m') (e - j) loc_Exact = shr_fexp prec emax (Zpos m) e loc_Exact.
Proof.
  intros Hj Hm He. rewrite !shr_fexp_unfold. cbn [Zdigits2 shr_record_of_loc].
  assert (Hd : Zpos (digits2_pos m') = Zpos (digits2_pos m) + j).
  { apply digits_unique. rewrite Hm. pose proof (digits_bounds m) as [Hlo Hhi].
    replace (Zpos (digits2_pos m) + j - 1) with (Zpos (digits2_pos m) - 1 + j) by lia.
    rewrite !Z.pow_add_r by lia.
    assert (0 < 2 ^ j) by (apply Z.pow_pos_nonneg; lia). split; nia. }
  rewrite Hd. replace (Zpos (digits2_pos m) + j + (e - j)) with (Zpos (digits2_pos m) + e) by lia.
  set (F := fexp prec emax (Zpos (digits2_pos m) + e)) in *.
  destruct (0 <? F - (e - j)) eqn:Hn'.
  - apply Z.ltb_lt in Hn'.
    replace (Z.to_nat (F - (e - j))) with (Z.to_nat (F - e) + Z.to_nat j)%nat by lia.
    rewrite Nat.iter_add, Hm.
    replace (2 ^ j) with (2 ^ Z.of_nat (Z.to_nat j)) by (rewrite Z2Nat.id; lia).
    rewrite shr_iter_exact.
    destruct (0 <? F - e) eqn:Hn; [reflexivity |].
    apply Z.ltb_ge in Hn. replace (Z.to_nat (F - e)) with 0%nat by lia.
    cbn [Nat.iter nat_rect]. f_equal. lia.
  - apply Z.ltb_ge in Hn'. assert (j = 0) by lia. subst j.
    replace (0 <? F - e) with false by (symmetry; apply Z.ltb_ge; lia).
    rewrite Z.sub_0_r. f_equal. f_equal. rewrite Hm. change (2 ^ 0) with 1. lia.
Qed.

Lemma binary_round_scale (sx : bool) (m m' : positive) (e k : Z) :
  0 <= k -> Zpos m' = Zpos m * 2 ^ k ->
  binary_round prec emax sx m' (e - k) = binary_round prec emax sx m e.
Proof.
  intros Hk Hm. unfold binary_round.
  assert (Hd : Zpos (digits2_pos m') = Zpos (digits2_pos m) + k).
  { apply digits_unique. rewrite Hm. pose proof (digits_bounds m) as [Hlo Hhi].
    replace (Zpos (digits2_pos m) + k - 1) with (Zpos (digits2_pos m) - 1 + k) by lia.
    rewrite !Z.pow_add_r by lia.
    assert (0 < 2 ^ k) by (apply Z.pow_pos_nonneg; lia). split; nia. }
  rewrite Hd. replace (Zpos (digits2_pos m) + k + (e - k)) with (Zpos (digits2_pos m) + e) by lia.
  set (F := fexp prec emax (Zpos (digits2_pos m) + e)).
  pose proof (shl_align_spec m e F) as (Hv & Hexp & Hsum).
  pose proof (shl_align_spec m' (e - k) F) as (Hv' & Hexp' & _).
  destruct (shl_align m e F) as [mz ez], (shl_align m' (e - k) F) as [mz' ez'].
  cbn [fst snd] in *.
  rewrite !binary_round_aux_finish.
  replace ez' with (ez - (ez - ez')) by lia.
  rewrite (shr_fexp_scale mz mz' ez (ez - ez')); [reflexivity | lia | |].
  - rewrite Hv', Hv, Hm, <- !Z.mul_assoc, <- !Z.pow_add_r by lia. do 2 f_equal. lia.
  - rewrite Hsum, Hexp. fold F. lia.
Qed.

Lemma binary_normalize_scale (z e j : Z) :
  0 <= j ->
  binary_normalize prec emax (z * 2 ^ j) (e - j) false = binary_normalize prec emax z e false.
Proof.
  intros Hj. assert (Hp : 0 < 2 ^ j) by (apply Z.pow_pos_nonneg; lia).
  destruct z as [| p | p].
  - reflexivity.
  - destruct (Zpos p * 2 ^ j) as [| q | q] eqn:E; try lia.
    cbn [binary_normalize]. now apply binary_round_scale.
  - destruct (Zneg p * 2 ^ j) as [| q | q] eqn:E; try lia.
    cbn [binary_normalize]. apply binary_round_scale; [assumption | lia].
Qed.

Lemma binary_round_aux_canonical (sx : bool) (m : positive) (e : Z) :
  bounded prec emax m e = true ->
  binary_round_aux prec emax sx (Zpos m) e loc_Exact = S754_finite sx m e.
Proof.
  unfold bounded, canonical_mantissa. intros H. apply andb_prop in H.
  destruct H as [Hc Hle]. apply Z.eqb_eq in Hc.
  rewrite binary_round_aux_finish, shr_fexp_unfold. cbn [Zdigits2].
  rewrite Hc, Z.sub_diag. cbn [Z.ltb Z.compare fst snd shr_record_of_loc shr_m
                               loc_of_shr_record round_nearest_even].
  unfold finish. rewrite shr_fexp_unfold. cbn [Zdigits2].
  rewrite Hc, Z.sub_diag. cbn [Z.ltb Z.compare shr_record_of_loc shr_m].
  now rewrite Hle.
Qed.

(** An integer below 2^53 in magnitude is represented exactly. *)
Lemma number_of_Z_finite (z : Z) :
  z <> 0 -> Z.abs z < 2 ^ 53 ->
  exists m e, number_of_Z z = S754_finite (z <? 0) m e
              /\ e <= 0 /\ Zpos m = Z.abs z * 2 ^ (- e)
              /\ is_number (number_of_Z z).
Proof.
  intros Hz Hlt.
  assert (Hgen : forall (s : bool) (p : positive), Zpos p < 2 ^ 53 ->
            exists m e, binary_round prec emax s p 0 = S754_finite s m e
                        /\ e <= 0 /\ Zpos m = Zpos p * 2 ^ (- e)).
  { intros s p Hp. unfold binary_round.
    pose proof (digits_bounds p) as [Hlo Hhi].
    assert (Hd : Zpos (digits2_pos p) <= 53).
    { destruct (Z_le_gt_dec (Zpos (digits2_pos p)) 53) as [H | H]; [assumption |].
      assert (2 ^ 53 <= 2 ^ (Zpos (digits2_pos p) - 1)) by (apply Z.pow_le_mono_r; lia).
      lia. }
    pose proof (shl_align_spec p 0 (fexp prec emax (Zpos (digits2_pos p) + 0)))
      as (Hv & Hexp & Hsum).
    destruct (shl_align p 0 (fexp prec emax (Zpos (digits2_pos p) + 0))) as [mz ez].
    cbn [fst snd] in *.
    assert (Hez : ez = Zpos (digits2_pos p) - 53) by (rewrite Hexp; unfold_fexp; lia).
    exists mz, ez. split; [| split; [lia | rewrite Hv; f_equal; f_equal; lia]].
    apply binary_round_aux_canonical. unfold bounded, canonical_mantissa.
    apply andb_true_intro. split.
    - apply Z.eqb_eq. rewrite Hsum. unfold_fexp. lia.
    - apply Z.leb_le. unfold_fexp. lia. }
  unfold number_of_Z.
  destruct z as [| p | p]; [contradiction | |]; cbn [binary_normalize].
  - destruct (Hgen false p Hlt) as (m & e & H1 & H2 & H3).
    exists m, e. repeat split; try assumption. apply binary_round_spec.
  - destruct (Hgen true p Hlt) as (m & e & H1 & H2 & H3).
    exists m, e. repeat split; try assumption. apply binary_round_spec.
Qed.

Lemma number_of_Z_0 : number_of_Z 0 = zero.
Proof. reflexivity. Qed.

Lemma cond_Zopp_abs (z : Z) : cond_Zopp (z <? 0) (Z.abs z) = z.
Proof. destruct (Z.ltb_spec z 0); cbn [cond_Zopp]; lia. Qed.

Lemma cond_Zopp_mul (s : bool) (a b : Z) : cond_Zopp s (a * b) = cond_Zopp s a * b.
Proof. destruct s; cbn [cond_Zopp]; lia. Qed.

(** Addition is correctly rounded: on integers that are represented exactly
    it yields the number nearest to the exact sum. *)
Lemma js_add_number_of_Z (a b : Z) :
  Z.abs a < 2 ^ 53 -> Z.abs b < 2 ^ 53 ->
  js_add (number_of_Z a) (number_of_Z b) = number_of_Z (a + b).
Proof.
  intros Ha Hb.
  destruct (Z.eq_dec a 0) as [-> | Hna].
  { rewrite number_of_Z_0, Z.add_0_l.
    destruct (Z.eq_dec b 0) as [-> | Hnb]; [reflexivity |].
    destruct (number_of_Z_finite b Hnb Hb) as (m & e & -> & _). reflexivity. }
  destruct (Z.eq_dec b 0) as [-> | Hnb].
  { rewrite number_of_Z_0, Z.add_0_r.
    destruct (number_of_Z_finite a Hna Ha) as (m & e & -> & _). reflexivity. }
  destruct (number_of_Z_finite a Hna Ha) as (ma & ea & -> & Hea & Hma & _).
  destruct (number_of_Z_finite b Hnb Hb) as (mb & eb & -> & Heb & Hmb & _).
  unfold js_add. cbn [SFadd].
  pose proof (shl_align_spec ma ea (Z.min ea eb)) as (Hva & Hxa & _).
  pose proof (shl_align_spec mb eb (Z.min ea eb)) as (Hvb & Hxb & _).
  rewrite Hva, Hvb, Hxa, Hxb, Hma, Hmb.
  replace (Z.min ea (Z.min ea eb)) with (Z.min ea eb) by lia.
  replace (Z.min eb (Z.min ea eb)) with (Z.min ea eb) by lia.
  rewrite <- !Z.mul_assoc, <- !Z.pow_add_r by lia.
  replace (- ea + (ea - Z.min ea eb)) with (- Z.min ea eb) by lia.
  replace (- eb + (eb - Z.min ea eb)) with (- Z.min ea eb) by lia.
  rewrite !cond_Zopp_mul, !cond_Zopp_abs, <- Z.mul_add_distr_r.
  replace (Z.min ea eb) with (0 - - Z.min ea eb) at 2 by lia.
  apply binary_normalize_scale. lia.
Qed.

Lemma js_sub_add_opp (x y : number) : js_sub x y = js_add x (SFopp y).
Proof.
  destruct x as [sx | sx | | sx mx ex], y as [sy | sy | | sy my ey];
    try reflexivity; destruct sx, sy; reflexivity.
Qed.

Lemma binary_round_opp (sx : bool) (m : positive) (e : Z) :
  binary_round prec emax (negb sx) m e = SFopp (binary_round prec emax sx m e).
Proof.
  unfold binary_round.
  destruct (shl_align m e (fexp prec emax (Zpos (digits2_pos m) + e))) as [mz ez].
  unfold binary_round_aux.
  destruct (shr_fexp prec emax (Zpos mz) ez loc_Exact) as [mrs e'].
  destruct (shr_fexp prec emax (round_nearest_even (shr_m mrs) (loc_of_shr_record mrs)) e'
              loc_Exact) as [mrs' e''].
  destruct (shr_m mrs'); try reflexivity. destruct (e'' <=? emax - prec); reflexivity.
Qed.

Lemma number_of_Z_opp (z : Z) : z <> 0 -> number_of_Z (- z) = SFopp (number_of_Z z).
Proof.
  intros Hz. destruct z as [| p | p]; [contradiction | |].
  - change (binary_round prec emax (negb false) p 0
            = SFopp (binary_round prec emax false p 0)).
    apply binary_round_opp.
  - change (binary_round prec emax false p 0
            = SFopp (binary_round prec emax (negb false) p 0)).
    rewrite binary_round_opp.
    destruct (binary_round prec emax false p 0) as [[] | [] | | [] ? ?]; reflexivity.
Qed.

Lemma js_sub_number_of_Z (a b : Z) :
  Z.abs a < 2 ^ 53 -> Z.abs b < 2 ^ 53 ->
  js_sub (number_of_Z a) (number_of_Z b) = number_of_Z (a - b).
Proof.
  intros Ha Hb. destruct (Z.eq_dec b 0) as [-> | Hnb].
  - rewrite Z.sub_0_r, number_of_Z_0.
    destruct (Z.eq_dec a 0) as [-> | Hna]; [reflexivity |].
    destruct (number_of_Z_finite a Hna Ha) as (m & e & -> & _). reflexivity.
  - rewrite js_sub_add_opp, <- number_of_Z_opp by assumption.
    rewrite js_add_number_of_Z by lia. f_equal.
Qed.

(** Integers that are represented exactly compare as integers. *)
Lemma SFcompare_number_of_Z (a b : Z) :
  Z.abs a < 2 ^ 53 -> Z.abs b < 2 ^ 53 ->
  SFcompare (number_of_Z a) (number_of_Z b) = Some (a ?= b).
Proof.
  intros Ha Hb.
  destruct (Z.eq_dec a 0) as [-> | Hna].
  { rewrite number_of_Z_0.
    destruct (Z.eq_dec b 0) as [-> | Hnb]; [reflexivity |].
    destruct (number_of_Z_finite b Hnb Hb) as (m & e & -> & _).
    destruct b; try contradiction; reflexivity. }
  destruct (Z.eq_dec b 0) as [-> | Hnb].
  { rewrite number_of_Z_0.
    destruct (number_of_Z_finite a Hna Ha) as (m & e & -> & _).
    destruct a; try contradiction; reflexivity. }
  destruct (number_of_Z_finite a Hna Ha) as (ma & ea & Hra & Hea & Hma & Hia).
  destruct (number_of_Z_finite b Hnb Hb) as (mb & eb & Hrb & Heb & Hmb & Hib).
  rewrite Hra, Hrb in *. rewrite (SFcompare_aligned _ _ _ _ _ _ Hia Hib). f_equal.
  pose proof (shl_align_spec ma ea (Z.min ea eb)) as (Hva & Hxa & _).
  pose proof (shl_align_spec mb eb (Z.min ea eb)) as (Hvb & Hxb & _).
  rewrite Hva, Hvb, Hxa, Hxb, Hma, Hmb.
  replace (Z.min ea (Z.min ea eb)) with (Z.min ea eb) by lia.
  replace (Z.min eb (Z.min ea eb)) with (Z.min ea eb) by lia.
  rewrite <- !Z.mul_assoc, <- !Z.pow_add_r by lia.
  replace (- ea + (ea - Z.min ea eb)) with (- Z.min ea eb) by lia.
  replace (- eb + (eb - Z.min ea eb)) with (- Z.min ea eb) by lia.
  rewrite !cond_Zopp_mul, !cond_Zopp_abs.
  assert (Hp : 0 < 2 ^ (- Z.min ea eb)) by (apply Z.pow_pos_nonneg; lia).
  symmetry. apply Zmult_compare_compat_r. lia.
Qed.

Lemma SFcompare_antisym (x y : number) :
  SFcompare y x = option_map CompOpp (SFcompare x y).
Proof.
  destruct x as [sx | sx | | sx mx ex], y as [sy | sy | | sy my ey];
    try reflexivity; try (destruct sx; reflexivity); try (destruct sy; reflexivity);
    try (destruct sx, sy; reflexivity).
  cbn [SFcompare option_map]. f_equal.
  rewrite (Z.compare_antisym ex ey).
  assert (H : Pos.compare_cont Eq my mx = CompOpp (Pos.compare_cont Eq mx my)).
  { rewrite Pos.compare_cont_antisym. reflexivity. }
  rewrite H.
  destruct sx, sy; try reflexivity;
    destruct (ex ?= ey); cbn [CompOpp]; try reflexivity;
    destruct (Pos.compare_cont Eq mx my); reflexivity.
Qed.


(** Rounding a non-negative mantissa never yields NaN. *)
Lemma finish_not_NaN (sx : bool) (m e : Z) : 0 <= m -> isNaN (finish sx m e) = false.
Proof.
  intros Hm. unfold finish. rewrite shr_fexp_unfold.
  destruct (0 <? fexp prec emax (Zdigits2 m + e) - e).
  - assert (H : 0 <= shr_m (Nat.iter (Z.to_nat (fexp prec emax (Zdigits2 m + e) - e)) shr_1
                              (shr_record_of_loc m loc_Exact))).
    { rewrite shr_iter_m by (rewrite shr_m_of_loc; exact Hm).
      rewrite shr_m_of_loc. apply Z.div_pos; [exact Hm | apply Z.pow_pos_nonneg; lia]. }
    destruct (shr_m _); [reflexivity | | lia].
    destruct (_ <=? _); reflexivity.
  - cbn [shr_record_of_loc shr_m]. destruct m; [reflexivity | | lia].
    destruct (_ <=? _); reflexivity.
Qed.

Lemma binary_round_aux_not_NaN (sx : bool) (mx ex : Z) (lx : location) :
  0 <= mx -> isNaN (binary_round_aux prec emax sx mx ex lx) = false.
Proof.
  intros Hm. rewrite binary_round_aux_finish. apply finish_not_NaN.
  assert (H : 0 <= shr_m (shr_fexp prec emax mx ex lx).1).
  { rewrite shr_fexp_unfold. destruct (0 <? _); cbn [fst].
    - rewrite shr_iter_m by (rewrite shr_m_of_loc; exact Hm).
      rewrite shr_m_of_loc. apply Z.div_pos; [exact Hm | apply Z.pow_pos_nonneg; lia].
    - now rewrite shr_m_of_loc. }
  destruct (round_nearest_even_cases (shr_m (shr_fexp prec emax mx ex lx).1)
              (loc_of_shr_record (shr_fexp prec emax mx ex lx).1)) as [-> | ->]; lia.
Qed.

(** A quotient by a finite number other than zero is NaN only if the
    dividend is. *)
Lemma js_div_not_NaN (x : number) (sy : bool) (my : positive) (ey : Z) :
  isNaN x = false -> isNaN (js_div x (S754_finite sy my ey)) = false.
Proof.
  intros Hx. destruct x as [sx | sx | | sx mx ex]; try reflexivity; [discriminate |].
  unfold js_div. cbn [SFdiv]. unfold SFdiv_core_binary.
  set (s := ex - ey - Z.min _ _).
  set (m' := match s with Z0 => Zpos mx | Zpos _ => Z.shiftl (Zpos mx) s | Zneg _ => 0 end).
  assert (Hm' : 0 <= m').
  { unfold m'. destruct s; try lia. apply Z.shiftl_nonneg. lia. }
  pose proof (Z.div_pos m' (Zpos my) Hm' ltac:(lia)) as Hq.
  unfold Z.div in Hq. destruct (Z.div_eucl m' (Zpos my)) as [q r].
  now apply binary_round_aux_not_NaN.
Qed.

(** A sum is NaN only if a term is NaN or both are infinite. *)
Lemma js_add_not_NaN (x y : number) :
  isNaN x = false -> isNaN y = false ->
  (forall s, y <> S754_infinity s) ->
  isNaN (js_add x y) = false.
Proof.
  intros Hx Hy Hinf.
  destruct x as [sx | sx | | sx mx ex], y as [sy | sy | | sy my ey];
    try discriminate; try reflexivity; try (destruct sx, sy; reflexivity);
    try (now destruct (Hinf sy)).
  apply binary_normalize_not_NaN.
Qed.

(** Negative zero arises from a sum only when both terms are negative
    zero. *)
Lemma js_add_not_neg_zero (x y : number) :
  is_number x -> is_number y -> y <> S754_zero true ->
  js_add x y <> S754_zero true.
Proof.
  intros Hx Hy Hny.
  destruct x as [sx | sx | | sx mx ex], y as [sy | sy | | sy my ey];
    try discriminate; try (destruct sx, sy; discriminate || assumption).
  apply is_number_finite in Hx, Hy.
  unfold js_add. cbn [SFadd].
  set (z := _ + _).
  destruct (binary_normalize_spec z (Z.min ex ey)) as (_ & H0 & Hp & Hn).
  destruct (Z.lt_trichotomy z 0) as [H | [H | H]].
  - apply Hn; [exact H | lia].
  - rewrite (H0 H). discriminate.
  - destruct (proj1 (Hp H)) as [-> | [-> | (p & e & ->)]]; discriminate.
Qed.

(** Adding negative zero to a number other than negative zero is adding
    zero. *)
Lemma js_add_neg_zero (x : number) :
  x <> S754_zero true -> js_add x (S754_zero true) = js_add x zero.
Proof.
  intros Hx. destruct x as [[] | [] | | sx mx ex]; try reflexivity. contradiction.
Qed.

Lemma SFcompare_Eq_finite (s s' : bool) (m m' : positive) (e e' : Z) :
  SFcompare (S754_finite s m e) (S754_finite s' m' e') = Some Eq ->
  S754_finite s m e = S754_finite s' m' e'.
Proof.
  cbn [SFcompare]. intros [= H].
  assert (Hc : Pos.compare_cont Eq m m' = Eq -> m = m').
  { intros Hcmp. now apply Pos.compare_eq. }
  destruct s, s'; try discriminate;
    destruct (Z.compare_spec e e') as [-> | Hlt | Hgt]; try discriminate.
  - destruct (Pos.compare_cont Eq m m') eqn:E; try discriminate. now rewrite Hc.
  - destruct (Pos.compare_cont Eq m m') eqn:E; try discriminate. now rewrite Hc.
Qed.

Lemma js_le_of_not_lt (x y : number) :
  isNaN x = false -> isNaN y = false -> js_lt y x = false -> js_le x y = true.
Proof.
  unfold js_lt, js_le, SFltb, SFleb. intros Hx Hy. rewrite (SFcompare_antisym x y).
  destruct (SFcompare x y) as [[] |] eqn:E; try reflexivity; try discriminate.
  destruct x, y; try discriminate; cbn [SFcompare] in E; discriminate.
Qed.

Lemma js_lt_asym (x y : number) : js_lt x y = true -> js_lt y x = false.
Proof.
  unfold js_lt, SFltb. rewrite (SFcompare_antisym x y).
  destruct (SFcompare x y) as [[] |]; try discriminate; reflexivity.
Qed.

(** [Math.max(-1, Math.min(1, x))] is the clamp of [x] to [-1, 1]. *)
Lemma Math_max_min_clamp (x : number) :
  Math_max minus_one (Math_min one x) = clamp x minus_one one.
Proof.
  destruct x as [[] | [] | | s m e]; try reflexivity.
  unfold clamp, Math_max, Math_min, js_lt, SFltb.
  change one with (S754_finite false 4503599627370496 (-52)).
  change minus_one with (S754_finite true 4503599627370496 (-52)).
  cbn [isNaN orb].
  rewrite (SFcompare_antisym (S754_finite s m e) (S754_finite false 4503599627370496 (-52))).
  destruct (SFcompare (S754_finite s m e) (S754_finite false 4503599627370496 (-52)))
    as [c1 |] eqn:E1; [| discriminate E1].
  destruct s.
  - (* a negative number is below 1 *)
    assert (c1 = Lt) by (cbn [SFcompare] in E1; congruence). subst c1.
    cbn [option_map CompOpp isNaN orb].
    rewrite (SFcompare_antisym (S754_finite true m e) (S754_finite true 4503599627370496 (-52))).
    destruct (SFcompare (S754_finite true m e) (S754_finite true 4503599627370496 (-52)))
      as [[] |] eqn:E2; cbn [option_map CompOpp]; try reflexivity.
    + apply SFcompare_Eq_finite in E2. now rewrite E2.
    + discriminate E2.
  - (* a positive number is above -1 *)
    assert (E2 : SFcompare (S754_finite false m e) (S754_finite true 4503599627370496 (-52))
                 = Some Gt) by reflexivity.
    destruct c1; cbn [option_map CompOpp isNaN orb].
    + apply SFcompare_Eq_finite in E1. rewrite E1. reflexivity.
    + rewrite (SFcompare_antisym (S754_finite false m e)
                 (S754_finite true 4503599627370496 (-52))), E2. reflexivity.
    + reflexivity.
Qed.

(** A clamped number that is not NaN lies between the bounds. *)
Lemma clamp_range (x : number) :
  isNaN x = false ->
  js_le minus_one (clamp x minus_one one) = true
  /\ js_le (clamp x minus_one one) one = true.
Proof.
  intros Hx. unfold clamp.
  destruct (js_lt x minus_one) eqn:E1; [split; reflexivity |].
  destruct (js_lt one x) eqn:E2; [split; reflexivity |].
  split; apply js_le_of_not_lt; trivial.
Qed.

(** Shifting a zero mantissa leaves it zero and clears the round bit. *)
Lemma shr_iter_zero (n : nat) (r : shr_record) :
  shr_m r = 0 -> (0 < n)%nat ->
  shr_m (Nat.iter n shr_1 r) = 0 /\ shr_r (Nat.iter n shr_1 r) = false.
Proof.
  intros Hm Hn. destruct n as [| n]; [lia |]. clear Hn.
  induction n as [| n IH].
  - cbn. destruct r as [m b s]. cbn in Hm. subst m. now split.
  - rewrite Nat.iter_succ. destruct IH as [IH1 IH2].
    destruct (Nat.iter (S n) shr_1 r) as [m b s]. cbn in IH1, IH2. subst m b. now split.
Qed.

(** Rounding a zero mantissa at an exponent of at most -1074. *)
Lemma binary_round_aux_zero (sx : bool) (e : Z) (l : location) :
  e <= -1074 -> is_number (binary_round_aux prec emax sx 0 e l).
Proof.
  intros He. rewrite binary_round_aux_finish, shr_fexp_unfold. cbn [Zdigits2].
  destruct (0 <? fexp prec emax (0 + e) - e) eqn:Hn; cbn [fst snd].
  - apply Z.ltb_lt in Hn.
    destruct (shr_iter_zero (Z.to_nat (fexp prec emax (0 + e) - e))
                (shr_record_of_loc 0 l)) as [H0 Hr]; [apply shr_m_of_loc | lia |].
    rewrite H0.
    assert (Hround : round_nearest_even 0
              (loc_of_shr_record
                 (Nat.iter (Z.to_nat (fexp prec emax (0 + e) - e)) shr_1
                    (shr_record_of_loc 0 l))) = 0).
    { destruct (Nat.iter _ shr_1 _) as [m b s]. cbn in Hr. subst b. now destruct s. }
    rewrite Hround. apply finish_spec; [unfold_fexp; lia | now left].
  - apply Z.ltb_ge in Hn. assert (e = -1074) by (unfold_fexp; lia). subst e.
    rewrite shr_m_of_loc, loc_of_shr_record_of_loc.
    destruct (round_nearest_even_cases 0 l) as [-> | ->].
    + apply finish_spec; [lia | now left].
    + apply finish_spec; [lia |]. right. exists 1. cbn. repeat split; lia.
Qed.

(** The quotient that division hands to rounding has enough bits for its
    exponent, so that the rounded quotient is a valid number. *)
Lemma SFdiv_core_round_valid (sx : bool) (m1 m2 : positive) (e1 e2 : Z) :
  is_number
    (binary_round_aux prec emax sx
       (SFdiv_core_binary prec emax (Zpos m1) e1 (Zpos m2) e2).1.1
       (SFdiv_core_binary prec emax (Zpos m1) e1 (Zpos m2) e2).1.2
       (SFdiv_core_binary prec emax (Zpos m1) e1 (Zpos m2) e2).2).
Proof.
  unfold SFdiv_core_binary. cbn [Zdigits2].
  pose proof (digits_bounds m1) as [Hlo1 Hhi1].
  pose proof (digits_bounds m2) as [Hlo2 Hhi2].
  set (d1 := Zpos (digits2_pos m1)) in *. set (d2 := Zpos (digits2_pos m2)) in *.
  set (X := d1 + e1 - (d2 + e2)).
  set (e' := Z.min (fexp prec emax X) (e1 - e2)).
  set (s := e1 - e2 - e').
  assert (Hs : 0 <= s) by (unfold s, e'; lia).
  set (m' := match s with
             | 0 => Zpos m1
             | Zpos _ => Z.shiftl (Zpos m1) s
             | Zneg _ => 0
             end).
  assert (Hm' : m' = Zpos m1 * 2 ^ s).
  { unfold m'. destruct s as [| p | p] eqn:Es; [simpl; lia | | lia].
    apply Z.shiftl_mul_pow2. lia. }
  pose proof (Z_div_mod m' (Zpos m2) ltac:(lia)) as Hdiv.
  destruct (Z.div_eucl m' (Zpos m2)) as [q r]. cbn [fst snd].
  destruct Hdiv as [Hdiv Hr].
  assert (Hps : 0 < 2 ^ s) by (apply Z.pow_pos_nonneg; lia).
  assert (Hq : 0 <= q) by nia.
  (* the dividend has [d1 + s] bits *)
  assert (Hm'lo : 2 ^ (d1 - 1 + s) <= m').
  { rewrite Hm', Z.pow_add_r by (unfold d1; lia). nia. }
  destruct q as [| qp | qp]; [| | lia].
  - (* the quotient is zero: the exponent is the smallest one, or below *)
    apply binary_round_aux_zero.
    assert (Hlt : 2 ^ (d1 - 1 + s) < 2 ^ d2) by lia.
    apply Z.pow_lt_mono_r_iff in Hlt; [| lia | unfold d2; lia].
    unfold s, e', X in *. unfold_fexp. lia.
  - apply binary_round_aux_spec.
    pose proof (digits_bounds qp) as [_ Hqhi].
    set (dq := Zpos (digits2_pos qp)) in *.
    assert (Hdq : X - e' <= dq).
    { destruct (Z_le_gt_dec (X - e') 1) as [Hle | Hgt]; [unfold dq; lia |].
      assert (Hpow : 2 ^ (d1 - 1 + s) = 2 ^ (X - e' - 1) * 2 ^ d2).
      { rewrite <- Z.pow_add_r by (unfold d2; lia). f_equal. unfold X, s. lia. }
      assert (Hpd : 0 < 2 ^ (X - e' - 1)) by (apply Z.pow_pos_nonneg; lia).
      assert (Hqlo : 2 ^ (X - e' - 1) <= Zpos qp) by nia.
      assert (Hlt : 2 ^ (X - e' - 1) < 2 ^ dq) by lia.
      apply Z.pow_lt_mono_r_iff in Hlt; [lia | lia | unfold dq; lia]. }
    unfold e' in *. unfold_fexp. lia.
Qed.

(** Division keeps numbers valid. *)
Lemma js_div_is_number (x y : number) :
  is_number x -> is_number y -> is_number (js_div x y).
Proof.
  intros Hx Hy. destruct x as [sx | sx | | sx mx ex], y as [sy | sy | | sy my ey];
    try reflexivity.
  unfold js_div. cbn [SFdiv].
  pose proof (SFdiv_core_round_valid (xorb sx sy) mx my ex ey) as H.
  destruct (SFdiv_core_binary prec emax (Zpos mx) ex (Zpos my) ey) as [[q e'] l].
  exact H.
Qed.

(** *** The numbers read from text are valid *)

Lemma number_of_decimal_is_number (neg : bool) (m : N) (e : Z) :
  is_number (number_of_decimal neg m e).
Proof.
  unfold number_of_decimal. destruct m as [| p]; [reflexivity |].
  destruct (0 <=? e) eqn:He.
  - apply binary_normalize_spec.
  - apply Z.leb_gt in He.
    assert (Hpos : 0 < 10 ^ (- e)) by (apply Z.pow_pos_nonneg; lia).
    destruct (10 ^ (- e)) as [| d | d] eqn:Ed; try lia.
    pose proof (SFdiv_core_round_valid neg p d 0 0) as H.
    destruct (SFdiv_core_binary prec emax (Zpos p) 0 (Zpos d) 0) as [[q e'] l].
    exact H.
Qed.

Ltac break_match :=
  match goal with
  | |- context [match ?x with _ => _ end] => destruct x eqn:?
  end.

Lemma scan_unsigned_is_number (neg : bool) (s r : string) (v : number) :
  scan_unsigned neg s = Some (v, r) -> is_number v.
Proof.
  unfold scan_unsigned.
  repeat break_match; intros [= <- <-]; try reflexivity; apply number_of_decimal_is_number.
Qed.

Lemma scan_StrDecimalLiteral_is_number (s r : string) (v : number) :
  scan_StrDecimalLiteral s = Some (v, r) -> is_number v.
Proof.
  unfold scan_StrDecimalLiteral.
  repeat break_match; apply scan_unsigned_is_number.
Qed.

Lemma parseFloat_is_number (s : string) : is_number (parseFloat s).
Proof.
  unfold parseFloat.
  destruct (scan_StrDecimalLiteral (trim_start false s)) as [[v r] |] eqn:E; [| reflexivity].
  now apply scan_StrDecimalLiteral_is_number in E.
Qed.

Lemma StringToNumber_is_number (s : string) : is_number (StringToNumber s).
Proof.
  unfold StringToNumber. destruct (trim s) as [| c t]; [reflexivity |].
  destruct (scan_NonDecimalIntegerLiteral (String c t)) as [v |] eqn:E.
  - unfold scan_NonDecimalIntegerLiteral in E.
    repeat match type of E with
           | match ?x with _ => _ end = _ => destruct x eqn:?; try discriminate E
           end.
    injection E as <-. apply binary_normalize_spec.
  - destruct (scan_StrDecimalLiteral (String c t)) as [[v [| c' r]] |] eqn:E';
      try reflexivity.
    now apply scan_StrDecimalLiteral_is_number in E'.
Qed.

(** ** The decoder's coercion step *)

Lemma Array_includes_In (l : list string) (x : string) :
  Array_includes l x = true <-> In x l.
Proof.
  unfold Array_includes. rewrite existsb_exists. split.
  - intros (y & Hy & Heq). apply String.eqb_eq in Heq. now subst.
  - intros Hin. exists x. split; [assumption | apply String.eqb_refl].
Qed.

(** The decoder never stores NaN in a cell, and the numbers it stores are
    valid. *)
Lemma transform_not_NaN (v : string) (header : field) (n : number) :
  transform v header = VNumber n -> isNaN n = false /\ is_number n.
Proof.
  unfold transform. destruct header as [name | i]; [| discriminate].
  destruct (Array_includes numericFields name); [| discriminate].
  destruct (isNaN (parseFloat v)) eqn:E; [discriminate |].
  intros [= <-]. split; [exact E | apply parseFloat_is_number].
Qed.

(** [parseFloat] reads a prefix and skips leading white space only, while
    [Number] wants the whole text to be a literal and reads blank text
    as 0. *)
Example parseFloat_Number :
  parseFloat "12 pcs" = number_of_Z 12 /\ StringToNumber "12 pcs" = NaN
  /\ parseFloat " 7.50" = StringToNumber "7.5 "
  /\ parseFloat "" = NaN /\ StringToNumber "" = zero
  /\ parseFloat "  " = NaN /\ StringToNumber "  " = zero
  /\ parseFloat "0x1F" = zero /\ StringToNumber "0x1F" = number_of_Z 31
  /\ parseFloat "-Infinity and beyond" = S754_infinity true
  /\ parseFloat "1e3" = number_of_Z 1000 /\ parseFloat ".5" = StringToNumber "5e-1"
  /\ parseFloat "-0" = neg_zero /\ parseFloat "N/A" = NaN.
Proof. vm_compute. repeat split. Qed.

(** C9. For every cell text and column name, the coercion step parses the
    cell with [parseFloat] exactly when the column is one of Quantity,
    Amount, Stock, Price, Rating, Customer_Age, Min_Alert: it returns the
    parsed number when that is not NaN and the text unchanged when it is;
    the cells of every other column are returned unchanged. The step is a
    total function, so it raises nothing. *)
Theorem transform_coercion (v name : string) :
  (In name ["Quantity"; "Amount"; "Stock"; "Price"; "Rating"; "Customer_Age"; "Min_Alert"]%string ->
     (isNaN (parseFloat v) = false /\ transform v (FieldName name) = VNumber (parseFloat v))
     \/ (isNaN (parseFloat v) = true /\ transform v (FieldName name) = VString v))
  /\ (~ In name ["Quantity"; "Amount"; "Stock"; "Price"; "Rating"; "Customer_Age"; "Min_Alert"]%string ->
        transform v (FieldName name) = VString v)
  /\ (forall n, transform v (FieldName name) = VNumber n ->
        In name numericFields /\ n = parseFloat v /\ isNaN n = false).
Proof.
  change ["Quantity"; "Amount"; "Stock"; "Price"; "Rating"; "Customer_Age"; "Min_Alert"]%string
    with numericFields.
  unfold transform.
  destruct (Array_includes numericFields name) eqn:Hinc.
  - apply Array_includes_In in Hinc.
    destruct (isNaN (parseFloat v)) eqn:Hnan.
    + split; [intros _; right; split; reflexivity |].
      split; [intros Hnot; contradiction | intros n; discriminate].
    + split; [intros _; left; split; reflexivity |].
      split; [intros Hnot; contradiction |].
      intros n [= <-]. repeat split; assumption.
  - assert (Hnot : ~ In name numericFields).
    { intros Hin. apply Array_includes_In in Hin. congruence. }
    split; [intros Hin; contradiction |].
    split; [reflexivity | intros n; discriminate].
Qed.

(** The round trip of the specification: the cells [2] and [1000] of the
    columns Quantity and Amount are decoded to the numbers 2 and 1000, and
    the cells of the other columns stay text. *)
Example transform_round_trip :
  transform "2" (FieldName "Quantity") = VNumber (number_of_Z 2)
  /\ transform "1000" (FieldName "Amount") = VNumber (number_of_Z 1000)
  /\ transform "Kurta" (FieldName "Product") = VString "Kurta"
  /\ transform "2024-08-01" (FieldName "Date") = VString "2024-08-01"
  /\ transform "n/a" (FieldName "Amount") = VString "n/a"
  /\ transform "12 pcs" (FieldName "Quantity") = VNumber (number_of_Z 12).
Proof. vm_compute. repeat split. Qed.

Lemma transform_coercion_witness :
  transform "2" (FieldName "Quantity") = VNumber (parseFloat "2")
  /\ transform "Kurta" (FieldName "Product") = VString "Kurta".
Proof.
  split.
  - destruct (proj1 (transform_coercion "2" "Quantity")) as [[_ H] | [H _]].
    + simpl. tauto.
    + exact H.
    + vm_compute in H. discriminate H.
  - apply (proj1 (proj2 (transform_coercion "Kurta" "Product"))).
    simpl. intros H. repeat (destruct H as [H | H]; [discriminate H |]). exact H.
Defined.

(** ** The schema validators *)

(** C6. On an empty row list each of the three validators returns
    [valid = false] with the single error "No data found in the file";
    nothing else is checked or reported. *)
Theorem validators_empty :
  validateSalesData [] = mkValidationResult false ["No data found in the file"%string]
  /\ validateInventoryData [] = mkValidationResult false ["No data found in the file"%string]
  /\ validateReviewData [] = mkValidationResult false ["No data found in the file"%string].
Proof. repeat split. Qed.

(** The loop over [requiredFields] appends the messages of the missing
    names to the errors it starts from. *)
Lemma check_required_fold (firstRow : row) (requiredFields errs : list string) :
  fold_left (check_required firstRow) requiredFields errs
  = errs ++ missing_field_errors requiredFields firstRow.
Proof.
  revert errs. induction requiredFields as [| name l IH]; intros errs.
  - simpl. now rewrite app_nil_r.
  - simpl. rewrite IH. unfold check_required, missing_field_errors, push. simpl.
    destruct (has_field name firstRow); simpl.
    + reflexivity.
    + now rewrite <- app_assoc.
Qed.










(** The number errors never read as missing-field messages. *)
Lemma check_types_fold_rows (rows : list (nat * row)) (errs : list string) :
  exists more, fold_left check_types rows errs = errs ++ more
               /\ Forall (fun e => startsWith e "Row " = true) more.
Proof.
  revert errs. induction rows as [| [i r] rows IH]; intros errs.
  - exists []. split; [now rewrite app_nil_r | constructor].
  - simpl. unfold push.
    destruct (truthy (r !! "Quantity"%string) && isNaN (Number (r !! "Quantity"%string)));
      destruct (truthy (r !! "Amount"%string) && isNaN (Number (r !! "Amount"%string)));
      match goal with
      | |- context [fold_left check_types rows ?e] => destruct (IH e) as (more & -> & Hmore)
      end; rewrite <- ?app_assoc; eexists; (split; [reflexivity |]);
      simpl; repeat (constructor; [reflexivity |]); exact Hmore.
Qed.

Lemma missing_field_errors_prefix (requiredFields : list string) (firstRow : row) :
  Forall (fun e => startsWith e "Missing required field: " = true)
         (missing_field_errors requiredFields firstRow).
Proof.
  unfold missing_field_errors. apply List.Forall_forall. intros e He.
  apply in_map_iff in He. destruct He as (name & <- & _). reflexivity.
Qed.

Lemma startsWith_Row_Missing (e : string) :
  startsWith e "Row " = true -> startsWith e "Missing required field: " = true -> False.
Proof.
  destruct e as [| c e]; [discriminate |]. cbn [startsWith].
  intros H1 H2. apply andb_prop in H1, H2. destruct H1 as [H1 _], H2 as [H2 _].
  apply Ascii.eqb_eq in H1, H2. congruence.
Qed.

Lemma valid_iff_no_errors (errs : list string) :
  Nat.eqb (length errs) 0 = true <-> errs = [].
Proof. destruct errs; simpl; split; congruence. Qed.

(** C8. On a non-empty row list the required-field check of each validator
    reads the first row only: the errors start with "Missing required field:
    name" for each required name the first row lacks, in the order of the
    required-field list; the rows after the first add no such message (for
    inventory and reviews they add nothing, for sales only "Row n: ..."
    messages); and [valid] is true exactly when the error list is empty. *)
Theorem required_fields_first_row_only (firstRow : row) (rest : list row) :
  errors (validateInventoryData (firstRow :: rest))
    = missing_field_errors ["Product"; "Stock"; "Price"]%string firstRow
  /\ errors (validateReviewData (firstRow :: rest))
    = missing_field_errors ["Date"; "Rating"; "Review"; "Product"]%string firstRow
  /\ (exists more,
        errors (validateSalesData (firstRow :: rest))
          = missing_field_errors ["Date"; "Product"; "Quantity"; "Amount"]%string firstRow ++ more
        /\ Forall (fun e => startsWith e "Missing required field: " = false) more)
  /\ (valid (validateInventoryData (firstRow :: rest)) = true
        <-> errors (validateInventoryData (firstRow :: rest)) = [])
  /\ (valid (validateReviewData (firstRow :: rest)) = true
        <-> errors (validateReviewData (firstRow :: rest)) = [])
  /\ (valid (validateSalesData (firstRow :: rest)) = true
        <-> errors (validateSalesData (firstRow :: rest)) = []).
Proof.
  repeat apply conj.
  - unfold validateInventoryData. cbn [errors]. now rewrite check_required_fold.
  - unfold validateReviewData. cbn [errors]. now rewrite check_required_fold.
  - unfold validateSalesData. cbn [errors]. rewrite check_required_fold.
    destruct (check_types_fold_rows (indexed 0 (firstn 5 (firstRow :: rest)))
                (missing_field_errors ["Date"; "Product"; "Quantity"; "Amount"]%string firstRow))
      as (more & Heq & Hmore).
    exists more. split; [exact Heq |].
    eapply List.Forall_impl; [| exact Hmore]. intros e He. cbv beta in He.
    destruct (startsWith e "Missing required field: ") eqn:E; [| reflexivity].
    destruct (startsWith_Row_Missing e He E).
  - apply valid_iff_no_errors.
  - apply valid_iff_no_errors.
  - apply valid_iff_no_errors.
  - apply valid_iff_no_errors.
  - apply valid_iff_no_errors.
  - apply valid_iff_no_errors.
Qed.

Lemma has_field_is_Some (name : string) (r : row) :
  is_Some (r !! name) -> has_field name r = true.
Proof. intros H. unfold has_field. now apply bool_decide_eq_true. Qed.

(** C10. When the first row of a non-empty row list has the columns
    Product, Stock and Price, [validateInventoryData] returns [valid = true]
    with no error; when it has Date, Rating, Review and Product,
    [validateReviewData] does. Neither result depends on the cells stored
    under those columns, nor on the rows after the first. *)
Theorem validators_accept_complete_first_row (firstRow : row) (rest : list row) :
  (is_Some (firstRow !! "Product"%string) -> is_Some (firstRow !! "Stock"%string) ->
   is_Some (firstRow !! "Price"%string) ->
   validateInventoryData (firstRow :: rest) = mkValidationResult true [])
  /\ (is_Some (firstRow !! "Date"%string) -> is_Some (firstRow !! "Rating"%string) ->
      is_Some (firstRow !! "Review"%string) -> is_Some (firstRow !! "Product"%string) ->
      validateReviewData (firstRow :: rest) = mkValidationResult true []).
Proof.
  split.
  - intros H1 H2 H3. unfold validateInventoryData.
    rewrite check_required_fold. unfold missing_field_errors. simpl.
    now rewrite !has_field_is_Some.
  - intros H1 H2 H3 H4. unfold validateReviewData.
    rewrite check_required_fold. unfold missing_field_errors. simpl.
    now rewrite !has_field_is_Some.
Qed.

Lemma validators_accept_complete_first_row_witness :
  validateInventoryData
    [ {[ "Product"%string := VString "Kurta"; "Stock"%string := VString "many";
         "Price"%string := VNumber (number_of_Z 500) ]};
      {[ "Product"%string := VString "Saree" ]}; ∅ ]
  = mkValidationResult true []
  /\ validateReviewData
       [ {[ "Date"%string := VString "2024-08-01"; "Rating"%string := VString "five";
            "Review"%string := VString ""; "Product"%string := VString "Kurta" ]}; ∅ ]
     = mkValidationResult true [].
Proof.
  split.
  - apply (proj1 (validators_accept_complete_first_row _ _)); vm_compute; eauto.
  - apply (proj2 (validators_accept_complete_first_row _ _)); vm_compute; eauto.
Defined.

(** ** The aggregation engine on sample inputs *)

(** The end-to-end scenarios of the specification. *)
Example summary_scenarios :
  exists s,
    generateBusinessSummary
      [sale "A" (number_of_Z 100); sale "B" (number_of_Z 300); sale "A" (number_of_Z 50)]
      [stock_item "X" (number_of_Z 2) (Some five); stock_item "Y" (number_of_Z 10) (Some five)]
      [review 5 "Great quality"; review 1 "Terrible service"] = Return s
    /\ totalRevenue s = number_of_Z 450 /\ totalOrders s = 3%nat
    /\ averageOrderValue s = number_of_Z 150
    /\ topProducts s = [TopProduct.mk "B" (number_of_Z 300); TopProduct.mk "A" (number_of_Z 150)]
    /\ lowStockItems s = [LowStockItem.mk (Some "X"%string) (Some (number_of_Z 2))]
    /\ averageRating s = number_of_Z 3 /\ sentimentScore s = zero.
Proof. eexists. vm_compute. repeat split. Qed.

(** C1. [generateBusinessSummary] is not total: a review record that lacks
    the [Review] property makes it throw a TypeError, here on a review list
    whose second row was cut short after the rating. *)
Theorem generateBusinessSummary_throws_on_missing_Review :
  generateBusinessSummary
    [sale "Kurta" (number_of_Z 1000)]
    [stock_item "Kurta" (number_of_Z 2) None]
    [review 5 "Great quality"; short_review]
  = Throw TypeError.
Proof. reflexivity. Qed.

(** C3. A record whose [Min_Alert] is 0 is measured against the default
    threshold 5 and not against its own threshold: with a stock of 3, which
    is not below 0, it is listed by [generateBusinessSummary], while the
    demo computation, which reads [Min_Alert] as it is, does not list it. *)
Theorem lowStockItems_zero_Min_Alert :
  js_lt (number_of_Z 3) zero = false
  /\ (exists s,
        generateBusinessSummary [] [stock_item "Kurta" (number_of_Z 3) (Some zero)] [] = Return s
        /\ lowStockItems s = [LowStockItem.mk (Some "Kurta"%string) (Some (number_of_Z 3))])
  /\ demo_lowStockItems [stock_item "Kurta" (number_of_Z 3) (Some zero)] = [].
Proof. split; [reflexivity |]. split; [eexists; split; reflexivity | reflexivity]. Qed.

(** C2. A text in the Amount column is not counted as 0. The sales file
    below passes [validateSalesData], which reads the first five rows only;
    its sixth row has the Amount [n/a], which the decoder keeps as a text.
    From that row on [+] joins texts: [totalRevenue] is the text
    [5000n/a5], not the number 5005, and [averageOrderValue] is NaN. *)
Theorem totalRevenue_text_Amount :
  let data :=
    replicate 5 (sales_row "2024-08-01" "Kurta" "1" "1000")
    ++ [sales_row "2024-08-02" "Saree" "1" "n/a"; sales_row "2024-08-03" "Shirt" "1" "5"] in
  validateSalesData data = mkValidationResult true []
  /\ Rows.totalRevenue (Rows.revenue_totals data) = VString "5000n/a5"
  /\ Rows.totalOrders (Rows.revenue_totals data) = 7%nat
  /\ Rows.averageOrderValue (Rows.revenue_totals data) = NaN.
Proof. vm_compute. repeat split. Qed.

(** The product of the average by the number of orders is the total only up
    to rounding: for seven orders of 5, 4, 4, 4, 4, 4 and 4 the total is 29,
    the average is the rounded quotient 29 / 7, and the product of the
    average by the number of orders is not the total. *)
Lemma averageOrderValue_times_totalOrders_inexact :
  exists s,
    generateBusinessSummary
      (sale "Kurta" (number_of_Z 5) :: repeat (sale "Saree" (number_of_Z 4)) 6) [] []
    = Return s
    /\ totalOrders s = 7%nat
    /\ totalRevenue s = number_of_Z 29
    /\ js_mul (averageOrderValue s) (number_of_nat (totalOrders s)) <> totalRevenue s.
Proof. eexists. split; [reflexivity |]. vm_compute. repeat split. discriminate. Qed.


(** ** Strings *)

Lemma startsWith_spec (s word : string) :
  startsWith s word = true <-> exists post, s = word +:+ post.
Proof.
  revert s. induction word as [| a word IH]; intros s; cbn [startsWith].
  - split; [intros _; now exists s | reflexivity].
  - destruct s as [| b s].
    + split; [discriminate | intros (post & H); discriminate H].
    + rewrite andb_true_iff, Ascii.eqb_eq, IH. split.
      * intros (-> & post & ->). now exists post.
      * intros (post & H). injection H as -> ->. split; [reflexivity | now exists post].
Qed.

Lemma includes_spec (text word : string) :
  includes text word = true <-> occurs_in word text.
Proof.
  unfold occurs_in. induction text as [| c text IH]; cbn [includes].
  - rewrite orb_false_r, startsWith_spec. split.
    + intros (post & ->). now exists EmptyString, post.
    + intros (pre & post & H). destruct pre; [now exists post | discriminate H].
  - rewrite orb_true_iff, startsWith_spec, IH. split.
    + intros [(post & ->) | (pre & post & ->)].
      * now exists EmptyString, post.
      * now exists (String c pre), post.
    + intros (pre & post & H). destruct pre as [| c' pre].
      * left. now exists post.
      * right. injection H as -> ->. now exists pre, post.
Qed.

(** The matches of a lexicon without repetition are counted once each. *)
Lemma lexicon_count_spec (words : list string) (text : string) :
  List.NoDup words -> Forall (fun w => toLowerCase w = w) words ->
  exists matched,
    List.NoDup matched
    /\ (forall w, In w matched <-> In w words /\ occurs_ci w text)
    /\ lexicon_count words text = length matched.
Proof.
  intros Hnd Hlow. exists (List.filter (includes (toLowerCase text)) words).
  split; [| split; [| reflexivity]].
  - apply List.NoDup_filter, Hnd.
  - intros w. rewrite filter_In, includes_spec. unfold occurs_ci.
    rewrite List.Forall_forall in Hlow. split.
    + intros [Hin Hocc]. rewrite (Hlow w Hin). tauto.
    + intros [Hin Hocc]. rewrite (Hlow w Hin) in Hocc. tauto.
Qed.

Lemma lexicon_count_le (words : list string) (text : string) :
  (lexicon_count words text <= length words)%nat.
Proof. unfold lexicon_count. apply List.filter_length_le. Qed.

(** ** The sentiment scorer *)

Lemma text_delta_bound (text : string) : -7 <= text_delta text <= 7.
Proof.
  unfold text_delta.
  pose proof (lexicon_count_le positiveWords text) as Hp.
  pose proof (lexicon_count_le negativeWords text) as Hn.
  change (length positiveWords) with 7%nat in Hp.
  change (length negativeWords) with 7%nat in Hn. lia.
Qed.

Lemma review_delta_bound (review : ReviewData.t) : -7 <= review_delta review <= 7.
Proof.
  unfold review_delta. destruct (ReviewData.Review review); [apply text_delta_bound | lia].
Qed.

Lemma totalDelta_bound (reviews : list ReviewData.t) :
  Z.abs (totalDelta reviews) <= 7 * Z.of_nat (length reviews).
Proof.
  induction reviews as [| r reviews IH]; [simpl; lia |].
  cbn [totalDelta fold_right length]. fold (totalDelta reviews).
  pose proof (review_delta_bound r). lia.
Qed.

(** One step of the loop adds the review's delta, exactly. *)
Lemma score_review_exact (review : ReviewData.t) (z : Z) :
  has_Review review -> Z.abs z < 2 ^ 53 ->
  score_review (number_of_Z z) review = Return (number_of_Z (z + review_delta review)).
Proof.
  intros Hrev Hz. unfold score_review, review_delta, has_Review in *.
  destruct (ReviewData.Review review) as [text |]; [| contradiction].
  f_equal. fold (lexicon_count positiveWords text). fold (lexicon_count negativeWords text).
  pose proof (lexicon_count_le positiveWords text) as Hp.
  pose proof (lexicon_count_le negativeWords text) as Hn.
  change (length positiveWords) with 7%nat in Hp.
  change (length negativeWords) with 7%nat in Hn.
  unfold number_of_nat.
  assert (H53 : 14 < 2 ^ 53) by reflexivity.
  rewrite js_sub_number_of_Z by lia.
  rewrite js_add_number_of_Z by lia. reflexivity.
Qed.

(** When every review has its text, the loop ends with the exact sum of the
    deltas, as long as that sum stays below 2^53. *)
Lemma forEach_review_exact (reviews : list ReviewData.t) (z : Z) :
  Forall has_Review reviews ->
  Z.abs z + 7 * Z.of_nat (length reviews) < 2 ^ 53 ->
  forEach_review reviews (number_of_Z z) = Return (number_of_Z (z + totalDelta reviews)).
Proof.
  intros Hall. revert z. induction Hall as [| r reviews Hr _ IH]; intros z Hz.
  - cbn. now rewrite Z.add_0_r.
  - cbn [forEach_review length totalDelta fold_right] in *. fold (totalDelta reviews).
    rewrite score_review_exact by (trivial; lia).
    cbn [mbind completion_bind]. pose proof (review_delta_bound r).
    rewrite IH by lia. f_equal. f_equal. lia.
Qed.

(** A review without its text makes the loop throw. *)
Lemma forEach_review_Throw (reviews : list ReviewData.t) (score : number) :
  Exists (fun review => ReviewData.Review review = None) reviews ->
  forEach_review reviews score = Throw TypeError.
Proof.
  intros Hex. revert score. induction reviews as [| r reviews IH]; intros score.
  - inversion Hex.
  - cbn [forEach_review]. unfold score_review.
    destruct (ReviewData.Review r) as [text |] eqn:E; [| reflexivity].
    cbn [mbind completion_bind]. apply IH.
    inversion Hex as [? ? H | ? ? H]; subst; [congruence | exact H].
Qed.

(** [generateBusinessSummary] throws exactly when a review lacks its text,
    and returns a summary otherwise. *)
Lemma generateBusinessSummary_Throw
    (sales : list SalesData.t) (inventory : list InventoryData.t)
    (reviews : list ReviewData.t) :
  Exists (fun review => ReviewData.Review review = None) reviews ->
  generateBusinessSummary sales inventory reviews = Throw TypeError.
Proof.
  intros Hex. unfold generateBusinessSummary.
  now rewrite (forEach_review_Throw reviews zero Hex).
Qed.

Lemma forEach_review_Return (reviews : list ReviewData.t) (score : number) :
  Forall has_Review reviews -> exists score', forEach_review reviews score = Return score'.
Proof.
  intros Hall. revert score. induction Hall as [| r reviews Hr _ IH]; intros score.
  - now exists score.
  - cbn [forEach_review]. unfold score_review, has_Review in *.
    destruct (ReviewData.Review r) as [text |]; [| contradiction].
    cbn [mbind completion_bind]. apply IH.
Qed.

Lemma positiveWords_distinct :
  List.NoDup positiveWords /\ Forall (fun w => toLowerCase w = w) positiveWords.
Proof.
  split.
  - repeat (constructor; [cbn; intuition discriminate |]). constructor.
  - repeat constructor.
Qed.

Lemma negativeWords_distinct :
  List.NoDup negativeWords /\ Forall (fun w => toLowerCase w = w) negativeWords.
Proof.
  split.
  - repeat (constructor; [cbn; intuition discriminate |]). constructor.
  - repeat constructor.
Qed.

(** The number of an array length below 2^32 is finite and not zero. *)
Lemma number_of_nat_finite (n : nat) :
  (0 < n)%nat -> Z.of_nat n < 2 ^ 53 ->
  exists m e, number_of_nat n = S754_finite false m e.
Proof.
  intros Hn Hlt. unfold number_of_nat.
  destruct (number_of_Z_finite (Z.of_nat n)) as (m & e & H & _); [lia | lia |].
  exists m, e. rewrite H. f_equal. apply Z.ltb_ge. lia.
Qed.

Lemma number_of_Z_not_NaN (z : Z) : isNaN (number_of_Z z) = false.
Proof. apply binary_normalize_not_NaN. Qed.

(** C4. For every list of fewer than 2^32 reviews that have their text, the
    call returns and [sentimentScore] is [clamp(totalDelta / reviewCount,
    -1, 1)], where [totalDelta] is the exact sum of the reviews' deltas and
    the quotient is rounded to the nearest number; a review's delta is the
    number of distinct positive words minus the number of distinct negative
    words that occur in its text when case is ignored. The score is 0 for
    the empty list and lies in [-1, 1] always. *)
Theorem sentimentScore_clamp
    (sales : list SalesData.t) (inventory : list InventoryData.t)
    (reviews : list ReviewData.t) :
  Forall has_Review reviews ->
  Z.of_nat (length reviews) < 2 ^ 32 ->
  exists s,
    generateBusinessSummary sales inventory reviews = Return s
    /\ sentimentScore s
       = match reviews with
         | [] => zero
         | _ :: _ =>
             clamp (js_div (number_of_Z (totalDelta reviews))
                           (number_of_nat (length reviews)))
                   minus_one one
         end
    /\ js_le minus_one (sentimentScore s) = true
    /\ js_le (sentimentScore s) one = true
    /\ forall text,
         exists positive negative,
           List.NoDup positive /\ List.NoDup negative
           /\ (forall w, In w positive <-> In w positiveWords /\ occurs_ci w text)
           /\ (forall w, In w negative <-> In w negativeWords /\ occurs_ci w text)
           /\ text_delta text = Z.of_nat (length positive) - Z.of_nat (length negative).
Proof.
  intros Hall Hlen.
  assert (H32 : 7 * 2 ^ 32 < 2 ^ 53) by reflexivity.
  assert (Hloop : forEach_review reviews zero = Return (number_of_Z (totalDelta reviews))).
  { change zero with (number_of_Z 0).
    rewrite forEach_review_exact by (trivial; simpl Z.abs; lia). reflexivity. }
  unfold generateBusinessSummary. rewrite Hloop. cbn [mbind completion_bind].
  eexists. split; [reflexivity |]. cbn [sentimentScore].
  assert (Hscore :
    (if (0 <? length reviews)%nat
     then Math_max minus_one
            (Math_min one (js_div (number_of_Z (totalDelta reviews))
                                  (number_of_nat (length reviews))))
     else zero)
    = match reviews with
      | [] => zero
      | _ :: _ => clamp (js_div (number_of_Z (totalDelta reviews))
                                (number_of_nat (length reviews))) minus_one one
      end).
  { destruct reviews; [reflexivity |]. cbn [length Nat.ltb Nat.leb].
    apply Math_max_min_clamp. }
  rewrite Hscore. split; [reflexivity |]. split; [| split].
  - destruct reviews as [| r reviews']; [reflexivity |].
    destruct (number_of_nat_finite (length (r :: reviews'))) as (m & e & ->);
      [cbn; lia | lia |].
    apply clamp_range, js_div_not_NaN, number_of_Z_not_NaN.
  - destruct reviews as [| r reviews']; [reflexivity |].
    destruct (number_of_nat_finite (length (r :: reviews'))) as (m & e & ->);
      [cbn; lia | lia |].
    apply clamp_range, js_div_not_NaN, number_of_Z_not_NaN.
  - intros text.
    destruct (lexicon_count_spec positiveWords text) as (P & HP1 & HP2 & HP3);
      [apply positiveWords_distinct | apply positiveWords_distinct |].
    destruct (lexicon_count_spec negativeWords text) as (N & HN1 & HN2 & HN3);
      [apply negativeWords_distinct | apply negativeWords_distinct |].
    exists P, N. unfold text_delta. rewrite HP3, HN3. tauto.
Qed.

Lemma sentimentScore_clamp_witness :
  exists s,
    generateBusinessSummary []  []
      [review 5 "Great quality"; review 1 "Terrible service"; review 4 "Good, AMAZING, love it"]
    = Return s
    /\ js_le minus_one (sentimentScore s) = true /\ js_le (sentimentScore s) one = true.
Proof.
  destruct (sentimentScore_clamp [] []
              [review 5 "Great quality"; review 1 "Terrible service";
               review 4 "Good, AMAZING, love it"])
    as (s & Hs & _ & Hlo & Hhi & _).
  - repeat constructor; discriminate.
  - vm_compute. reflexivity.
  - exists s. repeat split; assumption.
Defined.

(** ** Revenue totals *)

(** [x || 0] on a valid amount is a valid number other than NaN and
    negative zero. *)
Lemma number_or_zero_spec (x : option number) :
  (forall v, x = Some v -> is_number v) ->
  is_number (number_or x zero)
  /\ isNaN (number_or x zero) = false
  /\ number_or x zero <> S754_zero true.
Proof.
  intros Hx. unfold number_or. destruct x as [v |]; [| repeat split; discriminate].
  specialize (Hx v eq_refl).
  destruct v as [[] | [] | | s m e]; cbn; repeat split; trivial; discriminate.
Qed.

(** Adding [Amount || 0] to a running sum is adding the amount's value. *)
Lemma js_add_amount (acc : number) (sale : SalesData.t) :
  acc <> S754_zero true ->
  js_add acc (number_or (SalesData.Amount sale) zero) = js_add acc (amount_value sale).
Proof.
  intros Hacc. unfold number_or, amount_value.
  destruct (SalesData.Amount sale) as [[[] | [] | | s m e] |]; cbn; try reflexivity.
  symmetry. now apply js_add_neg_zero.
Qed.

Lemma totalRevenue_fold (sales : list SalesData.t) (acc : number) :
  Forall sale_ok sales -> is_number acc -> acc <> S754_zero true ->
  fold_left (fun sum sale => js_add sum (number_or (SalesData.Amount sale) zero)) sales acc
  = fold_left js_add (map amount_value sales) acc.
Proof.
  intros Hall. revert acc. induction Hall as [| sale sales Hsale _ IH]; intros acc Hv Hnz.
  - reflexivity.
  - cbn [fold_left map]. rewrite <- js_add_amount by exact Hnz.
    destruct (number_or_zero_spec (SalesData.Amount sale) Hsale) as (Hov & _ & Honz).
    apply IH.
    + now apply js_add_is_number.
    + now apply js_add_not_neg_zero.
Qed.

(** For every list of sales records with valid amounts (and
    reviews that have their text, so that the call returns), [totalOrders]
    is the length of the list, [totalRevenue] is the sum of the amounts
    added from the left, a missing amount or NaN counting as 0, and
    [averageOrderValue] is the quotient [totalRevenue / totalOrders],
    rounded to the nearest number, when there are orders and 0 when there
    are none. The product of the average by the number of orders is not
    claimed to be the total: the quotient is rounded. *)
Theorem revenue_totals
    (sales : list SalesData.t) (inventory : list InventoryData.t)
    (reviews : list ReviewData.t) :
  Forall sale_ok sales -> Forall has_Review reviews ->
  exists s,
    generateBusinessSummary sales inventory reviews = Return s
    /\ totalOrders s = length sales
    /\ totalRevenue s = sum_numbers (map amount_value sales)
    /\ ((0 < totalOrders s)%nat ->
        averageOrderValue s = js_div (totalRevenue s) (number_of_nat (totalOrders s)))
    /\ (totalOrders s = 0%nat -> averageOrderValue s = zero).
Proof.
  intros Hsales Hrev. unfold generateBusinessSummary.
  destruct (forEach_review_Return reviews zero Hrev) as (score & ->).
  cbn [mbind completion_bind]. eexists. split; [reflexivity |].
  cbn [totalOrders totalRevenue averageOrderValue].
  split; [reflexivity |]. split; [| split].
  - apply totalRevenue_fold; [exact Hsales | reflexivity | discriminate].
  - intros Hpos. apply Nat.ltb_lt in Hpos. now rewrite Hpos.
  - intros ->. reflexivity.
Qed.

Lemma revenue_totals_witness :
  exists s,
    generateBusinessSummary
      [sale "A" (number_of_Z 100); sale "B" (number_of_Z 300);
       SalesData.mk None (Some "A"%string) None None None None None;
       sale "A" NaN; sale "A" (number_of_Z 50)]
      [] []
    = Return s
    /\ totalOrders s = 5%nat /\ totalRevenue s = number_of_Z 450
    /\ averageOrderValue s = number_of_Z 90.
Proof.
  destruct (revenue_totals
              [sale "A" (number_of_Z 100); sale "B" (number_of_Z 300);
               SalesData.mk None (Some "A"%string) None None None None None;
               sale "A" NaN; sale "A" (number_of_Z 50)] [] [])
    as (s & Hs & Hn & Ht & Ha & _).
  - repeat constructor; intros x [= <-]; reflexivity.
  - constructor.
  - exists s. split; [exact Hs |]. split; [exact Hn |]. split; [rewrite Ht; reflexivity |].
    rewrite Ha by (rewrite Hn; cbn; lia). rewrite Ht, Hn. reflexivity.
Defined.

(** ** Sorting and dictionaries *)

Lemma sort_insert_Permutation {A : Type} (cmp : A -> A -> number) (x : A) (l : list A) :
  Permutation (sort_insert cmp x l) (x :: l).
Proof.
  induction l as [| y l IH]; cbn [sort_insert]; [reflexivity |].
  destruct (sorts_before cmp y x); [| reflexivity].
  rewrite IH. apply perm_swap.
Qed.

Lemma Array_sort_Permutation {A : Type} (cmp : A -> A -> number) (l : list A) :
  Permutation (Array_sort cmp l) l.
Proof.
  induction l as [| x l IH]; cbn [Array_sort]; [reflexivity |].
  rewrite sort_insert_Permutation. now constructor.
Qed.

(** The sort puts the elements in an order [R] that the comparator decides
    on the elements at hand. *)
Lemma sort_insert_Sorted {A : Type} (cmp : A -> A -> number) (R : A -> A -> Prop)
    (x : A) (l : list A) :
  (forall y, In y l -> if sorts_before cmp y x then R y x else R x y) ->
  Sorted R l -> Sorted R (sort_insert cmp x l).
Proof.
  intros Hdec Hs. induction Hs as [| y l Hs IH Hhd]; cbn [sort_insert].
  - repeat constructor.
  - pose proof (Hdec y (or_introl eq_refl)) as Hy.
    destruct (sorts_before cmp y x).
    + constructor.
      * apply IH. intros z Hz. apply Hdec. now right.
      * destruct l as [| z l]; cbn [sort_insert].
        -- now constructor.
        -- destruct (sorts_before cmp z x); constructor;
             [now inversion Hhd | exact Hy].
    + constructor; [now constructor | now constructor].
Qed.

Lemma Array_sort_Sorted {A : Type} (cmp : A -> A -> number) (R : A -> A -> Prop)
    (l : list A) :
  (forall x y, In x l -> In y l -> if sorts_before cmp y x then R y x else R x y) ->
  Sorted R (Array_sort cmp l).
Proof.
  intros Hdec. induction l as [| x l IH]; cbn [Array_sort]; [constructor |].
  apply sort_insert_Sorted.
  - intros y Hy. apply Hdec; [now left |].
    right. apply (Permutation_in _ (Array_sort_Permutation cmp l)), Hy.
  - apply IH. intros a b Ha Hb. apply Hdec; now right.
Qed.

Lemma Sorted_firstn {A : Type} (R : A -> A -> Prop) (n : nat) (l : list A) :
  Sorted R l -> Sorted R (firstn n l).
Proof.
  intros Hs. revert n. induction Hs as [| x l Hs IH Hhd]; intros [| n]; cbn [firstn];
    try constructor.
  - apply IH.
  - destruct Hhd as [| y l' Hxy]; destruct n; cbn [firstn]; now constructor.
Qed.

Lemma Sorted_map {A B : Type} (f : A -> B) (R : A -> A -> Prop) (R' : B -> B -> Prop)
    (l : list A) :
  (forall x y, R x y -> R' (f x) (f y)) -> Sorted R l -> Sorted R' (map f l).
Proof.
  intros Hf Hs. induction Hs as [| x l Hs IH Hhd]; cbn [map]; constructor; [exact IH |].
  destruct Hhd; cbn [map]; constructor. now apply Hf.
Qed.

Lemma insert_index_Permutation (x : string * number) (l : object) :
  Permutation (insert_index x l) (x :: l).
Proof.
  induction l as [| y l IH]; cbn [insert_index]; [reflexivity |].
  destruct (index_of y <? index_of x)%N; [| reflexivity].
  rewrite IH. apply perm_swap.
Qed.

(** [Object.entries] lists every property once. *)
Lemma Object_entries_Permutation (acc : object) : Permutation (Object_entries acc) acc.
Proof.
  unfold Object_entries.
  assert (Hsort : forall l, Permutation (fold_right insert_index [] l) l).
  { induction l as [| x l IH]; cbn [fold_right]; [reflexivity |].
    rewrite insert_index_Permutation. now constructor. }
  rewrite Hsort. clear Hsort.
  induction acc as [| x acc IH]; cbn [List.filter]; [reflexivity |].
  destruct (is_array_index x); cbn [negb app].
  - now constructor.
  - rewrite <- Permutation_middle. now constructor.
Qed.

Lemma obj_get_set (acc : object) (key key' : string) (v : number) :
  obj_get (obj_set acc key v) key'
  = if String.eqb key key' then Some v else obj_get acc key'.
Proof.
  induction acc as [| [k w] acc IH]; cbn [obj_set obj_get].
  - reflexivity.
  - destruct (String.eqb_spec k key) as [-> | Hne]; cbn [obj_get].
    + destruct (String.eqb_spec key key'); reflexivity.
    + rewrite IH. destruct (String.eqb_spec k key') as [-> | Hne'];
        destruct (String.eqb_spec key key'); congruence.
Qed.

Lemma obj_set_keys (acc : object) (key : string) (v : number) :
  map fst (obj_set acc key v)
  = if existsb (String.eqb key) (map fst acc) then map fst acc else map fst acc ++ [key].
Proof.
  induction acc as [| [k w] acc IH]; cbn [obj_set map fst existsb app].
  - reflexivity.
  - rewrite (String.eqb_sym key k).
    destruct (String.eqb_spec k key) as [-> | Hne]; cbn [map fst orb].
    + reflexivity.
    + rewrite IH. destruct (existsb (String.eqb key) (map fst acc)); reflexivity.
Qed.

Lemma existsb_eqb_In (key : string) (l : list string) :
  existsb (String.eqb key) l = true <-> In key l.
Proof.
  rewrite existsb_exists. split.
  - intros (x & Hx & Heq). apply String.eqb_eq in Heq. now subst.
  - intros H. exists key. split; [exact H | apply String.eqb_refl].
Qed.

Lemma obj_set_NoDup (acc : object) (key : string) (v : number) :
  List.NoDup (map fst acc) -> List.NoDup (map fst (obj_set acc key v)).
Proof.
  intros Hnd. rewrite obj_set_keys.
  destruct (existsb (String.eqb key) (map fst acc)) eqn:E; [exact Hnd |].
  apply NoDup_ListNoDup, NoDup_app. split; [now apply NoDup_ListNoDup |].
  split; [| apply NoDup_singleton].
  intros k Hk Hk'. apply list_elem_of_In in Hk, Hk'. destruct Hk' as [<- | []].
  apply existsb_eqb_In in Hk. congruence.
Qed.

Lemma obj_get_In (acc : object) (key : string) (v : number) :
  obj_get acc key = Some v -> In (key, v) acc.
Proof.
  induction acc as [| [k w] acc IH]; cbn [obj_get]; [discriminate |].
  destruct (String.eqb_spec k key) as [-> | Hne].
  - intros [= ->]. now left.
  - intros H. right. now apply IH.
Qed.

Lemma In_obj_get (acc : object) (key : string) (v : number) :
  List.NoDup (map fst acc) -> In (key, v) acc -> obj_get acc key = Some v.
Proof.
  induction acc as [| [k w] acc IH]; cbn [map fst obj_get]; [intros _ [] |].
  intros Hnd [Heq | Hin].
  - injection Heq as -> ->. now rewrite String.eqb_refl.
  - inversion Hnd as [| ? ? Hnotin Hnd']; subst.
    destruct (String.eqb_spec k key) as [-> | Hne].
    + exfalso. apply Hnotin. apply (in_map fst) in Hin. exact Hin.
    + now apply IH.
Qed.

Lemma obj_get_None (acc : object) (key : string) :
  obj_get acc key = None <-> ~ In key (map fst acc).
Proof.
  induction acc as [| [k w] acc IH]; cbn [obj_get map fst In]; [tauto |].
  destruct (String.eqb_spec k key) as [-> | Hne].
  - split; [discriminate | intros H; exfalso; apply H; now left].
  - rewrite IH. tauto.
Qed.

(** ** Top products *)

Lemma obj_get_add_revenue (acc : object) (sale : SalesData.t) (key : string) :
  obj_get (add_revenue acc sale) key
  = if String.eqb (product_key sale) key
    then Some (js_add (number_or (obj_get acc key) zero)
                      (number_or (SalesData.Amount sale) zero))
    else obj_get acc key.
Proof.
  unfold add_revenue. fold (product_key sale). rewrite obj_get_set.
  destruct (String.eqb_spec (product_key sale) key) as [-> | Hne]; reflexivity.
Qed.

(** Reading a key after the sales have been added. *)
Lemma obj_get_fold_add_revenue (sales : list SalesData.t) (acc : object) (key : string) :
  obj_get (fold_left add_revenue sales acc) key
  = group_revenue key sales (obj_get acc key).
Proof.
  unfold group_revenue. revert acc.
  induction sales as [| sale sales IH]; intros acc; cbn [fold_left]; [reflexivity |].
  now rewrite IH, obj_get_add_revenue.
Qed.

Lemma fold_add_revenue_NoDup (sales : list SalesData.t) (acc : object) :
  List.NoDup (map fst acc) -> List.NoDup (map fst (fold_left add_revenue sales acc)).
Proof.
  revert acc. induction sales as [| sale sales IH]; intros acc Hnd; cbn [fold_left];
    [exact Hnd |].
  apply IH. unfold add_revenue. now apply obj_set_NoDup.
Qed.

Lemma amount_finite_or_zero (sale : SalesData.t) :
  amount_finite sale ->
  is_number (number_or (SalesData.Amount sale) zero)
  /\ isNaN (number_or (SalesData.Amount sale) zero) = false
  /\ number_or (SalesData.Amount sale) zero <> S754_zero true
  /\ forall s, number_or (SalesData.Amount sale) zero <> S754_infinity s.
Proof.
  intros Hfin.
  destruct (number_or_zero_spec (SalesData.Amount sale)) as (H1 & H2 & H3).
  { intros v Hv. apply (Hfin v Hv). }
  repeat split; trivial. intros s. unfold number_or in *.
  destruct (SalesData.Amount sale) as [v |] eqn:E; [| discriminate].
  destruct (number_truthy v); [apply (Hfin v E) | discriminate].
Qed.

Lemma number_or_revenue_ok (v : number) : revenue_ok v -> number_or (Some v) zero = v.
Proof.
  intros (_ & Hnan & Hnz). unfold number_or.
  destruct v as [[] | [] | | s m e]; try reflexivity; [contradiction | discriminate].
Qed.

(** The value held under a key is the sum of the amounts of its group,
    added from the left in the order of the list. *)
Lemma group_revenue_sum (key : string) (sales : list SalesData.t) (start : option number) :
  Forall amount_finite sales ->
  (forall v, start = Some v -> revenue_ok v) ->
  match group key sales with
  | [] => group_revenue key sales start = start
  | _ :: _ =>
      exists v, group_revenue key sales start = Some v /\ revenue_ok v
                /\ v = fold_left js_add (map amount_value (group key sales))
                                 (number_or start zero)
  end.
Proof.
  intros Hall. revert start. unfold group_revenue, group.
  induction Hall as [| sale sales Hsale _ IH]; intros start Hstart;
    cbn [List.filter fold_left]; [reflexivity |].
  destruct (String.eqb (product_key sale) key) eqn:Hkey.
  - destruct (amount_finite_or_zero sale Hsale) as (Ha1 & Ha2 & Ha3 & Ha4).
    assert (Hs0 : revenue_ok (number_or start zero)).
    { destruct start as [v |]; [| repeat split; discriminate].
      rewrite number_or_revenue_ok by now apply Hstart. now apply Hstart. }
    destruct Hs0 as (Hs1 & Hs2 & Hs3).
    set (v1 := js_add (number_or start zero) (number_or (SalesData.Amount sale) zero)).
    assert (Hv1 : revenue_ok v1).
    { repeat split.
      - now apply js_add_is_number.
      - now apply js_add_not_NaN.
      - now apply js_add_not_neg_zero. }
    specialize (IH (Some v1)).
    assert (Hv1eq : v1 = js_add (number_or start zero) (amount_value sale))
      by now apply js_add_amount.
    cbn [map fold_left]. rewrite <- Hv1eq.
    destruct (List.filter (fun s => String.eqb (product_key s) key) sales) eqn:Hrest.
    + exists v1. rewrite IH by (intros ? [= <-]; exact Hv1).
      split; [reflexivity | split; [exact Hv1 | reflexivity]].
    + destruct IH as (v & Hv & Hok & Heq); [intros ? [= <-]; exact Hv1 |].
      exists v. rewrite number_or_revenue_ok in Heq by exact Hv1.
      split; [exact Hv | split; [exact Hok | exact Heq]].
  - now apply IH.
Qed.

Lemma group_nonempty_iff (key : string) (sales : list SalesData.t) :
  group key sales <> [] <-> exists sale, In sale sales /\ product_key sale = key.
Proof.
  unfold group. split.
  - intros Hne. destruct (List.filter _ sales) as [| sale l] eqn:E; [contradiction |].
    assert (Hin : In sale (List.filter (fun s => String.eqb (product_key s) key) sales))
      by (rewrite E; now left).
    apply filter_In in Hin. destruct Hin as [Hin Hk]. apply String.eqb_eq in Hk. eauto.
  - intros (sale & Hin & Hk) Hnil.
    assert (Hin' : In sale (List.filter (fun s => String.eqb (product_key s) key) sales)).
    { apply filter_In. split; [exact Hin | now apply String.eqb_eq]. }
    rewrite Hnil in Hin'. destruct Hin'.
Qed.


Lemma js_lt_le (x y : number) : js_lt x y = true -> js_le x y = true.
Proof.
  unfold js_lt, js_le, SFltb, SFleb. destruct (SFcompare x y) as [[] |]; congruence.
Qed.

Lemma ranking_entries (sales : list SalesData.t) :
  ranking sales
  = map (fun kv => TopProduct.mk (fst kv) (snd kv))
        (Array_sort compare_revenue (Object_entries (productRevenue sales))).
Proof. unfold ranking. apply map_ext. now intros [k v]. Qed.

Lemma sorted_entries_Permutation (sales : list SalesData.t) :
  Permutation (Array_sort compare_revenue (Object_entries (productRevenue sales)))
              (productRevenue sales).
Proof. now rewrite Array_sort_Permutation, Object_entries_Permutation. Qed.

Lemma productRevenue_NoDup (sales : list SalesData.t) :
  List.NoDup (map fst (productRevenue sales)).
Proof. apply fold_add_revenue_NoDup. constructor. Qed.

(** Every property of the accumulator holds the sum of its group. *)
Lemma productRevenue_In (sales : list SalesData.t) (key : string) (v : number) :
  Forall amount_finite sales ->
  In (key, v) (productRevenue sales) ->
  group key sales <> []
  /\ v = sum_numbers (map amount_value (group key sales))
  /\ revenue_ok v.
Proof.
  intros Hall Hin.
  apply In_obj_get in Hin; [| apply productRevenue_NoDup].
  unfold productRevenue in Hin. rewrite obj_get_fold_add_revenue in Hin. cbn [obj_get] in Hin.
  pose proof (group_revenue_sum key sales None Hall) as Hsum.
  destruct (group key sales) as [| sale l].
  - rewrite Hsum in Hin by discriminate. discriminate Hin.
  - destruct Hsum as (v' & Hv' & Hok & Heq); [discriminate |].
    rewrite Hv' in Hin. injection Hin as <-. split; [discriminate |]. split; assumption.
Qed.

Lemma productRevenue_keys (sales : list SalesData.t) (key : string) :
  Forall amount_finite sales ->
  In key (map fst (productRevenue sales)) <-> group key sales <> [].
Proof.
  intros Hall. split.
  - intros Hin. apply in_map_iff in Hin. destruct Hin as ([k v] & <- & Hin).
    now apply (productRevenue_In sales k v Hall).
  - intros Hne. destruct (obj_get (productRevenue sales) key) as [v |] eqn:E.
    + apply obj_get_In in E. now apply (in_map fst) in E.
    + exfalso. unfold productRevenue in E. rewrite obj_get_fold_add_revenue in E.
      cbn [obj_get] in E.
      pose proof (group_revenue_sum key sales None Hall) as Hsum.
      destruct (group key sales) as [| sale l]; [contradiction |].
      destruct Hsum as (v' & Hv' & _); [discriminate | congruence].
Qed.

(** The groups, their sums and their order. *)
Lemma ranking_spec (sales : list SalesData.t) :
  Forall amount_finite sales ->
  List.NoDup (map TopProduct.product (ranking sales))
  /\ (forall key, In key (map TopProduct.product (ranking sales)) <-> group key sales <> [])
  /\ (forall tp, In tp (ranking sales) ->
        TopProduct.revenue tp
        = sum_numbers (map amount_value (group (TopProduct.product tp) sales))
        /\ revenue_ok (TopProduct.revenue tp))
  /\ Sorted descending (ranking sales).
Proof.
  intros Hall. rewrite ranking_entries.
  pose proof (sorted_entries_Permutation sales) as Hperm.
  set (S := Array_sort compare_revenue (Object_entries (productRevenue sales))) in *.
  assert (Hkeys : map TopProduct.product (map (fun kv => TopProduct.mk (fst kv) (snd kv)) S)
                  = map fst S).
  { rewrite map_map. reflexivity. }
  assert (HS : forall kv, In kv S -> revenue_ok (snd kv)
                /\ snd kv = sum_numbers (map amount_value (group (fst kv) sales))).
  { intros [k v] Hin. apply (Permutation_in _ Hperm) in Hin.
    destruct (productRevenue_In sales k v Hall Hin) as (_ & Hv & Hok). now split. }
  rewrite Hkeys. split; [| split; [| split]].
  - apply (Permutation_NoDup (l := map fst (productRevenue sales))).
    + apply Permutation_map. now symmetry.
    + apply productRevenue_NoDup.
  - intros key. rewrite <- (productRevenue_keys sales key Hall). split.
    + apply Permutation_in, Permutation_map, Hperm.
    + apply Permutation_in, Permutation_map. now symmetry.
  - intros tp Hin. apply in_map_iff in Hin. destruct Hin as (kv & <- & Hin).
    cbn [TopProduct.revenue TopProduct.product]. destruct (HS kv Hin). now split.
  - apply (Sorted_map _ (fun a b => js_le (snd b) (snd a) = true)); [intros x y H; exact H |].
    unfold S. apply Array_sort_Sorted. intros x y Hx Hy.
    assert (Hx' : In x S).
    { unfold S. apply (Permutation_in _ (Permutation_sym (Array_sort_Permutation _ _))), Hx. }
    assert (Hy' : In y S).
    { unfold S. apply (Permutation_in _ (Permutation_sym (Array_sort_Permutation _ _))), Hy. }
    destruct (HS x Hx') as ((Hxv & Hxn & _) & _), (HS y Hy') as ((Hyv & Hyn & _) & _).
    unfold sorts_before, compare_revenue. rewrite js_sub_negative by assumption.
    destruct (js_lt (snd x) (snd y)) eqn:E.
    + now apply js_lt_le.
    + now apply js_le_of_not_lt.
Qed.

(** *** Whole amounts: the sums are exact *)

Lemma is_number_number_of_Z (z : Z) : is_number (number_of_Z z).
Proof. apply binary_normalize_spec. Qed.




Lemma Zsum_cons (z : Z) (l : list Z) : Zsum (z :: l) = z + Zsum l.
Proof. reflexivity. Qed.

Lemma Zsum_nonneg (l : list Z) : Forall (fun z => 0 <= z) l -> 0 <= Zsum l.
Proof. induction 1; [cbn | rewrite Zsum_cons]; lia. Qed.








Lemma In_firstn {A : Type} (n : nat) (l : list A) (x : A) :
  In x (firstn n l) -> In x l.
Proof.
  revert n. induction l as [| y l IH]; intros [| n]; cbn [firstn In]; try tauto.
  intros [H | H]; [now left | right; now apply (IH n)].
Qed.






Lemma topProducts_firstn (sales : list SalesData.t) :
  map (fun '(product, revenue) => TopProduct.mk product revenue)
      (firstn 5 (Array_sort compare_revenue
                   (Object_entries (fold_left add_revenue sales []))))
  = firstn 5 (ranking sales).
Proof. unfold ranking, productRevenue. now rewrite firstn_map. Qed.




(** ** Low stock items *)

Lemma js_lt_not_NaN (x y : number) : js_lt x y = true -> isNaN x = false /\ isNaN y = false.
Proof.
  unfold js_lt, SFltb. destruct x, y; cbn [SFcompare isNaN]; try discriminate; auto.
Qed.

(** What [generateBusinessSummary] lists as low stock, for an inventory
    whose stocks are numbers: at most ten records, each with a stock below
    the threshold [Min_Alert || 5], which is the record's own [Min_Alert]
    unless that is missing, NaN or 0, in which case it is 5; the list is in
    ascending order of stock, and it holds every such record when there are
    no more than ten. *)
Lemma lowStockItems_spec
    (sales : list SalesData.t) (inventory : list InventoryData.t)
    (reviews : list ReviewData.t) :
  Forall has_Review reviews -> Forall inventory_ok inventory ->
  exists s,
    generateBusinessSummary sales inventory reviews = Return s
    /\ (length (lowStockItems s) <= 10)%nat
    /\ (forall it, In it (lowStockItems s) ->
          exists item x,
            In item inventory
            /\ it = LowStockItem.mk (InventoryData.Product item) (Some x)
            /\ InventoryData.Stock item = Some x
            /\ js_lt x (number_or (InventoryData.Min_Alert item) five) = true)
    /\ Sorted ascending (lowStockItems s)
    /\ ((length (List.filter low_stock inventory) <= 10)%nat ->
        Permutation (lowStockItems s)
          (map (fun item => LowStockItem.mk (InventoryData.Product item)
                                           (InventoryData.Stock item))
               (List.filter low_stock inventory))).
Proof.
  intros Hrev Hok. unfold generateBusinessSummary.
  destruct (forEach_review_Return reviews zero Hrev) as (score & ->).
  cbn [mbind completion_bind]. eexists. split; [reflexivity |]. cbn [lowStockItems].
  set (low := List.filter low_stock inventory).
  set (mk := fun item => LowStockItem.mk (InventoryData.Product item)
                                         (InventoryData.Stock item)).
  pose proof (Array_sort_Permutation compare_stock low) as Hperm.
  assert (Hlow : forall item, In item (Array_sort compare_stock low) ->
            In item inventory
            /\ exists x, InventoryData.Stock item = Some x
                         /\ js_lt x (number_or (InventoryData.Min_Alert item) five) = true).
  { intros item Hin. apply (Permutation_in _ Hperm), filter_In in Hin.
    destruct Hin as [Hin Hls]. split; [exact Hin |]. unfold low_stock in Hls.
    destruct (InventoryData.Stock item) as [x |]; [eauto | discriminate Hls]. }
  split; [| split; [| split]].
  - rewrite length_map. apply firstn_le_length.
  - intros it Hit. apply in_map_iff in Hit. destruct Hit as (item & <- & Hin).
    apply In_firstn in Hin. destruct (Hlow item Hin) as (Hinv & x & Hx & Hlt).
    exists item, x. unfold mk. rewrite Hx. auto.
  - apply (Sorted_map mk (fun a b => js_le (ToNumber (InventoryData.Stock a))
                                           (ToNumber (InventoryData.Stock b)) = true));
      [intros a b H; exact H |].
    apply Sorted_firstn, Array_sort_Sorted. intros a b Ha Hb.
    assert (Ha' : In a (Array_sort compare_stock low))
      by apply (Permutation_in _ (Permutation_sym Hperm)), Ha.
    assert (Hb' : In b (Array_sort compare_stock low))
      by apply (Permutation_in _ (Permutation_sym Hperm)), Hb.
    destruct (Hlow a Ha') as (Hina & xa & Hxa & Hlta).
    destruct (Hlow b Hb') as (Hinb & xb & Hxb & Hltb).
    rewrite List.Forall_forall in Hok.
    pose proof (Hok a Hina xa Hxa) as Hva. pose proof (Hok b Hinb xb Hxb) as Hvb.
    apply js_lt_not_NaN in Hlta, Hltb.
    unfold sorts_before, compare_stock. rewrite Hxa, Hxb. cbn [ToNumber].
    rewrite js_sub_negative by assumption.
    destruct (js_lt xb xa) eqn:E.
    + now apply js_lt_le.
    + apply js_le_of_not_lt; tauto.
  - intros Hlen. rewrite firstn_all2 by (rewrite (Permutation_length Hperm); exact Hlen).
    now apply Permutation_map.
Qed.

(** ** Totality *)

(** [generateBusinessSummary] returns a summary when every review has its
    text, and throws otherwise. *)
Lemma generateBusinessSummary_returns_iff
    (sales : list SalesData.t) (inventory : list InventoryData.t)
    (reviews : list ReviewData.t) :
  (exists s, generateBusinessSummary sales inventory reviews = Return s)
  <-> Forall has_Review reviews.
Proof.
  split.
  - intros (s & Hs). apply List.Forall_forall. intros r Hr Hnone.
    rewrite generateBusinessSummary_Throw in Hs; [discriminate Hs |].
    apply List.Exists_exists. now exists r.
  - intros Hall. unfold generateBusinessSummary.
    destruct (forEach_review_Return reviews zero Hall) as (score & ->).
    cbn [mbind completion_bind]. eauto.
Qed.

(** ** Numbers: the value of a rounded result *)

(** The last step of rounding keeps the value [m * 2 ^ e]. *)
Lemma finish_value (sx : bool) (m e : Z) :
  -1074 <= e <= 970 -> 0 < m -> rounded_ok m e ->
  exists p e3,
    finish sx m e = S754_finite sx p e3
    /\ is_number (S754_finite sx p e3)
    /\ e <= e3 /\ Zpos p * 2 ^ (e3 - e) = m.
Proof.
  intros He Hpos [-> | (d & Hd & Hfe & Hlo & Hhi)]; [lia |].
  destruct m as [| p | p]; try lia.
  assert (Hd53 : d <= 53) by (unfold_fexp; lia).
  assert (Hcases : Zpos p < 2 ^ d \/ Zpos p = 2 ^ d) by lia.
  destruct Hcases as [Hlt | Heq].
  - assert (Hdig : Zpos (digits2_pos p) = d) by (apply digits_unique; lia).
    unfold finish. rewrite shr_fexp_unfold. cbn [Zdigits2]. rewrite Hdig, <- Hfe.
    rewrite Z.sub_diag. cbn [Z.ltb Z.compare shr_record_of_loc shr_m].
    replace (e <=? emax - prec) with true by (symmetry; apply Z.leb_le; unfold emax, prec; lia).
    exists p, e. split; [reflexivity |]. split.
    + unfold is_number. cbn. unfold bounded, canonical_mantissa.
      rewrite Hdig, <- Hfe, Z.eqb_refl. apply Z.leb_le. unfold emax, prec. lia.
    + rewrite Z.sub_diag. cbn. lia.
  - assert (Hdig : Zpos (digits2_pos p) = d + 1).
    { apply digits_unique. rewrite Heq. replace (d + 1 - 1) with d by lia.
      rewrite Z.pow_add_r by lia. assert (0 < 2 ^ d) by (apply Z.pow_pos_nonneg; lia).
      change (2 ^ 1) with 2. lia. }
    unfold finish. rewrite shr_fexp_unfold. cbn [Zdigits2]. rewrite Hdig.
    destruct (0 <? fexp prec emax (d + 1 + e) - e) eqn:Hn.
    + apply Z.ltb_lt in Hn.
      assert (Hn1 : fexp prec emax (d + 1 + e) - e = 1) by (unfold_fexp; lia).
      rewrite Hn1. destruct (pow2_pos (d - 1)) as (q & Hq); [lia |].
      assert (Hp : Zpos p = Zpos q * 2 ^ Z.of_nat (Z.to_nat 1)).
      { rewrite Heq, <- Hq. change (2 ^ Z.of_nat (Z.to_nat 1)) with 2.
        replace d with (Z.succ (d - 1)) at 1 by lia. rewrite Z.pow_succ_r by lia. ring. }
      cbn [shr_record_of_loc]. rewrite Hp, shr_iter_exact. cbn [shr_m].
      assert (Hdq : Zpos (digits2_pos q) = d).
      { apply digits_unique. rewrite <- Hq. split; [lia |].
        apply Z.pow_lt_mono_r; lia. }
      assert (He3 : fexp prec emax (d + 1 + e) = e + 1) by lia.
      replace (fexp prec emax (d + 1 + e) <=? emax - prec) with true
        by (symmetry; apply Z.leb_le; rewrite He3; unfold emax, prec; lia).
      exists q, (fexp prec emax (d + 1 + e)). split; [reflexivity |]. split.
      * unfold is_number. cbn. unfold bounded, canonical_mantissa.
        rewrite Hdq. apply andb_true_iff. split.
        -- apply Z.eqb_eq. unfold_fexp. lia.
        -- apply Z.leb_le. rewrite He3. unfold emax, prec. lia.
      * rewrite He3. replace (e + 1 - e) with 1 by lia. split; [lia |].
        reflexivity.
    + apply Z.ltb_ge in Hn. cbn [shr_record_of_loc shr_m].
      replace (e <=? emax - prec) with true
        by (symmetry; apply Z.leb_le; unfold emax, prec; lia).
      exists p, e. split; [reflexivity |]. split.
      * unfold is_number. cbn. unfold bounded, canonical_mantissa.
        rewrite Hdig. apply andb_true_iff. split.
        -- apply Z.eqb_eq. unfold_fexp. lia.
        -- apply Z.leb_le. unfold emax, prec. lia.
      * rewrite Z.sub_diag. cbn. lia.
Qed.

(** The first step of rounding: the mantissa is cut at the canonical
    exponent and goes to the integer below or to the next one; it stays
    where it is when nothing is cut off. *)
Lemma round_stage_value (mz : positive) (ez : Z) (l : location) :
  ez <= fexp prec emax (Zpos (digits2_pos mz) + ez) ->
  (shr_fexp prec emax (Zpos mz) ez l).2 = fexp prec emax (Zpos (digits2_pos mz) + ez)
  /\ Zpos mz / 2 ^ (fexp prec emax (Zpos (digits2_pos mz) + ez) - ez)
     <= round_nearest_even (shr_m (shr_fexp prec emax (Zpos mz) ez l).1)
          (loc_of_shr_record (shr_fexp prec emax (Zpos mz) ez l).1)
     <= Zpos mz / 2 ^ (fexp prec emax (Zpos (digits2_pos mz) + ez) - ez) + 1
  /\ (l = loc_Exact ->
      Zpos mz mod 2 ^ (fexp prec emax (Zpos (digits2_pos mz) + ez) - ez) = 0 ->
      round_nearest_even (shr_m (shr_fexp prec emax (Zpos mz) ez l).1)
        (loc_of_shr_record (shr_fexp prec emax (Zpos mz) ez l).1)
      = Zpos mz / 2 ^ (fexp prec emax (Zpos (digits2_pos mz) + ez) - ez)).
Proof.
  intros Hez. rewrite shr_fexp_unfold. cbn [Zdigits2].
  set (e2 := fexp prec emax (Zpos (digits2_pos mz) + ez)) in *.
  destruct (0 <? e2 - ez) eqn:Hn; cbn [fst snd].
  - apply Z.ltb_lt in Hn. set (n := e2 - ez) in *.
    assert (Hm1 : shr_m (Nat.iter (Z.to_nat n) shr_1 (shr_record_of_loc (Zpos mz) l))
                  = Zpos mz / 2 ^ n).
    { rewrite shr_iter_m by (rewrite shr_m_of_loc; lia).
      rewrite shr_m_of_loc, Z2Nat.id by lia. reflexivity. }
    split; [reflexivity |]. split.
    + rewrite Hm1.
      destruct (round_nearest_even_cases (Zpos mz / 2 ^ n)
                  (loc_of_shr_record
                     (Nat.iter (Z.to_nat n) shr_1 (shr_record_of_loc (Zpos mz) l))))
        as [-> | ->]; lia.
    + intros -> Hmod.
      assert (Hpn : 0 < 2 ^ n) by (apply Z.pow_pos_nonneg; lia).
      pose proof (Z.div_mod (Zpos mz) (2 ^ n) ltac:(lia)) as Hdm. rewrite Hmod in Hdm.
      destruct (Zpos mz / 2 ^ n) as [| q | q] eqn:Eq; try lia.
      assert (Hmz : Zpos mz = Zpos q * 2 ^ Z.of_nat (Z.to_nat n)).
      { rewrite Z2Nat.id by lia. lia. }
      cbn [shr_record_of_loc]. rewrite Hmz, shr_iter_exact. reflexivity.
  - apply Z.ltb_ge in Hn. assert (Heq : e2 - ez = 0) by lia.
    rewrite Heq, shr_m_of_loc, loc_of_shr_record_of_loc.
    change (2 ^ 0) with 1. rewrite Z.div_1_r.
    split; [lia |]. split.
    + destruct (round_nearest_even_cases (Zpos mz) l) as [-> | ->]; lia.
    + intros -> _. reflexivity.
Qed.

(** Rounding a positive mantissa that is in range: the result is a finite
    number whose value is the cut mantissa or the next one, at the
    canonical exponent. *)
Lemma binary_round_aux_value (sx : bool) (mz : positive) (ez : Z) (l : location) :
  ez <= fexp prec emax (Zpos (digits2_pos mz) + ez) ->
  -1074 <= ez -> fexp prec emax (Zpos (digits2_pos mz) + ez) <= 970 ->
  exists p e3 m,
    binary_round_aux prec emax sx (Zpos mz) ez l = S754_finite sx p e3
    /\ is_number (S754_finite sx p e3)
    /\ fexp prec emax (Zpos (digits2_pos mz) + ez) <= e3
    /\ Zpos p * 2 ^ (e3 - fexp prec emax (Zpos (digits2_pos mz) + ez)) = m
    /\ Zpos mz / 2 ^ (fexp prec emax (Zpos (digits2_pos mz) + ez) - ez) <= m
       <= Zpos mz / 2 ^ (fexp prec emax (Zpos (digits2_pos mz) + ez) - ez) + 1
    /\ (l = loc_Exact ->
        Zpos mz mod 2 ^ (fexp prec emax (Zpos (digits2_pos mz) + ez) - ez) = 0 ->
        m = Zpos mz / 2 ^ (fexp prec emax (Zpos (digits2_pos mz) + ez) - ez)).
Proof.
  intros Hez Hge Hle. rewrite binary_round_aux_finish.
  destruct (round_stage mz ez l Hez) as (Hok & He' & Hpos).
  destruct (round_stage_value mz ez l Hez) as (He2 & Hbr & Hex).
  specialize (Hpos Hge). rewrite He2 in *.
  destruct (finish_value sx _ _ ltac:(split; [exact He' | exact Hle]) Hpos Hok)
    as (p & e3 & Hfin & Hval & Hle3 & Hv).
  exists p, e3, (round_nearest_even (shr_m (shr_fexp prec emax (Zpos mz) ez l).1)
                   (loc_of_shr_record (shr_fexp prec emax (Zpos mz) ez l).1)).
  repeat split; try assumption; apply Hbr.
Qed.

(** Two valid finite numbers compare as their mantissas brought to a common
    exponent. *)
Lemma SFcompare_value (sx sy : bool) (mx my : positive) (ex ey E : Z) :
  is_number (S754_finite sx mx ex) -> is_number (S754_finite sy my ey) ->
  E <= ex -> E <= ey ->
  SFcompare (S754_finite sx mx ex) (S754_finite sy my ey)
  = Some (cond_Zopp sx (Zpos mx * 2 ^ (ex - E)) ?= cond_Zopp sy (Zpos my * 2 ^ (ey - E))).
Proof.
  intros Hx Hy HEx HEy. rewrite SFcompare_aligned by assumption. f_equal.
  destruct (shl_align_spec mx ex (Z.min ex ey)) as (Hmx & Hex & _).
  destruct (shl_align_spec my ey (Z.min ex ey)) as (Hmy & Hey & _).
  rewrite Hmx, Hmy, Hex, Hey.
  replace (Z.min ex (Z.min ex ey)) with (Z.min ex ey) by lia.
  replace (Z.min ey (Z.min ex ey)) with (Z.min ex ey) by lia.
  set (E0 := Z.min ex ey).
  assert (Hc : 0 < 2 ^ (E0 - E)) by (apply Z.pow_pos_nonneg; unfold E0; lia).
  replace (2 ^ (ex - E)) with (2 ^ (ex - E0) * 2 ^ (E0 - E))
    by (rewrite <- Z.pow_add_r by (unfold E0; lia); f_equal; lia).
  replace (2 ^ (ey - E)) with (2 ^ (ey - E0) * 2 ^ (E0 - E))
    by (rewrite <- Z.pow_add_r by (unfold E0; lia); f_equal; lia).
  rewrite !Z.mul_assoc, !cond_Zopp_mul.
  apply Zmult_compare_compat_r. lia.
Qed.

Lemma js_le_compare (x y : number) :
  js_le x y = match SFcompare x y with Some Gt | None => false | _ => true end.
Proof. unfold js_le, SFleb. destruct (SFcompare x y) as [[] |]; reflexivity. Qed.

Lemma js_lt_compare (x y : number) :
  js_lt x y = match SFcompare x y with Some Lt => true | _ => false end.
Proof. reflexivity. Qed.

(** The number of a positive integer below 2^53 has a mantissa of 53 bits. *)
Lemma number_of_Z_normal (a : Z) :
  0 < a < 2 ^ 53 ->
  exists m e,
    number_of_Z a = S754_finite false m e
    /\ is_number (S754_finite false m e)
    /\ -52 <= e <= 0 /\ Zpos m = a * 2 ^ (- e)
    /\ 2 ^ 52 <= Zpos m < 2 ^ 53.
Proof.
  intros Ha.
  destruct (number_of_Z_finite a) as (m & e & Heq & He & Hm & Hval); [lia | lia |].
  replace (a <? 0) with false in Heq by (symmetry; apply Z.ltb_ge; lia).
  rewrite Z.abs_eq in Hm by lia. rewrite Heq in Hval.
  destruct (is_number_finite _ _ _ Hval) as (Hrange & Hdig & Hnorm).
  pose proof (digits_bounds m) as [Hlo Hhi].
  assert (Hp : 0 < 2 ^ (- e)) by (apply Z.pow_pos_nonneg; lia).
  assert (Hhi53 : Zpos m < 2 ^ 53).
  { eapply Z.lt_le_trans; [exact Hhi |]. apply Z.pow_le_mono_r; lia. }
  assert (He52 : - e < 53).
  { apply (Z.pow_lt_mono_r_iff 2); [lia | lia |]. nia. }
  assert (Hd : Zpos (digits2_pos m) = 53) by (apply Hnorm; lia).
  rewrite Hd in Hlo. change (2 ^ (53 - 1)) with (2 ^ 52) in Hlo.
  exists m, e. repeat split; try assumption; lia.
Qed.

Lemma new_location_0 (nb_steps : Z) : new_location nb_steps 0 = loc_Exact.
Proof. unfold new_location. destruct (Z.even nb_steps); reflexivity. Qed.

(** Integer bounds of a scaled Euclidean quotient: with
    [a * T * P = b * P * q + r] and [0 <= r < b * P], an integer [k] below
    the exact quotient [a / b] has [k * T] below [q], and one above it has
    [k * T] above [q], with equality only when the division is exact. *)
Lemma scaled_quotient_lower (a b k q r T P : Z) :
  0 < T -> 0 < P -> 0 < b ->
  a * T * P = b * P * q + r -> 0 <= r < b * P ->
  k * b <= a -> k * T <= q.
Proof.
  intros HT HP Hb Heq Hr Hk.
  assert (HTP : 0 <= T * P) by (apply Z.mul_nonneg_nonneg; lia).
  assert (HbP : 0 < b * P) by (apply Z.mul_pos_pos; lia).
  pose proof (Z.mul_le_mono_nonneg_r _ _ _ HTP Hk) as H1.
  apply Z.lt_succ_r. apply (Z.mul_lt_mono_pos_l (b * P)); [exact HbP |].
  replace (b * P * (k * T)) with (k * b * (T * P)) by ring.
  replace (b * P * Z.succ q) with (b * P * q + b * P) by ring.
  replace (a * (T * P)) with (a * T * P) in H1 by ring. lia.
Qed.

Lemma scaled_quotient_upper (a b k q r T P : Z) :
  0 < T -> 0 < P -> 0 < b ->
  a * T * P = b * P * q + r -> 0 <= r < b * P ->
  a <= k * b -> q <= k * T /\ (q = k * T -> r = 0).
Proof.
  intros HT HP Hb Heq Hr Hk.
  assert (HTP : 0 <= T * P) by (apply Z.mul_nonneg_nonneg; lia).
  assert (HbP : 0 < b * P) by (apply Z.mul_pos_pos; lia).
  pose proof (Z.mul_le_mono_nonneg_r _ _ _ HTP Hk) as H1.
  replace (a * (T * P)) with (a * T * P) in H1 by ring.
  replace (k * b * (T * P)) with (b * P * (k * T)) in H1 by ring.
  split.
  - apply (Z.mul_le_mono_pos_l _ _ (b * P)); [exact HbP | lia].
  - intros ->. lia.
Qed.

(** The quotient of two positive integers below 2^53: a finite number whose
    mantissa [m], at an exponent [e2] that is not positive, is above every
    integer below the exact quotient and below every integer above it. *)
Lemma js_div_number_of_Z (a b : Z) :
  0 < a < 2 ^ 53 -> 0 < b < 2 ^ 53 ->
  exists p e3 e2,
    js_div (number_of_Z a) (number_of_Z b) = S754_finite false p e3
    /\ is_number (S754_finite false p e3)
    /\ e2 <= e3 /\ e2 <= 0
    /\ (forall k, k * b <= a -> k * 2 ^ (- e2) <= Zpos p * 2 ^ (e3 - e2))
    /\ (forall k, a <= k * b -> Zpos p * 2 ^ (e3 - e2) <= k * 2 ^ (- e2)).
Proof.
  intros Ha Hb.
  destruct (number_of_Z_normal a Ha) as (m1 & e1 & -> & _ & He1 & Hm1 & Hm1r).
  destruct (number_of_Z_normal b Hb) as (m2 & e2 & -> & _ & He2 & Hm2 & Hm2r).
  unfold js_div. cbn [SFdiv xorb]. unfold SFdiv_core_binary. cbn [Zdigits2].
  assert (Hd1 : Zpos (digits2_pos m1) = 53) by (apply digits_unique; simpl; lia).
  assert (Hd2 : Zpos (digits2_pos m2) = 53) by (apply digits_unique; simpl; lia).
  rewrite Hd1, Hd2.
  set (e' := Z.min (fexp prec emax (53 + e1 - (53 + e2))) (e1 - e2)).
  assert (He' : e' = e1 - e2 - 53) by (unfold e'; unfold_fexp; lia).
  replace (e1 - e2 - e') with 53 by lia.
  cbv iota. rewrite Z.shiftl_mul_pow2 by lia.
  pose proof (Z_div_mod (Zpos m1 * 2 ^ 53) (Zpos m2) ltac:(lia)) as Hdiv.
  destruct (Z.div_eucl (Zpos m1 * 2 ^ 53) (Zpos m2)) as [q r].
  destruct Hdiv as [Hdiv Hr].
  (* the quotient has 53 or 54 bits *)
  assert (Hqlo : 2 ^ 52 <= q) by nia.
  assert (Hqhi : q < 2 ^ 54).
  { assert (q * 2 ^ 52 < 2 ^ 54 * 2 ^ 52); [| nia].
    change (2 ^ 54 * 2 ^ 52) with (2 ^ 53 * 2 ^ 53). nia. }
  destruct q as [| q | q]; try lia.
  pose proof (digits_bounds q) as [Hdlo Hdhi].
  set (dq := Zpos (digits2_pos q)) in *.
  assert (Hdq : dq = 53 \/ dq = 54).
  { assert (52 < dq) by (apply (Z.pow_lt_mono_r_iff 2); lia).
    assert (dq - 1 < 54) by (apply (Z.pow_lt_mono_r_iff 2); lia). lia. }
  assert (Hfexp : fexp prec emax (dq + e') = dq + e' - 53) by (unfold_fexp; lia).
  destruct (binary_round_aux_value false q e' (new_location (Zpos m2) r))
    as (p & e3 & m & Heq & Hval & Hle3 & Hv & Hbr & Hex);
    fold dq; rewrite ?Hfexp; try lia.
  fold dq in Hle3, Hv, Hbr, Hex. rewrite Hfexp in Hle3, Hv, Hbr, Hex.
  replace (dq + e' - 53 - e') with (dq - 53) in Hbr, Hex by lia.
  exists p, e3, (dq + e' - 53). rewrite Heq, Hv.
  split; [reflexivity |]. split; [exact Hval |]. split; [exact Hle3 |].
  split; [lia |].
  (* the exact quotient, scaled: a * T * P = q * b * P + r *)
  set (P := 2 ^ (- e2)) in *. set (T := 2 ^ (- e')).
  assert (HP : 0 < P) by (apply Z.pow_pos_nonneg; lia).
  assert (HT : 0 < T) by (apply Z.pow_pos_nonneg; lia).
  assert (Hscale : Zpos m1 * 2 ^ 53 = a * T * P).
  { rewrite Hm1. unfold T, P. rewrite <- !Z.mul_assoc, <- !Z.pow_add_r by lia.
    do 2 f_equal. lia. }
  set (S2 := 2 ^ (dq - 53)) in *.
  assert (HS2 : 0 < S2) by (apply Z.pow_pos_nonneg; lia).
  assert (HTS : T = 2 ^ (- (dq + e' - 53)) * S2).
  { unfold T, S2. rewrite <- Z.pow_add_r by lia. f_equal. lia. }
  set (U := 2 ^ (- (dq + e' - 53))) in *.
  assert (Hquot : a * T * P = b * P * Zpos q + r) by (rewrite <- Hscale, <- Hm2; exact Hdiv).
  assert (Hrem : 0 <= r < b * P) by (rewrite <- Hm2; lia).
  split.
  - intros k Hk.
    pose proof (scaled_quotient_lower a b k (Zpos q) r T P HT HP ltac:(lia) Hquot Hrem Hk)
      as Hkq.
    apply Z.le_trans with (Zpos q / S2); [| apply Hbr].
    apply Z.div_le_lower_bound; [exact HS2 |]. rewrite HTS in Hkq. lia.
  - intros k Hk.
    destruct (scaled_quotient_upper a b k (Zpos q) r T P HT HP ltac:(lia) Hquot Hrem Hk)
      as [Hqk Hexact].
    assert (HM : Zpos q / S2 <= k * U).
    { apply Z.div_le_upper_bound; [exact HS2 |]. rewrite HTS in Hqk. lia. }
    destruct (Z_lt_le_dec (Zpos q / S2) (k * U)) as [Hlt | Hge]; [lia |].
    assert (HMeq : Zpos q / S2 = k * U) by lia.
    pose proof (Z.mul_div_le (Zpos q) S2 HS2) as Hfloor.
    assert (Hqeq : Zpos q = k * T) by (rewrite HMeq in Hfloor; rewrite HTS in Hqk |- *; lia).
    assert (Hr0 : r = 0) by (apply Hexact; exact Hqeq).
    rewrite Hex; [lia | subst r; apply new_location_0 |].
    rewrite Hqeq, HTS, Z.mul_assoc. apply Z.mod_mul. lia.
Qed.

(** The rounded quotient of two integers keeps the integer bounds of the
    exact quotient. *)
Lemma js_div_Z_bounds (a b k : Z) :
  0 <= a < 2 ^ 53 -> 0 < b < 2 ^ 53 -> 0 <= k < 2 ^ 53 ->
  (k * b <= a -> js_le (number_of_Z k) (js_div (number_of_Z a) (number_of_Z b)) = true)
  /\ (a <= k * b -> js_le (js_div (number_of_Z a) (number_of_Z b)) (number_of_Z k) = true).
Proof.
  intros Ha Hb Hk.
  destruct (Z.eq_dec a 0) as [-> | Ha0].
  { destruct (number_of_Z_normal b Hb) as (m2 & e2 & -> & _).
    rewrite number_of_Z_0. cbn [js_div SFdiv zero xorb]. split.
    - intros Hle. assert (k = 0).
      { destruct (Z.eq_dec k 0) as [| Hk0]; [assumption |].
        pose proof (Z.mul_pos_pos k b ltac:(lia) ltac:(lia)). lia. }
      subst k. reflexivity.
    - intros _. destruct (Z.eq_dec k 0) as [-> | Hk0]; [reflexivity |].
      destruct (number_of_Z_normal k ltac:(lia)) as (mk & ek & -> & _). reflexivity. }
  destruct (js_div_number_of_Z a b ltac:(lia) Hb)
    as (p & e3 & e2 & -> & Hval & Hle3 & He2 & Hlow & Hupp).
  destruct (Z.eq_dec k 0) as [-> | Hk0].
  { rewrite number_of_Z_0. split; [reflexivity | intros; lia]. }
  destruct (number_of_Z_normal k ltac:(lia)) as (mk & ek & -> & Hvk & Hek & Hmk & _).
  set (E := Z.min e2 ek).
  assert (Hc : 0 < 2 ^ (e2 - E)) by (apply Z.pow_pos_nonneg; unfold E; lia).
  assert (Hkv : Zpos mk * 2 ^ (ek - E) = k * 2 ^ (- e2) * 2 ^ (e2 - E)).
  { rewrite Hmk, <- !Z.mul_assoc, <- !Z.pow_add_r by (unfold E; lia).
    do 2 f_equal. lia. }
  assert (Hpv : Zpos p * 2 ^ (e3 - E) = Zpos p * 2 ^ (e3 - e2) * 2 ^ (e2 - E)).
  { rewrite <- !Z.mul_assoc, <- !Z.pow_add_r by (unfold E; lia). do 2 f_equal. lia. }
  split; intros Hle; rewrite js_le_compare.
  - rewrite (SFcompare_value _ _ _ _ _ _ E) by (try assumption; unfold E; lia).
    cbn [cond_Zopp]. rewrite Hkv, Hpv. specialize (Hlow k Hle).
    destruct (Z.compare_spec (k * 2 ^ (- e2) * 2 ^ (e2 - E))
                (Zpos p * 2 ^ (e3 - e2) * 2 ^ (e2 - E))); try reflexivity.
    pose proof (Z.mul_le_mono_nonneg_r _ _ (2 ^ (e2 - E)) ltac:(lia) Hlow). lia.
  - rewrite (SFcompare_value _ _ _ _ _ _ E) by (try assumption; unfold E; lia).
    cbn [cond_Zopp]. rewrite Hkv, Hpv. specialize (Hupp k Hle).
    destruct (Z.compare_spec (Zpos p * 2 ^ (e3 - e2) * 2 ^ (e2 - E))
                (k * 2 ^ (- e2) * 2 ^ (e2 - E))); try reflexivity.
    pose proof (Z.mul_le_mono_nonneg_r _ _ (2 ^ (e2 - E)) ltac:(lia) Hupp). lia.
Qed.

(** The quotient of a positive integer by a positive integer is positive,
    and the quotient of 0 is 0. *)
Lemma js_div_Z_positive (a b : Z) :
  0 < a < 2 ^ 53 -> 0 < b < 2 ^ 53 ->
  js_lt zero (js_div (number_of_Z a) (number_of_Z b)) = true.
Proof.
  intros Ha Hb.
  destruct (js_div_number_of_Z a b Ha Hb) as (p & e3 & e2 & -> & _). reflexivity.
Qed.

(** ** Averages of whole numbers *)

Lemma number_or_number_of_Z (z : Z) :
  0 <= z < 2 ^ 53 -> number_or (Some (number_of_Z z)) zero = number_of_Z z.
Proof.
  intros Hz. destruct (Z.eq_dec z 0) as [-> | Hnz]; [reflexivity |].
  destruct (number_of_Z_normal z ltac:(lia)) as (m & e & -> & _). reflexivity.
Qed.

(** Adding up [x || 0] over records whose values are whole numbers is exact
    as long as the sum stays below 2^53. *)
Lemma fold_number_or_whole {A : Type} (get : A -> option number)
    (l : list A) (zs : list Z) (a : Z) :
  Forall2 (fun x z => 0 <= z /\ (get x = Some (number_of_Z z) \/ (z = 0 /\ get x = None)))
          l zs ->
  0 <= a -> a + Zsum zs < 2 ^ 53 ->
  fold_left (fun sum x => js_add sum (number_or (get x) zero)) l (number_of_Z a)
  = number_of_Z (a + Zsum zs).
Proof.
  intros Hall. revert a. induction Hall as [| x z l zs [Hz Hx] Hrest IH]; intros a Ha Hsum.
  - cbn. f_equal. lia.
  - rewrite Zsum_cons in Hsum. cbn [fold_left].
    assert (Hzs : 0 <= Zsum zs).
    { apply Zsum_nonneg. clear -Hrest. induction Hrest as [| ? ? ? ? [H _] _ IH'];
        constructor; assumption. }
    assert (Hval : number_or (get x) zero = number_of_Z z).
    { destruct Hx as [-> | [-> ->]]; [apply number_or_number_of_Z; lia | reflexivity]. }
    rewrite Hval, js_add_number_of_Z by lia.
    rewrite IH by lia. rewrite Zsum_cons. f_equal. lia.
Qed.

Lemma fold_number_or_whole_0 {A : Type} (get : A -> option number)
    (l : list A) (zs : list Z) :
  Forall2 (fun x z => 0 <= z /\ (get x = Some (number_of_Z z) \/ (z = 0 /\ get x = None)))
          l zs ->
  Zsum zs < 2 ^ 53 ->
  fold_left (fun sum x => js_add sum (number_or (get x) zero)) l zero
  = number_of_Z (Zsum zs).
Proof.
  intros Hall Hsum. apply (fold_number_or_whole get l zs 0 Hall); lia.
Qed.

Lemma Zsum_bounds (zs : list Z) (lo hi : Z) :
  Forall (fun z => lo <= z <= hi) zs ->
  lo * Z.of_nat (length zs) <= Zsum zs <= hi * Z.of_nat (length zs).
Proof.
  induction 1 as [| z zs Hz _ IH]; [cbn; lia |].
  rewrite Zsum_cons. cbn [length]. lia.
Qed.

(** The rounded average of whole numbers lies between the bounds of the
    numbers. *)
Lemma js_div_average_bounds (zs : list Z) (lo hi : Z) :
  zs <> [] -> Forall (fun z => lo <= z <= hi) zs ->
  0 <= lo -> hi < 2 ^ 53 -> Zsum zs < 2 ^ 53 -> Z.of_nat (length zs) < 2 ^ 53 ->
  js_le (number_of_Z lo)
        (js_div (number_of_Z (Zsum zs)) (number_of_nat (length zs))) = true
  /\ js_le (js_div (number_of_Z (Zsum zs)) (number_of_nat (length zs)))
           (number_of_Z hi) = true.
Proof.
  intros Hne Hall Hlo Hhi Hsum Hlen.
  pose proof (Zsum_bounds zs lo hi Hall) as [Hb1 Hb2].
  assert (Hn : 0 < Z.of_nat (length zs)) by (destruct zs; [congruence | cbn; lia]).
  assert (Hlohi : lo <= hi).
  { destruct zs as [| z zs']; [congruence |]. inversion Hall; subst. lia. }
  unfold number_of_nat. split.
  - apply (js_div_Z_bounds (Zsum zs) (Z.of_nat (length zs)) lo); lia.
  - apply (js_div_Z_bounds (Zsum zs) (Z.of_nat (length zs)) hi); lia.
Qed.

(** The average rating of whole-number ratings: the sum is exact, a review
    without rating counts as a rating of 0 and still counts as a review,
    and the rounded average lies between the smallest and the largest
    rating. *)
Theorem averageRating_whole
    (sales : list SalesData.t) (inventory : list InventoryData.t)
    (reviews : list ReviewData.t) (zs : list Z) (lo hi : Z) :
  Forall has_Review reviews -> reviews <> [] ->
  Forall2 whole_rating reviews zs ->
  Forall (fun z => lo <= z <= hi) zs ->
  0 <= lo -> hi < 2 ^ 53 -> Zsum zs < 2 ^ 53 -> Z.of_nat (length reviews) < 2 ^ 53 ->
  exists s,
    generateBusinessSummary sales inventory reviews = Return s
    /\ averageRating s
       = js_div (number_of_Z (Zsum zs)) (number_of_nat (length reviews))
    /\ js_le (number_of_Z lo) (averageRating s) = true
    /\ js_le (averageRating s) (number_of_Z hi) = true.
Proof.
  intros Hrev Hne Hzs Hall Hlo Hhi Hsum Hlen. unfold generateBusinessSummary.
  destruct (forEach_review_Return reviews zero Hrev) as (score & ->).
  cbn [mbind completion_bind]. eexists. split; [reflexivity |]. cbn [averageRating].
  assert (Hpos : (0 <? length reviews)%nat = true).
  { apply Nat.ltb_lt. destruct reviews; [congruence | cbn; lia]. }
  rewrite Hpos.
  rewrite (fold_number_or_whole_0 ReviewData.Rating reviews zs Hzs) by lia.
  split; [reflexivity |].
  pose proof (Forall2_length _ _ _ Hzs) as Hlen2. rewrite Hlen2 in *.
  apply js_div_average_bounds; try assumption.
  intros ->. destruct reviews; [congruence | discriminate Hlen2].
Qed.

(** The totals of whole-number amounts: when the sum of the amounts stays
    below 2^53, [totalRevenue] is that sum exactly, in whatever order the
    sales come, and the rounded [averageOrderValue] lies between the
    smallest and the largest amount. *)
Theorem averageOrderValue_whole
    (sales : list SalesData.t) (inventory : list InventoryData.t)
    (reviews : list ReviewData.t) (zs : list Z) (lo hi : Z) :
  Forall has_Review reviews -> sales <> [] ->
  Forall2 whole_amount sales zs ->
  Forall (fun z => lo <= z <= hi) zs ->
  0 <= lo -> hi < 2 ^ 53 -> Zsum zs < 2 ^ 53 -> Z.of_nat (length sales) < 2 ^ 53 ->
  exists s,
    generateBusinessSummary sales inventory reviews = Return s
    /\ totalRevenue s = number_of_Z (Zsum zs)
    /\ js_le (number_of_Z lo) (averageOrderValue s) = true
    /\ js_le (averageOrderValue s) (number_of_Z hi) = true.
Proof.
  intros Hrev Hne Hzs Hall Hlo Hhi Hsum Hlen. unfold generateBusinessSummary.
  destruct (forEach_review_Return reviews zero Hrev) as (score & ->).
  cbn [mbind completion_bind]. eexists. split; [reflexivity |].
  cbn [totalRevenue averageOrderValue].
  assert (Hpos : (0 <? length sales)%nat = true).
  { apply Nat.ltb_lt. destruct sales; [congruence | cbn; lia]. }
  rewrite Hpos.
  assert (Hzs' : Forall2 (fun x z => 0 <= z /\ (SalesData.Amount x = Some (number_of_Z z)
                                                \/ (z = 0 /\ SalesData.Amount x = None)))
                         sales zs).
  { clear -Hzs. induction Hzs as [| x z l zs' [H1 H2] _ IH]; constructor; auto. }
  rewrite (fold_number_or_whole_0 SalesData.Amount sales zs Hzs') by lia.
  split; [reflexivity |].
  pose proof (Forall2_length _ _ _ Hzs) as Hlen2. rewrite Hlen2 in *.
  assert (Hzne : zs <> []) by (intros ->; destruct sales; [congruence | discriminate Hlen2]).
  apply js_div_average_bounds; assumption.
Qed.

(** ** The sign of the sentiment score *)

Lemma binary_round_aux_opp (sx : bool) (mx ex : Z) (lx : location) :
  binary_round_aux prec emax (negb sx) mx ex lx
  = SFopp (binary_round_aux prec emax sx mx ex lx).
Proof.
  unfold binary_round_aux.
  destruct (shr_fexp prec emax mx ex lx) as [mrs' e'].
  destruct (shr_fexp prec emax _ e' loc_Exact) as [mrs'' e''].
  destruct (shr_m mrs''); [reflexivity | | reflexivity].
  destruct (e'' <=? emax - prec); reflexivity.
Qed.

(** Dividing the opposite number gives the opposite quotient. *)
Lemma js_div_opp (x y : number) : js_div (SFopp x) y = SFopp (js_div x y).
Proof.
  destruct x as [sx | sx | | sx mx ex], y as [sy | sy | | sy my ey];
    try reflexivity; unfold js_div; cbn [SFdiv SFopp];
    try (destruct sx, sy; reflexivity).
  destruct (SFdiv_core_binary prec emax (Zpos mx) ex (Zpos my) ey) as [[q e'] l].
  rewrite <- binary_round_aux_opp. now destruct sx, sy.
Qed.

(** The quotient of the total delta by the number of reviews. *)
Lemma js_div_Z_sign (a b : Z) :
  Z.abs a < 2 ^ 53 -> 0 < b < 2 ^ 53 ->
  (0 < a -> exists p e, js_div (number_of_Z a) (number_of_Z b) = S754_finite false p e
                        /\ (b <= a -> js_le one (S754_finite false p e) = true))
  /\ (a < 0 -> exists p e, js_div (number_of_Z a) (number_of_Z b) = S754_finite true p e
                           /\ (a <= - b -> js_le one (S754_finite false p e) = true))
  /\ (a = 0 -> js_div (number_of_Z a) (number_of_Z b) = zero).
Proof.
  intros Ha Hb. split; [| split].
  - intros Hpos.
    destruct (js_div_number_of_Z a b ltac:(lia) Hb) as (p & e3 & e2 & Heq & _).
    exists p, e3. split; [exact Heq |]. intros Hle. rewrite <- Heq.
    apply (js_div_Z_bounds a b 1); [lia | lia | split; [lia | reflexivity] | lia].
  - intros Hneg.
    destruct (js_div_number_of_Z (- a) b ltac:(lia) Hb) as (p & e3 & e2 & Heq & _).
    exists p, e3.
    replace a with (- - a) at 1 by lia.
    rewrite number_of_Z_opp by lia. rewrite js_div_opp, Heq.
    split; [reflexivity |]. intros Hle. rewrite <- Heq.
    apply (js_div_Z_bounds (- a) b 1); [lia | lia | split; [lia | reflexivity] | lia].
  - intros ->. destruct (number_of_Z_normal b Hb) as (m & e & -> & _). reflexivity.
Qed.

Lemma one_finite : one = S754_finite false 4503599627370496 (-52).
Proof. reflexivity. Qed.

Lemma minus_one_finite : minus_one = S754_finite true 4503599627370496 (-52).
Proof. reflexivity. Qed.

(** A valid number that is at least 1 and not above 1 is 1. *)
Lemma js_le_one_eq (p : positive) (e : Z) :
  js_le one (S754_finite false p e) = true ->
  js_lt one (S754_finite false p e) = false ->
  S754_finite false p e = one.
Proof.
  rewrite js_le_compare, js_lt_compare. intros Hle Hlt.
  destruct (SFcompare one (S754_finite false p e)) as [[] |] eqn:E; try discriminate.
  rewrite one_finite in E. symmetry. now apply SFcompare_Eq_finite.
Qed.

Lemma js_lt_opp_minus_one (p : positive) (e : Z) :
  js_lt (S754_finite true p e) minus_one = js_lt one (S754_finite false p e).
Proof.
  rewrite !js_lt_compare, one_finite, minus_one_finite. cbn [SFcompare].
  rewrite (Z.compare_antisym e (-52)).
  destruct (e ?= -52) eqn:Ee; cbn [CompOpp]; try reflexivity.
  assert (H : Pos.compare_cont Eq p 4503599627370496
              = CompOpp (Pos.compare_cont Eq 4503599627370496 p))
    by (symmetry; apply (Pos.compare_cont_antisym 4503599627370496 p Eq)).
  rewrite H. destruct (Pos.compare_cont Eq 4503599627370496 p); reflexivity.
Qed.

(** The sign of a clamped quotient of integers is the sign of the
    dividend, and the clamp is reached when the quotient is at least 1 in
    magnitude. *)
Lemma clamp_quotient_sign (d n : Z) :
  Z.abs d < 2 ^ 53 -> 0 < n < 2 ^ 53 ->
  (0 < d -> js_lt zero (clamp (js_div (number_of_Z d) (number_of_Z n)) minus_one one) = true)
  /\ (d < 0 -> js_lt (clamp (js_div (number_of_Z d) (number_of_Z n)) minus_one one) zero = true)
  /\ (d = 0 -> clamp (js_div (number_of_Z d) (number_of_Z n)) minus_one one = zero)
  /\ (n <= d -> clamp (js_div (number_of_Z d) (number_of_Z n)) minus_one one = one)
  /\ (d <= - n -> clamp (js_div (number_of_Z d) (number_of_Z n)) minus_one one = minus_one).
Proof.
  intros Hd Hn.
  destruct (js_div_Z_sign d n Hd Hn) as (Hp & Hm & Hz).
  unfold clamp. split; [| split; [| split; [| split]]].
  - intros H. destruct (Hp H) as (p & e & -> & _).
    change (js_lt (S754_finite false p e) minus_one) with false. cbv iota.
    destruct (js_lt one (S754_finite false p e)); reflexivity.
  - intros H. destruct (Hm H) as (p & e & -> & _).
    change (js_lt one (S754_finite true p e)) with false.
    destruct (js_lt (S754_finite true p e) minus_one); reflexivity.
  - intros H. rewrite (Hz H). reflexivity.
  - intros H. destruct (Hp ltac:(lia)) as (p & e & -> & Hle).
    change (js_lt (S754_finite false p e) minus_one) with false. cbv iota.
    destruct (js_lt one (S754_finite false p e)) eqn:E; [reflexivity |].
    apply js_le_one_eq; [apply Hle, H | exact E].
  - intros H. destruct (Hm ltac:(lia)) as (p & e & -> & Hle).
    rewrite js_lt_opp_minus_one.
    destruct (js_lt one (S754_finite false p e)) eqn:E; [reflexivity |].
    change (js_lt one (S754_finite true p e)) with false. cbv iota.
    pose proof (js_le_one_eq p e (Hle H) E) as Heq. rewrite one_finite in Heq.
    injection Heq as -> ->. reflexivity.
Qed.

(** What the engine computes as sentiment score for reviews that have their
    text. *)
Lemma sentimentScore_value
    (sales : list SalesData.t) (inventory : list InventoryData.t)
    (reviews : list ReviewData.t) :
  Forall has_Review reviews -> reviews <> [] ->
  Z.of_nat (length reviews) < 2 ^ 32 ->
  exists s,
    generateBusinessSummary sales inventory reviews = Return s
    /\ sentimentScore s
       = clamp (js_div (number_of_Z (totalDelta reviews))
                       (number_of_Z (Z.of_nat (length reviews))))
               minus_one one.
Proof.
  intros Hall Hne Hlen.
  assert (H32 : 7 * 2 ^ 32 < 2 ^ 53) by reflexivity.
  assert (Hloop : forEach_review reviews zero = Return (number_of_Z (totalDelta reviews))).
  { change zero with (number_of_Z 0).
    rewrite forEach_review_exact by (trivial; simpl Z.abs; lia). reflexivity. }
  unfold generateBusinessSummary. rewrite Hloop. cbn [mbind completion_bind].
  eexists. split; [reflexivity |]. cbn [sentimentScore].
  assert (Hpos : (0 <? length reviews)%nat = true).
  { apply Nat.ltb_lt. destruct reviews; [congruence | cbn; lia]. }
  rewrite Hpos, Math_max_min_clamp. reflexivity.
Qed.

(** The sign of the sentiment score is the sign of the total delta: the
    score is positive when the positive matches outnumber the negative
    ones over all reviews, negative when they are outnumbered, and 0 when
    they balance. It is exactly 1 (-1) when the total delta is at least
    (at most) the number of reviews (its opposite). *)
Theorem sentimentScore_sign
    (sales : list SalesData.t) (inventory : list InventoryData.t)
    (reviews : list ReviewData.t) :
  Forall has_Review reviews -> reviews <> [] ->
  Z.of_nat (length reviews) < 2 ^ 32 ->
  exists s,
    generateBusinessSummary sales inventory reviews = Return s
    /\ (0 < totalDelta reviews -> js_lt zero (sentimentScore s) = true)
    /\ (totalDelta reviews < 0 -> js_lt (sentimentScore s) zero = true)
    /\ (totalDelta reviews = 0 -> sentimentScore s = zero)
    /\ (Z.of_nat (length reviews) <= totalDelta reviews -> sentimentScore s = one)
    /\ (totalDelta reviews <= - Z.of_nat (length reviews) -> sentimentScore s = minus_one).
Proof.
  intros Hall Hne Hlen.
  destruct (sentimentScore_value sales inventory reviews Hall Hne Hlen)
    as (s & Hs & Hscore).
  exists s. split; [exact Hs |]. rewrite Hscore.
  assert (H32 : 7 * 2 ^ 32 < 2 ^ 53) by reflexivity.
  pose proof (totalDelta_bound reviews) as Hbound.
  apply clamp_quotient_sign; [lia |].
  destruct reviews; [congruence | cbn [length] in *; lia].
Qed.

(** ** Order: the listed items come first *)

Lemma js_le_trans (x y z : number) :
  is_number x -> is_number y -> is_number z ->
  js_le x y = true -> js_le y z = true -> js_le x z = true.
Proof.
  intros Hx Hy Hz. rewrite !js_le_compare.
  destruct x as [sx | sx | | sx mx ex], y as [sy | sy | | sy my ey],
           z as [sz | sz | | sz mz ez];
    try (cbn [SFcompare]; discriminate);
    try (destruct sx, sy, sz; cbn [SFcompare]; congruence);
    try (destruct sx, sy; cbn [SFcompare]; congruence);
    try (destruct sy, sz; cbn [SFcompare]; congruence);
    try (destruct sx, sz; cbn [SFcompare]; congruence).
  set (E := Z.min ex (Z.min ey ez)).
  rewrite (SFcompare_value sx sy mx my ex ey E) by (try assumption; unfold E; lia).
  rewrite (SFcompare_value sy sz my mz ey ez E) by (try assumption; unfold E; lia).
  rewrite (SFcompare_value sx sz mx mz ex ez E) by (try assumption; unfold E; lia).
  set (A := cond_Zopp sx _). set (B := cond_Zopp sy _). set (C := cond_Zopp sz _).
  destruct (Z.compare_spec A B), (Z.compare_spec B C), (Z.compare_spec A C);
    try discriminate; try reflexivity; lia.
Qed.

(** In a list sorted by a relation that is transitive on its elements,
    every element of a prefix is related to every element after it. *)
Lemma Sorted_firstn_skipn {A : Type} (R : A -> A -> Prop) (P : A -> Prop)
    (l : list A) (n : nat) :
  (forall x y z, P x -> P y -> P z -> R x y -> R y z -> R x z) ->
  Forall P l -> Sorted R l ->
  forall a b, In a (firstn n l) -> In b (skipn n l) -> R a b.
Proof.
  intros Htrans HP Hs.
  assert (Hall : forall l, Forall P l -> Sorted R l ->
                 match l with [] => True | x :: r => Forall (R x) r end).
  { clear l HP Hs. induction l as [| x l IH]; intros HP Hs; [exact I |].
    inversion HP as [| ? ? Hx HPl]; subst. inversion Hs as [| ? ? Hsl Hhd]; subst.
    specialize (IH HPl Hsl). destruct l as [| y l]; [constructor |].
    inversion Hhd; subst. inversion HPl as [| ? ? Hy HPl']; subst.
    constructor; [assumption |].
    apply List.Forall_forall. intros z Hz.
    rewrite List.Forall_forall in IH, HPl'.
    apply (Htrans x y z); auto. }
  revert l HP Hs. induction n as [| n IH]; intros l HP Hs a b Ha Hb; [destruct Ha |].
  destruct l as [| x l]; [destruct Ha |].
  cbn [firstn skipn] in *. inversion HP as [| ? ? Hx HPl]; subst.
  inversion Hs as [| ? ? Hsl Hhd]; subst.
  destruct Ha as [<- | Ha].
  - specialize (Hall (x :: l) HP Hs). cbn in Hall. rewrite List.Forall_forall in Hall.
    apply Hall. revert Hb. clear. revert l. induction n as [| n IHn]; intros l Hb.
    + exact Hb.
    + destruct l as [| y l]; [destruct Hb |]. right. apply IHn. exact Hb.
  - now apply (IH l).
Qed.

Lemma In_firstn_or_skipn {A : Type} (n : nat) (l : list A) (x : A) :
  In x l -> In x (firstn n l) \/ In x (skipn n l).
Proof.
  intros Hin. rewrite <- (firstn_skipn n l) in Hin. now apply in_app_or in Hin.
Qed.

(** The listed products are the best sellers, when the amounts are finite
    numbers and no product is a name that [Object.prototype] defines: a
    product that has sales and is not listed has a revenue that does not
    exceed the revenue of any listed product. *)
Theorem topProducts_best
    (sales : list SalesData.t) (inventory : list InventoryData.t)
    (reviews : list ReviewData.t) :
  Forall has_Review reviews -> Forall amount_finite sales -> Forall plain_product sales ->
  exists s,
    generateBusinessSummary sales inventory reviews = Return s
    /\ forall (tp : TopProduct.t) (key : string),
         In tp (topProducts s) ->
         group key sales <> [] ->
         ~ In key (map TopProduct.product (topProducts s)) ->
         js_le (sum_numbers (map amount_value (group key sales)))
               (TopProduct.revenue tp) = true.
Proof.
  intros Hrev Hfin _. unfold generateBusinessSummary.
  destruct (forEach_review_Return reviews zero Hrev) as (score & ->).
  cbn [mbind completion_bind]. eexists. split; [reflexivity |]. cbn [topProducts].
  rewrite topProducts_firstn.
  destruct (ranking_spec sales Hfin) as (Hnd & Hkeys & Hrevs & Hsorted).
  intros tp key Htp Hgroup Hnot.
  apply Hkeys, in_map_iff in Hgroup. destruct Hgroup as (other & <- & Hother).
  destruct (Hrevs other Hother) as [<- Hok].
  destruct (In_firstn_or_skipn 5 _ _ Hother) as [Hin | Hin].
  { exfalso. apply Hnot. now apply in_map. }
  apply (Sorted_firstn_skipn descending (fun tp => revenue_ok (TopProduct.revenue tp))
           (ranking sales) 5); try assumption.
  - unfold descending. intros x y z (Hx & _) (Hy & _) (Hz & _) Hxy Hyz.
    now apply (js_le_trans _ (TopProduct.revenue y)).
  - apply List.Forall_forall. intros x Hx. now apply Hrevs.
Qed.

(** The records listed as low stock are the lowest: a low-stock record of
    the inventory is listed, or its stock is at least the stock of every
    listed item. *)
Theorem lowStockItems_lowest
    (sales : list SalesData.t) (inventory : list InventoryData.t)
    (reviews : list ReviewData.t) :
  Forall has_Review reviews -> Forall inventory_ok inventory ->
  exists s,
    generateBusinessSummary sales inventory reviews = Return s
    /\ forall (it : LowStockItem.t) (item : InventoryData.t),
         In it (lowStockItems s) ->
         In item inventory -> low_stock item = true ->
         In (LowStockItem.mk (InventoryData.Product item) (InventoryData.Stock item))
            (lowStockItems s)
         \/ js_le (ToNumber (LowStockItem.stock it)) (ToNumber (InventoryData.Stock item))
            = true.
Proof.
  intros Hrev Hok. unfold generateBusinessSummary.
  destruct (forEach_review_Return reviews zero Hrev) as (score & ->).
  cbn [mbind completion_bind]. eexists. split; [reflexivity |]. cbn [lowStockItems].
  set (low := List.filter low_stock inventory).
  set (mk := fun item => LowStockItem.mk (InventoryData.Product item)
                                         (InventoryData.Stock item)).
  set (R := fun a b => js_le (ToNumber (InventoryData.Stock a))
                             (ToNumber (InventoryData.Stock b)) = true).
  pose proof (Array_sort_Permutation compare_stock low) as Hperm.
  assert (Hlow : forall item, In item low ->
            In item inventory
            /\ exists x, InventoryData.Stock item = Some x /\ is_number x
                         /\ isNaN x = false).
  { intros item Hin. apply filter_In in Hin.
    destruct Hin as [Hin Hls]. split; [exact Hin |]. unfold low_stock in Hls.
    rewrite List.Forall_forall in Hok. specialize (Hok item Hin).
    destruct (InventoryData.Stock item) as [x |] eqn:Ex; [| discriminate Hls].
    exists x. split; [reflexivity |]. split; [exact (Hok x Ex) |].
    now apply js_lt_not_NaN in Hls. }
  assert (Hsorted : Sorted R (Array_sort compare_stock low)).
  { apply Array_sort_Sorted. intros a b Ha Hb.
    destruct (Hlow a Ha) as (_ & xa & Hxa & Hva & Hna).
    destruct (Hlow b Hb) as (_ & xb & Hxb & Hvb & Hnb).
    unfold sorts_before, compare_stock, R. rewrite Hxa, Hxb. cbn [ToNumber].
    rewrite js_sub_negative by assumption.
    destruct (js_lt xb xa) eqn:E.
    - now apply js_lt_le.
    - now apply js_le_of_not_lt. }
  intros it item Hit Hitem Hls.
  assert (Hin : In item (Array_sort compare_stock low)).
  { apply (Permutation_in _ (Permutation_sym Hperm)), filter_In. now split. }
  apply in_map_iff in Hit. destruct Hit as (a & <- & Ha).
  destruct (In_firstn_or_skipn 10 _ _ Hin) as [Hfirst | Hrest].
  - left. now apply (in_map mk).
  - right. cbn [LowStockItem.stock].
    apply (Sorted_firstn_skipn R
             (fun item => is_number (ToNumber (InventoryData.Stock item)))
             (Array_sort compare_stock low) 10); try assumption.
    + unfold R. intros x y z Hx Hy Hz. apply js_le_trans; assumption.
    + apply List.Forall_forall. intros x Hx.
      apply (Permutation_in _ Hperm) in Hx.
      destruct (Hlow x Hx) as (_ & v & -> & Hv & _). exact Hv.
Qed.

(** ** Order: products with the same revenue *)

Lemma js_sub_diag (v : number) : js_lt (js_sub v v) zero = false.
Proof.
  destruct v as [[] | [] | | s m e]; try reflexivity.
  unfold js_sub. cbn [SFsub].
  replace (cond_Zopp s (Zpos (shl_align m e (Z.min e e)).1)
           - cond_Zopp s (Zpos (shl_align m e (Z.min e e)).1)) with 0 by lia.
  reflexivity.
Qed.

(** A stable sort keeps the order of the elements of a class that no
    element of the class is sorted into. *)
Lemma sort_insert_filter {A : Type} (cmp : A -> A -> number) (f : A -> bool)
    (x : A) (l : list A) :
  (forall y, f x = true -> f y = true -> sorts_before cmp y x = false) ->
  List.filter f (sort_insert cmp x l) = List.filter f (x :: l).
Proof.
  intros Hclass. induction l as [| y l IH]; [reflexivity |].
  cbn [sort_insert]. destruct (sorts_before cmp y x) eqn:E; [| reflexivity].
  cbn [List.filter] in *. rewrite IH.
  destruct (f x) eqn:Hx; [| reflexivity].
  destruct (f y) eqn:Hy; [| reflexivity].
  rewrite (Hclass y eq_refl Hy) in E. discriminate E.
Qed.

Lemma Array_sort_filter {A : Type} (cmp : A -> A -> number) (f : A -> bool) (l : list A) :
  (forall x y, f x = true -> f y = true -> sorts_before cmp y x = false) ->
  List.filter f (Array_sort cmp l) = List.filter f l.
Proof.
  intros Hclass. induction l as [| x l IH]; [reflexivity |].
  cbn [Array_sort]. rewrite sort_insert_filter by (intros y; apply Hclass).
  cbn [List.filter]. now rewrite IH.
Qed.

Lemma filter_map_swap {A B : Type} (g : A -> B) (f : B -> bool) (l : list A) :
  List.filter f (map g l) = map g (List.filter (fun x => f (g x)) l).
Proof.
  induction l as [| x l IH]; [reflexivity |]. cbn [map List.filter].
  destruct (f (g x)); cbn [map]; now rewrite IH.
Qed.

(** The names of the accumulator are the product names in the order of
    their first sale. *)
Lemma fold_add_revenue_keys (sales : list SalesData.t) (acc : object) :
  map fst (fold_left add_revenue sales acc)
  = fold_left (fun seen key => if existsb (String.eqb key) seen then seen else seen ++ [key])
              (map product_key sales) (map fst acc).
Proof.
  revert acc. induction sales as [| sale sales IH]; intros acc; [reflexivity |].
  cbn [fold_left map]. rewrite IH. f_equal. unfold add_revenue. apply obj_set_keys.
Qed.

(** [Object.entries] lists an object none of whose names is an array index
    in the order of creation. *)
Lemma Object_entries_no_index (acc : object) :
  Forall (fun kv => array_index (fst kv) = None) acc -> Object_entries acc = acc.
Proof.
  intros Hall. unfold Object_entries.
  induction Hall as [| kv l Hkv Hall IH]; [reflexivity |].
  assert (Hf : is_array_index kv = false) by (unfold is_array_index; now rewrite Hkv).
  cbn [List.filter]. rewrite Hf. cbn [negb].
  destruct (List.filter is_array_index l) as [| e r] eqn:E.
  - simpl in IH |- *. now rewrite IH.
  - exfalso. assert (Hin : In e (List.filter is_array_index l)) by (rewrite E; now left).
    apply filter_In in Hin. destruct Hin as [Hin He].
    clear -Hall Hin He. rewrite List.Forall_forall in Hall. specialize (Hall e Hin).
    unfold is_array_index in He. now rewrite Hall in He.
Qed.

(** Ties in the ranking, when the amounts are finite numbers: products
    with the same revenue are listed in the order of [Object.entries], which
    is the order of their first sale when no product name is an array index
    or a name that [Object.prototype] defines. *)
Theorem ranking_ties (sales : list SalesData.t) :
  Forall amount_finite sales -> Forall plain_product sales ->
  Forall (fun sale => array_index (product_key sale) = None) sales ->
  exists groups,
    Permutation (ranking sales) groups
    /\ map TopProduct.product groups = first_seen (map product_key sales)
    /\ forall v, with_revenue v (ranking sales) = with_revenue v groups.
Proof.
  intros _ _ Hkeys.
  exists (map (fun kv => TopProduct.mk (fst kv) (snd kv)) (productRevenue sales)).
  assert (Hentries : Object_entries (productRevenue sales) = productRevenue sales).
  { apply Object_entries_no_index, List.Forall_forall. intros [k v] Hin.
    assert (Hk : In k (map fst (productRevenue sales))) by (apply in_map_iff; now exists (k, v)).
    unfold productRevenue in Hk. rewrite fold_add_revenue_keys in Hk. cbn [map] in Hk.
    assert (Hsub : forall keys seen,
              In k (fold_left (fun seen key =>
                                 if existsb (String.eqb key) seen then seen else seen ++ [key])
                              keys seen) -> In k seen \/ In k keys).
    { induction keys as [| key keys IH]; intros seen Hk'; [now left |].
      cbn [fold_left] in Hk'. apply IH in Hk'. destruct Hk' as [Hk' | Hk']; [| right; now right].
      destruct (existsb (String.eqb key) seen); [now left |].
      apply in_app_or in Hk'. destruct Hk' as [Hk' | [<- | []]]; [now left | right; now left]. }
    apply Hsub in Hk. destruct Hk as [[] | Hk].
    apply in_map_iff in Hk. destruct Hk as (sale & <- & Hsale).
    rewrite List.Forall_forall in Hkeys. now apply Hkeys. }
  split; [| split].
  - rewrite ranking_entries. apply Permutation_map.
    rewrite <- Hentries at 2. apply Array_sort_Permutation.
  - rewrite map_map. cbn [TopProduct.product].
    change (map (fun x => fst x) (productRevenue sales)) with (map fst (productRevenue sales)).
    unfold productRevenue. now rewrite fold_add_revenue_keys.
  - intros v. unfold with_revenue. rewrite ranking_entries, Hentries.
    rewrite !filter_map_swap. f_equal. apply Array_sort_filter.
    intros x y Hx Hy. cbn [TopProduct.revenue] in Hx, Hy.
    apply bool_decide_eq_true in Hx, Hy.
    unfold sorts_before, compare_revenue. rewrite Hx, Hy. apply js_sub_diag.
Qed.

(** Product names that are array indices come first, in ascending numeric
    order, whatever their revenue ties with. *)
Example ranking_index_names :
  map TopProduct.product
      (ranking [sale "Kurta" (number_of_Z 5); sale "10" (number_of_Z 5);
                sale "Saree" (number_of_Z 5); sale "9" (number_of_Z 5)])
  = ["9"; "10"; "Kurta"; "Saree"]%string.
Proof. reflexivity. Qed.

(** ** The demo summary and the aggregation engine *)

(** On a number that is not NaN, [x || 0] adds the same to a sum as [x]. *)
Lemma js_add_number_or (acc : number) (x : option number) :
  acc <> S754_zero true -> (forall v, x = Some v -> isNaN v = false) -> x <> None ->
  js_add acc (number_or x zero) = js_add acc (ToNumber x).
Proof.
  intros Hacc Hx Hsome. destruct x as [v |]; [| congruence].
  specialize (Hx v eq_refl). cbn [ToNumber number_or].
  destruct v as [[] | [] | | s m e]; cbn; try reflexivity; try discriminate.
  symmetry. now apply js_add_neg_zero.
Qed.

Lemma number_or_not_neg_zero (x : option number) : number_or x zero <> S754_zero true.
Proof. destruct x as [[[] | [] | | s m e] |]; discriminate. Qed.

Lemma fold_add_number_or {A : Type} (get : A -> option number) (l : list A) (acc : number) :
  Forall (fun x => holds_number (get x)) l ->
  is_number acc -> acc <> S754_zero true ->
  fold_left (fun sum x => js_add sum (number_or (get x) zero)) l acc
  = fold_left (fun sum x => js_add sum (ToNumber (get x))) l acc.
Proof.
  intros Hall. revert acc.
  induction Hall as [| x l (v & Hv & Hval & Hnan) _ IH]; intros acc Hacc Hnz; [reflexivity |].
  cbn [fold_left].
  rewrite js_add_number_or; [| exact Hnz | intros w Hw; congruence | congruence].
  apply IH.
  - apply js_add_is_number; [exact Hacc |]. rewrite Hv. exact Hval.
  - rewrite <- js_add_number_or; [| exact Hnz | intros w Hw; congruence | congruence].
    apply js_add_not_neg_zero; [exact Hacc | | apply number_or_not_neg_zero].
    rewrite Hv. cbn [number_or]. destruct (number_truthy v); [exact Hval | reflexivity].
Qed.

Lemma demo_add_revenue_eq (acc : object) (sale : SalesData.t) :
  demo_sale sale -> demo_add_revenue acc sale = add_revenue acc sale.
Proof.
  intros (v & Hv & _ & Hnan). unfold demo_add_revenue, add_revenue. f_equal.
  symmetry. apply js_add_number_or;
    [apply number_or_not_neg_zero | intros w Hw; congruence | congruence].
Qed.

Lemma fold_demo_add_revenue (sales : list SalesData.t) (acc : object) :
  Forall demo_sale sales ->
  fold_left demo_add_revenue sales acc = fold_left add_revenue sales acc.
Proof.
  intros Hall. revert acc. induction Hall as [| sale sales Hs _ IH]; intros acc;
    [reflexivity |].
  cbn [fold_left]. rewrite demo_add_revenue_eq by exact Hs. apply IH.
Qed.

Lemma firstn_firstn_min {A : Type} (l : list A) : firstn 5 (firstn 10 l) = firstn 5 l.
Proof. rewrite firstn_firstn. reflexivity. Qed.

(** The demo summary against the engine, on data such as the generators
    produce (every amount and rating a number, every item with an alert
    level other than 0): the revenue total, the order count and the top
    products are the engine's; the averages are the engine's unless the
    list is empty, where the unguarded division 0 / 0 gives NaN and the
    engine gives 0; the low-stock list is the first five of the engine's
    ten; the sentiment score is 0.3 whatever the reviews say. *)
Theorem demo_summary_engine
    (sales : list SalesData.t) (inventory : list InventoryData.t)
    (reviews : list ReviewData.t) :
  Forall demo_sale sales -> Forall demo_item inventory -> Forall demo_review reviews ->
  exists s,
    generateBusinessSummary sales inventory reviews = Return s
    /\ totalRevenue (demo_summary sales inventory reviews) = totalRevenue s
    /\ totalOrders (demo_summary sales inventory reviews) = totalOrders s
    /\ topProducts (demo_summary sales inventory reviews) = topProducts s
    /\ lowStockItems (demo_summary sales inventory reviews) = firstn 5 (lowStockItems s)
    /\ averageOrderValue (demo_summary sales inventory reviews)
       = match sales with [] => NaN | _ :: _ => averageOrderValue s end
    /\ averageRating (demo_summary sales inventory reviews)
       = match reviews with [] => NaN | _ :: _ => averageRating s end
    /\ (sales = [] -> averageOrderValue s = zero)
    /\ (reviews = [] -> averageRating s = zero)
    /\ sentimentScore (demo_summary sales inventory reviews) = parseFloat "0.3".
Proof.
  intros Hsales Hinv Hrev. unfold generateBusinessSummary.
  destruct (forEach_review_Return reviews zero) as (score & ->).
  { apply (List.Forall_impl (P := demo_review)); [now intros r [_ H] | exact Hrev]. }
  cbn [mbind completion_bind]. eexists. split; [reflexivity |].
  unfold demo_summary.
  cbn [totalRevenue totalOrders topProducts lowStockItems averageOrderValue averageRating
       sentimentScore].
  assert (Htotal :
    fold_left (fun sum sale => js_add sum (number_or (SalesData.Amount sale) zero)) sales zero
    = fold_left (fun sum sale => js_add sum (ToNumber (SalesData.Amount sale))) sales zero).
  { apply (fold_add_number_or SalesData.Amount); [exact Hsales | reflexivity | discriminate]. }
  assert (Hrating :
    fold_left (fun sum review => js_add sum (number_or (ReviewData.Rating review) zero))
              reviews zero
    = fold_left (fun sum review => js_add sum (ToNumber (ReviewData.Rating review)))
                reviews zero).
  { apply (fold_add_number_or ReviewData.Rating); [| reflexivity | discriminate].
    apply (List.Forall_impl (P := demo_review)); [now intros r [H _] | exact Hrev]. }
  rewrite Htotal, Hrating, fold_demo_add_revenue by exact Hsales.
  split; [reflexivity |]. split; [reflexivity |]. split; [reflexivity |].
  split; [| split; [| split; [| split; [| split]]]].
  - unfold demo_lowStockItems. rewrite firstn_map, firstn_firstn_min. do 3 f_equal.
    clear -Hinv. induction Hinv as [| item l (v & Hv & Ht) _ IH]; [reflexivity |].
    cbn [List.filter]. rewrite IH.
    replace (demo_low_stock item) with (low_stock item); [reflexivity |].
    unfold low_stock, demo_low_stock. rewrite Hv. cbn [number_or ToNumber]. now rewrite Ht.
  - destruct sales; [reflexivity | reflexivity].
  - destruct reviews; [reflexivity | reflexivity].
  - intros ->. reflexivity.
  - intros ->. reflexivity.
  - reflexivity.
Qed.

(** ** No NaN in the summary *)

Lemma number_or_finite (x : option number) :
  finite_field x ->
  isNaN (number_or x zero) = false /\ forall s, number_or x zero <> S754_infinity s.
Proof.
  intros Hx. unfold number_or. destruct x as [v |]; [| split; [reflexivity | discriminate]].
  destruct (Hx v eq_refl) as [_ Hinf].
  destruct (number_truthy v) eqn:E; [| split; [reflexivity | discriminate]].
  split; [| exact Hinf]. unfold number_truthy in E. now destruct v.
Qed.

Lemma fold_number_or_not_NaN {A : Type} (get : A -> option number) (l : list A)
    (acc : number) :
  Forall (fun x => finite_field (get x)) l -> isNaN acc = false ->
  isNaN (fold_left (fun sum x => js_add sum (number_or (get x) zero)) l acc) = false.
Proof.
  intros Hall. revert acc. induction Hall as [| x l Hx _ IH]; intros acc Hacc; [exact Hacc |].
  cbn [fold_left]. apply IH. destruct (number_or_finite (get x) Hx) as [Hnan Hinf].
  now apply js_add_not_NaN.
Qed.

Lemma js_le_not_NaN (x y : number) : js_le x y = true -> isNaN y = false.
Proof. rewrite js_le_compare. destruct x, y; try reflexivity; discriminate. Qed.

(** On sales and reviews whose amounts and ratings are finite numbers, or
    missing, no figure of the summary is NaN; for the revenues of the listed
    products, when no product is a name that [Object.prototype] defines. *)
Theorem summary_not_NaN
    (sales : list SalesData.t) (inventory : list InventoryData.t)
    (reviews : list ReviewData.t) :
  Forall has_Review reviews ->
  Forall amount_finite sales ->
  Forall (fun review => finite_field (ReviewData.Rating review)) reviews ->
  Z.of_nat (length sales) < 2 ^ 32 -> Z.of_nat (length reviews) < 2 ^ 32 ->
  exists s,
    generateBusinessSummary sales inventory reviews = Return s
    /\ isNaN (totalRevenue s) = false
    /\ isNaN (averageOrderValue s) = false
    /\ isNaN (averageRating s) = false
    /\ isNaN (sentimentScore s) = false
    /\ (Forall plain_product sales ->
        Forall (fun tp => isNaN (TopProduct.revenue tp) = false) (topProducts s)).
Proof.
  intros Hrev Hsales Hratings Hslen Hrlen.
  assert (H32 : 7 * 2 ^ 32 < 2 ^ 53) by reflexivity.
  assert (Hloop : forEach_review reviews zero = Return (number_of_Z (totalDelta reviews))).
  { change zero with (number_of_Z 0).
    rewrite forEach_review_exact by (trivial; simpl Z.abs; lia). reflexivity. }
  unfold generateBusinessSummary. rewrite Hloop. cbn [mbind completion_bind].
  eexists. split; [reflexivity |].
  cbn [totalRevenue averageOrderValue averageRating sentimentScore topProducts].
  assert (Htotal : isNaN (fold_left (fun sum sale =>
                     js_add sum (number_or (SalesData.Amount sale) zero)) sales zero) = false).
  { now apply (fold_number_or_not_NaN SalesData.Amount). }
  assert (Hstars : isNaN (fold_left (fun sum review =>
                     js_add sum (number_or (ReviewData.Rating review) zero)) reviews zero)
                   = false).
  { now apply (fold_number_or_not_NaN ReviewData.Rating). }
  split; [exact Htotal |]. split; [| split; [| split]].
  - destruct (0 <? length sales)%nat eqn:E; [| reflexivity]. apply Nat.ltb_lt in E.
    destruct (number_of_nat_finite (length sales)) as (m & e & ->); [lia | lia |].
    now apply js_div_not_NaN.
  - destruct (0 <? length reviews)%nat eqn:E; [| reflexivity]. apply Nat.ltb_lt in E.
    destruct (number_of_nat_finite (length reviews)) as (m & e & ->); [lia | lia |].
    now apply js_div_not_NaN.
  - destruct (0 <? length reviews)%nat eqn:E; [| reflexivity]. apply Nat.ltb_lt in E.
    rewrite Math_max_min_clamp.
    destruct (number_of_nat_finite (length reviews)) as (m & e & ->); [lia | lia |].
    apply (js_le_not_NaN minus_one), clamp_range, js_div_not_NaN, number_of_Z_not_NaN.
  - intros _. rewrite topProducts_firstn. apply List.Forall_forall. intros tp Htp.
    apply In_firstn in Htp.
    destruct (ranking_spec sales Hsales) as (_ & _ & Hok & _).
    now destruct (Hok tp Htp) as (_ & _ & Hnan & _).
Qed.

Lemma summary_not_NaN_witness :
  exists s,
    generateBusinessSummary
      [sale "A" (number_of_Z 100); sale "B" (parseFloat "-12.5");
       SalesData.mk None (Some "A"%string) None None None None None]
      []
      [review 5 "Great quality"; review 1 "Terrible service"]
    = Return s
    /\ isNaN (averageOrderValue s) = false /\ isNaN (averageRating s) = false
    /\ Forall (fun tp => isNaN (TopProduct.revenue tp) = false) (topProducts s).
Proof.
  destruct (summary_not_NaN
      [sale "A" (number_of_Z 100); sale "B" (parseFloat "-12.5");
       SalesData.mk None (Some "A"%string) None None None None None]
      []
      [review 5 "Great quality"; review 1 "Terrible service"])
    as (s & Hs & _ & Havg & Hrating & _ & Htop).
  - repeat constructor; discriminate.
  - repeat (apply List.Forall_cons;
            [intros x [= <-]; split; [reflexivity | intros []; discriminate] |]).
    apply List.Forall_cons; [intros x [=] |]. apply List.Forall_nil.
  - repeat (apply List.Forall_cons;
            [intros x [= <-]; split; [reflexivity | intros []; discriminate] |]).
    apply List.Forall_nil.
  - reflexivity.
  - reflexivity.
  - exists s. split; [exact Hs |]. split; [exact Havg |]. split; [exact Hrating |].
    apply Htop. repeat (apply List.Forall_cons; [reflexivity |]). apply List.Forall_nil.
Defined.

(** ** What the sales validator looks at *)

Lemma check_types_fold_type_errors (rows : list (nat * row)) (errs : list string) :
  fold_left check_types rows errs = errs ++ flat_map type_errors rows.
Proof.
  revert errs. induction rows as [| [i r] rows IH]; intros errs.
  - simpl. now rewrite app_nil_r.
  - simpl. rewrite IH. unfold type_errors at 2, cell_accepted, push. cbn [fst snd].
    destruct (truthy (r !! "Quantity"%string) && isNaN (Number (r !! "Quantity"%string)));
      destruct (truthy (r !! "Amount"%string) && isNaN (Number (r !! "Amount"%string)));
      cbn [negb]; rewrite <- ?app_assoc; reflexivity.
Qed.

Lemma validateSalesData_errors (firstRow : row) (rest : list row) :
  errors (validateSalesData (firstRow :: rest))
  = missing_field_errors ["Date"; "Product"; "Quantity"; "Amount"]%string firstRow
    ++ flat_map type_errors (indexed 0 (firstn 5 (firstRow :: rest))).
Proof.
  unfold validateSalesData. cbn [errors].
  now rewrite check_required_fold, check_types_fold_type_errors.
Qed.

Lemma missing_field_errors_nil (requiredFields : list string) (firstRow : row) :
  missing_field_errors requiredFields firstRow = []
  <-> Forall (fun name => is_Some (firstRow !! name)) requiredFields.
Proof.
  unfold missing_field_errors. induction requiredFields as [| name l IH]; simpl.
  - split; [constructor | reflexivity].
  - unfold has_field at 1. destruct (decide (is_Some (firstRow !! name))) as [Hs | Hn].
    + rewrite bool_decide_true by exact Hs. simpl. rewrite IH. split.
      * intros H. now apply List.Forall_cons.
      * intros H. now inversion H.
    + rewrite bool_decide_false by exact Hn. simpl. split; [discriminate |].
      intros H. inversion H. contradiction.
Qed.

Lemma type_errors_nil (rows : list row) (i : nat) :
  flat_map type_errors (indexed i rows) = []
  <-> Forall (fun r => cell_accepted (r !! "Quantity"%string) = true
                       /\ cell_accepted (r !! "Amount"%string) = true) rows.
Proof.
  revert i. induction rows as [| r rows IH]; intros i; simpl.
  - split; [constructor | reflexivity].
  - unfold type_errors at 1. cbn [fst snd]. split.
    + intros H. apply app_eq_nil in H. destruct H as [H1 H2].
      apply app_eq_nil in H1. destruct H1 as [Hq Ha].
      apply List.Forall_cons; [| now apply (IH (S i))].
      destruct (cell_accepted (r !! "Quantity"%string)); [| discriminate Hq].
      destruct (cell_accepted (r !! "Amount"%string)); [| discriminate Ha]. auto.
    + intros H. inversion H as [| ? ? [Hq Ha] Hrest]; subst.
      rewrite Hq, Ha. simpl. now apply IH.
Qed.

(** The sales validator accepts a file exactly when it has a row, the first
    row has the four required columns, and in each of the first five rows
    the Quantity and Amount cells are falsy or numeric. Nothing else is
    looked at. *)
Theorem validateSalesData_valid_iff (data : list row) :
  valid (validateSalesData data) = true
  <-> exists firstRow rest,
        data = firstRow :: rest
        /\ Forall (fun name => is_Some (firstRow !! name))
                  ["Date"; "Product"; "Quantity"; "Amount"]%string
        /\ Forall (fun r => cell_accepted (r !! "Quantity"%string) = true
                            /\ cell_accepted (r !! "Amount"%string) = true)
                  (firstn 5 data).
Proof.
  destruct data as [| firstRow rest].
  - split; [discriminate |]. intros (f & r & H & _). discriminate H.
  - assert (Hv : valid (validateSalesData (firstRow :: rest)) = true
                 <-> errors (validateSalesData (firstRow :: rest)) = [])
      by apply valid_iff_no_errors.
    rewrite Hv, validateSalesData_errors. split.
    + intros H. apply app_eq_nil in H. destruct H as [H1 H2].
      exists firstRow, rest. split; [reflexivity |].
      split; [now apply missing_field_errors_nil | now apply (type_errors_nil _ 0)].
    + intros (f & r & [= <- <-] & H1 & H2).
      apply missing_field_errors_nil in H1. apply (type_errors_nil _ 0) in H2.
      now rewrite H1, H2.
Qed.

(** Rows after the fifth never change the verdict of the sales validator
    or its messages. *)
Theorem validateSalesData_ignores_later_rows (checked later : list row) :
  length checked = 5%nat ->
  validateSalesData (checked ++ later) = validateSalesData checked.
Proof.
  intros Hlen. destruct checked as [| firstRow rest]; [discriminate Hlen |].
  unfold validateSalesData. cbn [app].
  change (firstRow :: rest ++ later) with ((firstRow :: rest) ++ later).
  rewrite firstn_app, Hlen. cbn [Nat.sub firstn]. rewrite app_nil_r.
  reflexivity.
Qed.

(** ** Reading numbers from text *)

Lemma append_cons (x : ascii) (a b : string) :
  (String x a +:+ b)%string = String x (a +:+ b).
Proof. reflexivity. Qed.

Lemma append_assoc (a b c : string) : ((a +:+ b) +:+ c = a +:+ (b +:+ c))%string.
Proof. induction a as [| x a IH]; [reflexivity |]. rewrite !append_cons. now f_equal. Qed.

Lemma append_nil_r (a : string) : (a +:+ EmptyString)%string = a.
Proof. induction a as [| x a IH]; [reflexivity |]. rewrite append_cons. now f_equal. Qed.

Lemma rev_string_app (s acc : string) :
  rev_string s acc = (rev_string s EmptyString +:+ acc)%string.
Proof.
  revert acc. induction s as [| c s IH]; intros acc; cbn [rev_string]; [reflexivity |].
  rewrite (IH (String c acc)), (IH (String c EmptyString)).
  rewrite append_assoc. reflexivity.
Qed.

Lemma rev_string_append (a b : string) :
  rev_string (a +:+ b) EmptyString
  = (rev_string b EmptyString +:+ rev_string a EmptyString)%string.
Proof.
  induction a as [| c a IH].
  - cbn [rev_string]. now rewrite append_nil_r.
  - rewrite append_cons. cbn [rev_string].
    rewrite (rev_string_app (a +:+ b)), IH, (rev_string_app a (String c EmptyString)).
    now rewrite append_assoc.
Qed.

Lemma rev_string_involutive (s : string) :
  rev_string (rev_string s EmptyString) EmptyString = s.
Proof.
  induction s as [| c s IH]; cbn [rev_string]; [reflexivity |].
  rewrite (rev_string_app s), rev_string_append, IH. reflexivity.
Qed.

(** [trim_start] removes a prefix. *)
Lemma trim_start_suffix (back : bool) (s : string) :
  exists pre, s = (pre +:+ trim_start back s)%string.
Proof.
  remember (String.length s) as n eqn:Hn.
  revert s Hn. induction n as [n IH] using lt_wf_ind. intros s Hn.
  destruct s as [| c1 r1]; [exists EmptyString; reflexivity |].
  cbn [trim_start]. destruct (ws1 c1).
  { destruct (IH (String.length r1)) with (s := r1) as (pre & Hpre);
      [subst n; simpl; lia | reflexivity |].
    exists (String c1 pre). rewrite append_cons. now rewrite <- Hpre. }
  destruct r1 as [| c2 r2]; [exists EmptyString; reflexivity |].
  destruct (if back then ws2 c2 c1 else ws2 c1 c2).
  { destruct (IH (String.length r2)) with (s := r2) as (pre & Hpre);
      [subst n; simpl; lia | reflexivity |].
    exists (String c1 (String c2 pre)). rewrite !append_cons. now rewrite <- Hpre. }
  destruct r2 as [| c3 r3]; [exists EmptyString; reflexivity |].
  destruct (if back then ws3 c3 c2 c1 else ws3 c1 c2 c3).
  { destruct (IH (String.length r3)) with (s := r3) as (pre & Hpre);
      [subst n; simpl; lia | reflexivity |].
    exists (String c1 (String c2 (String c3 pre))). rewrite !append_cons.
    now rewrite <- Hpre. }
  exists EmptyString. reflexivity.
Qed.

(** What [parseFloat] scans is what [Number] scans, followed by the white
    space at the end. *)
Lemma trim_start_trim (s : string) :
  exists post, trim_start false s = (trim s +:+ post)%string.
Proof.
  unfold trim.
  destruct (trim_start_suffix true (rev_string (trim_start false s) EmptyString))
    as (pre & Hpre).
  exists (rev_string pre EmptyString).
  rewrite <- rev_string_append, <- Hpre. now rewrite rev_string_involutive.
Qed.

Lemma scan_digits_count (s : string) (acc : N) (n : nat) :
  (n <= (scan_digits s acc n).1.2)%nat.
Proof.
  revert acc n. induction s as [| c s IH]; intros acc n; simpl; [lia |].
  destruct (is_digit c); simpl; [| lia].
  specialize (IH (10 * acc + digit_value c)%N (S n)). lia.
Qed.

(** Scanning digits in a text that goes on: the scan stops where it
    stopped, or goes on into the added text if it had reached the end. *)
Lemma scan_digits_append (s w : string) (acc : N) (n : nat) :
  scan_digits (s +:+ w) acc n
  = match (scan_digits s acc n).2 with
    | EmptyString => scan_digits w (scan_digits s acc n).1.1 (scan_digits s acc n).1.2
    | String c r => ((scan_digits s acc n).1, String c r +:+ w)%string
    end.
Proof.
  revert acc n. induction s as [| c s IH]; intros acc n; [reflexivity |].
  rewrite append_cons. cbn [scan_digits].
  destruct (is_digit c); [apply IH | reflexivity].
Qed.

Lemma strip_prefix_append (p s w r : string) :
  strip_prefix p s = Some r -> strip_prefix p (s +:+ w) = Some (r +:+ w)%string.
Proof.
  revert s. induction p as [| a p IH]; intros s; cbn [strip_prefix].
  - now intros [= ->].
  - destruct s as [| b s]; [discriminate |]. rewrite append_cons.
    destruct (Ascii.eqb a b); [apply IH | discriminate].
Qed.

Ltac not_dot c Hc :=
  destruct c as [[] [] [] [] [] [] [] []]; try (exfalso; apply Hc; reflexivity).

(** A literal that was read is still read when text is added after it. *)
Lemma scan_unsigned_append (neg : bool) (s w : string) :
  scan_unsigned neg s <> None -> scan_unsigned neg (s +:+ w) <> None.
Proof.
  unfold scan_unsigned.
  destruct (strip_prefix "Infinity" s) as [r |] eqn:Einf.
  { intros _. now rewrite (strip_prefix_append _ _ w _ Einf). }
  destruct (strip_prefix "Infinity" (s +:+ w)); [discriminate |].
  rewrite scan_digits_append.
  pose proof (scan_digits_count s 0%N 0%nat) as Hcount.
  destruct (scan_digits s 0%N 0%nat) as [[ip ni] r1]. cbn [fst snd] in *.
  destruct r1 as [| c r2].
  - (* the digits reach the end of [s] *)
    destruct ni as [| ni]; [intros H; now contradict H |]. intros _.
    pose proof (scan_digits_count w ip (S ni)) as Hw.
    destruct (scan_digits w ip (S ni)) as [[ip' ni'] r1']. cbn [fst snd] in Hw.
    destruct ni' as [| ni']; [lia |].
    destruct r1' as [| c' r2'].
    + destruct (scan_exponent EmptyString); discriminate.
    + destruct (Ascii.eqb_spec c' "."%char) as [-> | Hc].
      * destruct (scan_digits r2' ip' 0%nat) as [[m nf] r3].
        destruct (scan_exponent r3). discriminate.
      * not_dot c' Hc; match goal with |- context [scan_exponent ?x] =>
          destruct (scan_exponent x) end; discriminate.
  - rewrite append_cons.
    destruct (Ascii.eqb_spec c "."%char) as [-> | Hc].
    + rewrite scan_digits_append.
      pose proof (scan_digits_count r2 ip 0%nat) as Hf.
      destruct (scan_digits r2 ip 0%nat) as [[m nf] r3]. cbn [fst snd] in *.
      intros Hs.
      assert (Hnn : ni <> 0%nat \/ nf <> 0%nat).
      { destruct ni; [| now left]. destruct nf; [now contradict Hs | now right]. }
      destruct r3 as [| c3 r3'].
      * pose proof (scan_digits_count w m nf) as Hw.
        destruct (scan_digits w m nf) as [[m' nf'] r3'']. cbn [fst snd] in Hw.
        destruct ni, nf'; try (destruct (scan_exponent r3''); discriminate).
        lia.
      * cbn [fst snd]. destruct ni, nf;
          try (destruct (scan_exponent (String c3 r3' +:+ w)); discriminate).
        destruct Hnn as [H | H]; now contradict H.
    + destruct ni; [intros Hs; exfalso; apply Hs; not_dot c Hc; reflexivity |].
      intros _. not_dot c Hc; match goal with |- context [scan_exponent ?x] =>
        destruct (scan_exponent x) end; discriminate.
Qed.

Lemma scan_StrDecimalLiteral_append (s w : string) :
  scan_StrDecimalLiteral s <> None -> scan_StrDecimalLiteral (s +:+ w) <> None.
Proof.
  destruct s as [| c r]; [intros H; now contradict H |].
  rewrite append_cons. unfold scan_StrDecimalLiteral.
  destruct c as [[] [] [] [] [] [] [] []];
    first [ apply (scan_unsigned_append false r w)
          | apply (scan_unsigned_append true r w)
          | apply (scan_unsigned_append false (String _ r) w) ].
Qed.

Lemma number_of_decimal_not_NaN (neg : bool) (m : N) (e : Z) :
  isNaN (number_of_decimal neg m e) = false.
Proof.
  unfold number_of_decimal. destruct m as [| p]; [reflexivity |].
  destruct (0 <=? e) eqn:He; [apply binary_normalize_not_NaN |].
  apply Z.leb_gt in He.
  assert (Hpos : 0 < 10 ^ (- e)) by (apply Z.pow_pos_nonneg; lia).
  destruct (10 ^ (- e)) as [| d | d] eqn:Ed; try lia.
  pose proof (js_div_not_NaN (S754_finite neg p 0) false d 0 eq_refl) as H.
  unfold js_div in H. cbn [SFdiv] in H. rewrite xorb_false_r in H. exact H.
Qed.

Lemma scan_unsigned_not_NaN (neg : bool) (s r : string) (v : number) :
  scan_unsigned neg s = Some (v, r) -> isNaN v = false.
Proof.
  unfold scan_unsigned.
  repeat break_match; intros [= <- <-]; try reflexivity; apply number_of_decimal_not_NaN.
Qed.

Lemma scan_StrDecimalLiteral_not_NaN (s r : string) (v : number) :
  scan_StrDecimalLiteral s = Some (v, r) -> isNaN v = false.
Proof.
  unfold scan_StrDecimalLiteral.
  repeat break_match; apply scan_unsigned_not_NaN.
Qed.

(** [parseFloat] gives NaN only when the text starts with no literal. *)
Lemma parseFloat_NaN (s : string) :
  isNaN (parseFloat s) = true <-> scan_StrDecimalLiteral (trim_start false s) = None.
Proof.
  unfold parseFloat.
  destruct (scan_StrDecimalLiteral (trim_start false s)) as [[v r] |] eqn:E.
  - rewrite (scan_StrDecimalLiteral_not_NaN _ _ _ E). split; discriminate.
  - split; reflexivity.
Qed.

(** A text that starts with a digit starts with a literal. *)
Lemma scan_StrDecimalLiteral_digit (c : ascii) (r : string) :
  is_digit c = true -> scan_StrDecimalLiteral (String c r) <> None.
Proof.
  intros Hd.
  assert (Hu : scan_unsigned false (String c r) <> None).
  { unfold scan_unsigned.
    destruct (strip_prefix "Infinity" (String c r)); [discriminate |].
    cbn [scan_digits]. rewrite Hd.
    pose proof (scan_digits_count r (10 * 0 + digit_value c)%N 1%nat) as Hcount.
    destruct (scan_digits r (10 * 0 + digit_value c)%N 1%nat) as [[ip ni] r1].
    cbn [fst snd] in Hcount. destruct ni as [| ni]; [lia |].
    repeat break_match; discriminate. }
  unfold scan_StrDecimalLiteral.
  destruct c as [[] [] [] [] [] [] [] []]; try exact Hu; discriminate Hd.
Qed.

(** A text that [Number] reads as a number and that is not blank starts
    with a literal that [parseFloat] reads. *)
Lemma StringToNumber_parseFloat (s : string) :
  isNaN (StringToNumber s) = false -> trim s <> EmptyString ->
  isNaN (parseFloat s) = false.
Proof.
  intros Hnum Hblank.
  assert (Hscan : scan_StrDecimalLiteral (trim s) <> None).
  { unfold StringToNumber in Hnum. destruct (trim s) as [| c t]; [now contradict Hblank |].
    destruct (scan_NonDecimalIntegerLiteral (String c t)) as [v |] eqn:E.
    - apply scan_StrDecimalLiteral_digit.
      unfold scan_NonDecimalIntegerLiteral in E.
      destruct c as [[] [] [] [] [] [] [] []]; try discriminate E. reflexivity.
    - destruct (scan_StrDecimalLiteral (String c t)); [discriminate | discriminate Hnum]. }
  destruct (trim_start_trim s) as (post & Hpost).
  destruct (isNaN (parseFloat s)) eqn:E; [| reflexivity].
  apply parseFloat_NaN in E. rewrite Hpost in E.
  now apply (scan_StrDecimalLiteral_append _ post) in Hscan.
Qed.

(** Decoding and then validating a cell of a numeric column: the type check
    of the sales validator reports the cell exactly when the text starts
    with no number and is not blank. A text with a numeric prefix was
    turned into that number by the decoder, and a blank text reads as 0
    under [Number]. *)
Theorem transform_reported (v name : string) :
  In name numericFields ->
  reported (transform v (FieldName name))
  = isNaN (parseFloat v) && negb (blank v).
Proof.
  intros Hin. apply Array_includes_In in Hin.
  unfold reported, transform. rewrite Hin.
  destruct (isNaN (parseFloat v)) eqn:Hnan; cbn [truthy Number andb].
  - unfold blank. destruct (String.eqb_spec (trim v) EmptyString) as [Hb | Hb].
    + unfold StringToNumber. rewrite Hb. cbn [isNaN zero]. apply andb_false_r.
    + destruct (isNaN (StringToNumber v)) eqn:Hnum.
      * destruct (String.eqb_spec v EmptyString) as [-> | _]; [| reflexivity].
        now contradict Hb.
      * apply StringToNumber_parseFloat in Hnum; [congruence | exact Hb].
  - rewrite Hnan. apply andb_false_r.
Qed.

(** ** Whole numbers written in decimal *)

Lemma scan_digits_uint (d : Decimal.uint) (rest : string) (acc : N) (k : nat) :
  scan_digits (NilEmpty.string_of_uint d +:+ rest) acc k
  = scan_digits rest (N.of_nat (Nat.of_uint_acc d (N.to_nat acc))) (k + Decimal.nb_digits d).
Proof.
  revert acc k.
  induction d as [| d IH | d IH | d IH | d IH | d IH | d IH | d IH | d IH | d IH | d IH];
    intros acc k; cbn [NilEmpty.string_of_uint Nat.of_uint_acc Decimal.nb_digits];
    [ rewrite N2Nat.id, Nat.add_0_r; reflexivity | .. ];
    rewrite append_cons; cbn [scan_digits];
    match goal with |- context [is_digit ?c] => change (is_digit c) with true end;
    cbv iota; rewrite IH;
    (f_equal;
     [ f_equal; f_equal; rewrite Nat.tail_mul_spec; unfold digit_value;
       match goal with |- context [nat_of_ascii ?c] =>
         let v := eval vm_compute in (nat_of_ascii c) in change (nat_of_ascii c) with v end;
       cbn [Nat.sub]; lia
     | lia ]).
Qed.

Lemma show_nat_digit (n : nat) :
  exists c r, show_nat n = String c r /\ is_digit c = true.
Proof.
  unfold show_nat, NilZero.string_of_uint.
  destruct (Nat.to_uint n); cbn [NilEmpty.string_of_uint]; eauto.
Qed.

Lemma show_nat_scan (n : nat) (rest : string) :
  exists k, scan_digits (show_nat n +:+ rest) 0%N 0%nat
            = scan_digits rest (N.of_nat n) (S k).
Proof.
  pose proof (DecimalNat.Unsigned.of_to n) as Hn. unfold Nat.of_uint in Hn.
  unfold show_nat, NilZero.string_of_uint.
  destruct (Nat.to_uint n) as [| d | d | d | d | d | d | d | d | d | d] eqn:E;
    [ exists 0%nat; cbn in Hn; subst n; reflexivity | .. ];
    rewrite scan_digits_uint; change (N.to_nat 0) with 0%nat; rewrite Hn;
    cbn [Decimal.nb_digits]; eexists; reflexivity.
Qed.

(** White space is skipped at the start only: nothing is removed from a
    text that starts with a digit. *)
Lemma trim_start_digit (c : ascii) (r : string) :
  is_digit c = true -> trim_start false (String c r) = String c r.
Proof.
  intros Hd. unfold is_digit in Hd. apply andb_true_iff in Hd.
  destruct Hd as [Hlo Hhi]. apply Nat.leb_le in Hlo, Hhi.
  cbn [trim_start]. unfold ws1, ws2, ws3.
  set (n := nat_of_ascii c) in *.
  replace ((9 <=? n)%nat && (n <=? 13)%nat || (n =? 32)%nat) with false
    by (symmetry; apply orb_false_iff; split;
        [apply andb_false_iff; right; apply Nat.leb_gt; lia | apply Nat.eqb_neq; lia]).
  destruct r as [| c2 r2]; [reflexivity |].
  replace (n =? 194)%nat with false by (symmetry; apply Nat.eqb_neq; lia).
  cbn [andb]. destruct r2 as [| c3 r3]; [reflexivity |].
  replace (n =? 225)%nat with false by (symmetry; apply Nat.eqb_neq; lia).
  replace (n =? 226)%nat with false by (symmetry; apply Nat.eqb_neq; lia).
  replace (n =? 227)%nat with false by (symmetry; apply Nat.eqb_neq; lia).
  replace (n =? 239)%nat with false by (symmetry; apply Nat.eqb_neq; lia).
  reflexivity.
Qed.

Lemma number_of_decimal_whole (n : nat) :
  number_of_decimal false (N.of_nat n) 0 = number_of_nat n.
Proof.
  unfold number_of_decimal, number_of_nat, number_of_Z.
  destruct n as [| n]; [reflexivity |].
  destruct (N.of_nat (S n)) as [| p] eqn:E; [lia |].
  cbn [Z.leb Z.compare cond_Zopp]. f_equal. lia.
Qed.

Lemma scan_unsigned_whole (n : nat) (suffix : string) :
  ends_literal suffix = true ->
  scan_unsigned false (show_nat n +:+ suffix) = Some (number_of_nat n, suffix).
Proof.
  intros Hend. unfold scan_unsigned.
  destruct (show_nat_scan n suffix) as (k & Hscan). rewrite Hscan.
  destruct (show_nat_digit n) as (c & r & Hshow & Hd). rewrite Hshow, append_cons.
  assert (Hinf : strip_prefix "Infinity" (String c (r +:+ suffix)) = None).
  { cbn [strip_prefix]. destruct (Ascii.eqb_spec "I"%char c) as [<- | _];
      [discriminate Hd | reflexivity]. }
  rewrite Hinf.
  destruct suffix as [| x rest].
  - cbn. now rewrite number_of_decimal_whole.
  - cbn [ends_literal] in Hend. apply negb_true_iff in Hend.
    apply orb_false_iff in Hend. destruct Hend as [Hend HE].
    apply orb_false_iff in Hend. destruct Hend as [Hend He].
    apply orb_false_iff in Hend. destruct Hend as [Hdig Hdot].
    cbn [scan_digits]. rewrite Hdig.
    assert (Hexp : scan_exponent (String x rest) = (0, String x rest)).
    { cbn [scan_exponent]. now rewrite He, HE. }
    apply Ascii.eqb_neq in Hdot.
    not_dot x Hdot; rewrite Hexp; now rewrite number_of_decimal_whole.
Qed.

(** The decimal text of a whole number, alone or followed by text that
    cannot continue a literal (a unit, a blank, a comma), is read by
    [parseFloat] as that number: what follows is dropped. *)
Lemma parseFloat_whole (n : nat) (suffix : string) :
  ends_literal suffix = true ->
  parseFloat (show_nat n +:+ suffix) = number_of_nat n.
Proof.
  intros Hend. unfold parseFloat.
  destruct (show_nat_digit n) as (c & r & Hshow & Hd).
  assert (Htrim : trim_start false (show_nat n +:+ suffix) = (show_nat n +:+ suffix)%string).
  { rewrite Hshow, append_cons. now apply trim_start_digit. }
  rewrite Htrim.
  assert (Hsign : scan_StrDecimalLiteral (show_nat n +:+ suffix)
                  = scan_unsigned false (show_nat n +:+ suffix)).
  { rewrite Hshow, append_cons. unfold scan_StrDecimalLiteral.
    destruct c as [[] [] [] [] [] [] [] []]; try reflexivity; discriminate Hd. }
  rewrite Hsign, scan_unsigned_whole by exact Hend. reflexivity.
Qed.

(** ** Decoding, then validating *)

(** A cell of a numeric column that holds the decimal text of a whole
    number, alone or followed by text that cannot continue the literal, is
    decoded to that number; the text after the digits is dropped without
    notice. *)
Theorem transform_whole_number (n : nat) (suffix name : string) :
  In name numericFields -> ends_literal suffix = true ->
  transform (show_nat n +:+ suffix) (FieldName name) = VNumber (number_of_nat n).
Proof.
  intros Hin Hend. apply Array_includes_In in Hin. unfold transform. rewrite Hin.
  rewrite parseFloat_whole by exact Hend.
  unfold number_of_nat. now rewrite number_of_Z_not_NaN.
Qed.

Lemma transform_whole_number_witness :
  transform "12 pcs" (FieldName "Quantity") = VNumber (number_of_nat 12).
Proof.
  apply (transform_whole_number 12 " pcs" "Quantity").
  - simpl. tauto.
  - reflexivity.
Defined.

(** A one-row sales file whose Quantity and Amount cells went through the
    decoder: the validator reports a cell exactly when its text starts with
    no number and is not blank. A cell such as [12 pcs] has been decoded to
    12 and passes; a blank cell is kept as text and passes too, since
    [Number] reads it as 0. *)
Theorem validateSalesData_decoded_row (r0 : row) (quantity amount : string) :
  is_Some (r0 !! "Date"%string) -> is_Some (r0 !! "Product"%string) ->
  errors (validateSalesData
            [ <["Quantity"%string := transform quantity (FieldName "Quantity")]>
                (<["Amount"%string := transform amount (FieldName "Amount")]> r0) ])
  = (if isNaN (parseFloat quantity) && negb (blank quantity)
     then ["Row 1: Quantity must be a number"%string] else [])
    ++ (if isNaN (parseFloat amount) && negb (blank amount)
        then ["Row 1: Amount must be a number"%string] else []).
Proof.
  intros Hdate Hproduct. rewrite validateSalesData_errors.
  set (r := <["Quantity"%string := transform quantity (FieldName "Quantity")]>
              (<["Amount"%string := transform amount (FieldName "Amount")]> r0)).
  assert (Hq : r !! "Quantity"%string = Some (transform quantity (FieldName "Quantity")))
    by apply lookup_insert_eq.
  assert (Ha : r !! "Amount"%string = Some (transform amount (FieldName "Amount"))).
  { unfold r. rewrite lookup_insert_ne by discriminate. apply lookup_insert_eq. }
  assert (Hmissing : missing_field_errors ["Date"; "Product"; "Quantity"; "Amount"]%string r
                     = []).
  { apply missing_field_errors_nil.
    repeat apply List.Forall_cons; try apply List.Forall_nil.
    - unfold r. now rewrite !lookup_insert_ne by discriminate.
    - unfold r. now rewrite !lookup_insert_ne by discriminate.
    - rewrite Hq. eauto.
    - rewrite Ha. eauto. }
  rewrite Hmissing. cbn [app firstn indexed flat_map]. rewrite app_nil_r.
  unfold type_errors, cell_accepted. cbn [fst snd]. rewrite Hq, Ha.
  change (truthy (Some ?c) && isNaN (Number (Some ?c))) with (reported c).
  rewrite !transform_reported by (simpl; tauto).
  destruct (isNaN (parseFloat quantity) && negb (blank quantity));
    destruct (isNaN (parseFloat amount) && negb (blank amount)); reflexivity.
Qed.

Lemma validateSalesData_decoded_row_witness :
  errors (validateSalesData
            [ <["Quantity"%string := transform "12 pcs" (FieldName "Quantity")]>
                (<["Amount"%string := transform "  " (FieldName "Amount")]>
                   (<["Date"%string := VString "2024-08-01"]>
                      {["Product"%string := VString "Kurta"]})) ])
  = [].
Proof.
  rewrite (validateSalesData_decoded_row _ "12 pcs" "  ").
  - reflexivity.
  - rewrite lookup_insert_eq. eauto.
  - rewrite lookup_insert_ne by discriminate. rewrite lookup_singleton_eq. eauto.
Defined.

Lemma validateSalesData_ignores_later_rows_witness :
  validateSalesData
    (replicate 5 {["Date"%string := VString "2024-08-01"; "Product"%string := VString "Kurta";
                   "Quantity"%string := VNumber one; "Amount"%string := VNumber five]}
     ++ [ {["Date"%string := VString "2024-08-02"; "Amount"%string := VString "n/a"]} ])
  = mkValidationResult true [].
Proof.
  rewrite validateSalesData_ignores_later_rows by reflexivity.
  vm_compute. reflexivity.
Defined.

(** ** Numbers: products and [Math.floor] *)

Lemma shr_1_r (rec : shr_record) :
  0 <= shr_m rec -> shr_r (shr_1 rec) = Z.odd (shr_m rec).
Proof.
  destruct rec as [m b s]. cbn [shr_m]. intros Hm. unfold shr_1.
  destruct m as [| [p | p |] | p]; cbn [shr_r]; try reflexivity. lia.
Qed.

(** The round bit after [n + 1] shifts is bit [n] of the mantissa. *)
Lemma shr_iter_r (n : nat) (P : Z) :
  0 <= P ->
  shr_r (Nat.iter (S n) shr_1 (Build_shr_record P false false))
  = Z.odd (P / 2 ^ Z.of_nat n).
Proof.
  intros HP. rewrite Nat.iter_succ.
  assert (Hm : shr_m (Nat.iter n shr_1 (Build_shr_record P false false))
               = P / 2 ^ Z.of_nat n) by (now apply shr_iter_m).
  rewrite shr_1_r; rewrite Hm; [reflexivity |].
  apply Z.div_pos; [assumption | apply Z.pow_pos_nonneg; lia].
Qed.

Lemma round_nearest_even_down (rec : shr_record) :
  shr_r rec = false ->
  round_nearest_even (shr_m rec) (loc_of_shr_record rec) = shr_m rec.
Proof.
  destruct rec as [m b s]. cbn [shr_m shr_r]. intros ->. now destruct s.
Qed.

(** Rounding goes down when less than half a unit is cut off. *)
Lemma round_stage_down (mz : positive) (ez : Z) :
  ez <= fexp prec emax (Zpos (digits2_pos mz) + ez) ->
  2 * (Zpos mz mod 2 ^ (fexp prec emax (Zpos (digits2_pos mz) + ez) - ez))
  < 2 ^ (fexp prec emax (Zpos (digits2_pos mz) + ez) - ez) ->
  round_nearest_even (shr_m (shr_fexp prec emax (Zpos mz) ez loc_Exact).1)
    (loc_of_shr_record (shr_fexp prec emax (Zpos mz) ez loc_Exact).1)
  = Zpos mz / 2 ^ (fexp prec emax (Zpos (digits2_pos mz) + ez) - ez).
Proof.
  intros Hez Hhalf. rewrite shr_fexp_unfold. cbn [Zdigits2].
  set (e2 := fexp prec emax (Zpos (digits2_pos mz) + ez)) in *.
  destruct (0 <? e2 - ez) eqn:Hn; cbn [fst snd].
  - apply Z.ltb_lt in Hn. set (s := e2 - ez) in *.
    assert (Hs : Z.to_nat s = S (Z.to_nat (s - 1))) by lia.
    rewrite round_nearest_even_down.
    + rewrite shr_iter_m by (rewrite shr_m_of_loc; lia).
      rewrite shr_m_of_loc, Z2Nat.id by lia. reflexivity.
    + cbn [shr_record_of_loc]. rewrite Hs, shr_iter_r by lia.
      rewrite Z2Nat.id by lia.
      assert (Hp : 0 < 2 ^ (s - 1)) by (apply Z.pow_pos_nonneg; lia).
      assert (Hpow : 2 ^ s = 2 * 2 ^ (s - 1)).
      { replace s with (Z.succ (s - 1)) at 1 by lia. apply Z.pow_succ_r. lia. }
      pose proof (Z.div_mod (Zpos mz) (2 ^ s) ltac:(lia)) as Hdm.
      pose proof (Z.mod_pos_bound (Zpos mz) (2 ^ s) ltac:(lia)) as Hmb.
      assert (Hq : Zpos mz / 2 ^ (s - 1) = 2 * (Zpos mz / 2 ^ s)).
      { symmetry. apply Z.div_unique with (r := Zpos mz mod 2 ^ s); [lia |]. nia. }
      rewrite Hq, Z.odd_mul. reflexivity.
  - apply Z.ltb_ge in Hn. assert (Heq : e2 - ez = 0) by lia.
    rewrite Heq, shr_m_of_loc, loc_of_shr_record_of_loc.
    change (2 ^ 0) with 1. now rewrite Z.div_1_r.
Qed.

(** Rounding a positive mantissa whose canonical exponent is in range: the
    result is 0 or a finite number, and its value is the cut mantissa or
    the next one at the canonical exponent. *)
Lemma binary_round_aux_value0 (sx : bool) (mz : positive) (ez : Z) (l : location) :
  ez <= fexp prec emax (Zpos (digits2_pos mz) + ez) ->
  fexp prec emax (Zpos (digits2_pos mz) + ez) <= 970 ->
  exists m,
    round_nearest_even (shr_m (shr_fexp prec emax (Zpos mz) ez l).1)
      (loc_of_shr_record (shr_fexp prec emax (Zpos mz) ez l).1) = m
    /\ Zpos mz / 2 ^ (fexp prec emax (Zpos (digits2_pos mz) + ez) - ez) <= m
       <= Zpos mz / 2 ^ (fexp prec emax (Zpos (digits2_pos mz) + ez) - ez) + 1
    /\ ((m = 0 /\ binary_round_aux prec emax sx (Zpos mz) ez l = S754_zero sx)
        \/ exists p e3,
             binary_round_aux prec emax sx (Zpos mz) ez l = S754_finite sx p e3
             /\ is_number (S754_finite sx p e3)
             /\ fexp prec emax (Zpos (digits2_pos mz) + ez) <= e3
             /\ Zpos p * 2 ^ (e3 - fexp prec emax (Zpos (digits2_pos mz) + ez)) = m).
Proof.
  intros Hez Hle. rewrite binary_round_aux_finish.
  destruct (round_stage mz ez l Hez) as (Hok & He' & _).
  destruct (round_stage_value mz ez l Hez) as (He2 & Hbr & _).
  rewrite He2 in *.
  eexists. split; [reflexivity |]. split; [exact Hbr |].
  set (m := round_nearest_even _ _) in *.
  assert (Hm0 : 0 <= m).
  { assert (0 <= Zpos mz / 2 ^ (fexp prec emax (Zpos (digits2_pos mz) + ez) - ez)).
    { apply Z.div_pos; [lia | apply Z.pow_pos_nonneg; lia]. }
    lia. }
  destruct (Z.eq_dec m 0) as [Hz | Hnz].
  - left. split; [exact Hz |]. destruct (finish_spec sx m _ He' Hok) as (_ & _ & H0). now apply H0.
  - right.
    destruct (finish_value sx m _ ltac:(split; [exact He' | exact Hle]) ltac:(lia) Hok)
      as (p & e3 & Hfin & Hval & Hle3 & Hv).
    exists p, e3. repeat split; assumption.
Qed.

Lemma binary_round_canonical (sx : bool) (m : positive) (e : Z) :
  bounded prec emax m e = true ->
  binary_round prec emax sx m e = S754_finite sx m e.
Proof.
  intros H. unfold binary_round.
  assert (Hc : fexp prec emax (Zpos (digits2_pos m) + e) = e).
  { unfold bounded, canonical_mantissa in H. apply andb_prop in H.
    now apply Z.eqb_eq. }
  rewrite Hc. unfold shl_align. rewrite Z.sub_diag.
  now apply binary_round_aux_canonical.
Qed.

(** A valid number with an exponent that is not negative is the number of
    the integer it stands for. *)
Lemma number_of_Z_integer (p : positive) (e : Z) :
  is_number (S754_finite false p e) -> 0 <= e ->
  number_of_Z (Zpos p * 2 ^ e) = S754_finite false p e.
Proof.
  intros Hval He. unfold number_of_Z.
  pose proof (binary_normalize_scale (Zpos p) e e He) as H. rewrite Z.sub_diag in H.
  rewrite H. cbn [binary_normalize]. now apply binary_round_canonical.
Qed.

(** What [x < 1] says of a valid finite number that is not negative. *)
Lemma js_lt_one_finite (m : positive) (e : Z) :
  is_number (S754_finite false m e) ->
  js_lt (S754_finite false m e) one = true ->
  e < 0 /\ Zpos m < 2 ^ (- e).
Proof.
  intros Hval. rewrite js_lt_compare, one_finite.
  rewrite (SFcompare_value false false m 4503599627370496 e (-52) (Z.min e (-52)))
    by (try assumption; try reflexivity; lia).
  cbn [cond_Zopp]. change (Zpos 4503599627370496) with (2 ^ 52).
  destruct (Z.compare_spec (Zpos m * 2 ^ (e - Z.min e (-52)))
              (2 ^ 52 * 2 ^ (-52 - Z.min e (-52)))) as [| Hlt |]; try discriminate.
  intros _.
  destruct (Z_le_gt_dec (-52) e) as [Hge | Hsmall].
  - replace (Z.min e (-52)) with (-52) in Hlt by lia.
    replace (-52 - -52) with 0 in Hlt by lia. change (2 ^ 0) with 1 in Hlt.
    assert (Hp : 0 < 2 ^ (e - -52)) by (apply Z.pow_pos_nonneg; lia).
    assert (He : e < 0).
    { destruct (Z_lt_ge_dec e 0) as [H | H]; [exact H | exfalso].
      assert (2 ^ 52 <= 2 ^ (e - -52)) by (apply Z.pow_le_mono_r; lia). nia. }
    split; [exact He |].
    assert (Hsplit : 2 ^ 52 = 2 ^ (- e) * 2 ^ (e - -52)).
    { rewrite <- Z.pow_add_r by lia. f_equal. lia. }
    nia.
  - replace (Z.min e (-52)) with e in Hlt by lia.
    rewrite Z.sub_diag in Hlt. change (2 ^ 0) with 1 in Hlt.
    rewrite <- Z.pow_add_r in Hlt by lia.
    replace (52 + (-52 - e)) with (- e) in Hlt by lia. lia.
Qed.

(** The product of a number of the unit interval by a positive integer
    [n], rounded, is below [n]: its integer part is one of 0, ..., n - 1. *)
Lemma Math_floor_random (r : number) (n : Z) :
  unit_interval r -> 0 < n < 2 ^ 53 ->
  exists k, Math_floor (js_mul r (number_of_Z n)) = number_of_Z k /\ 0 <= k < n.
Proof.
  intros (Hval & Hnz & Hle & Hlt) Hn.
  destruct (number_of_Z_normal n Hn) as (mn & en & -> & _ & Hen & Hmn & Hmnr).
  destruct r as [[] | [] | | [] m e]; try discriminate.
  { now contradict Hnz. }
  { exists 0. split; [reflexivity | lia]. }
  destruct (js_lt_one_finite m e Hval Hlt) as [He Hm].
  destruct (is_number_finite _ _ _ Hval) as (Herange & Hdig & _).
  unfold js_mul. cbn [SFmul xorb].
  change (Zpos (m * mn)) with (Zpos m * Zpos mn). rewrite <- Pos2Z.inj_mul.
  set (P := (m * mn)%positive).
  assert (HP : Zpos P = Zpos m * Zpos mn) by (unfold P; lia).
  pose proof (digits_bounds P) as [HdPlo HdPhi].
  set (dP := Zpos (digits2_pos P)) in *.
  assert (Hpe : 0 < 2 ^ (- e)) by (apply Z.pow_pos_nonneg; lia).
  (* the product is below n, scaled: P < mn * 2 ^ (- e) *)
  assert (HPlt : Zpos P < Zpos mn * 2 ^ (- e)) by nia.
  assert (HdP53 : 53 <= dP).
  { assert (52 < dP); [| lia]. apply (Z.pow_lt_mono_r_iff 2); [lia | unfold dP; lia |]. nia. }
  assert (HdPhi' : dP <= 53 - e).
  { assert (dP - 1 < 53 - e); [| lia]. apply (Z.pow_lt_mono_r_iff 2); [lia | lia |].
    assert (2 ^ (53 - e) = 2 ^ 53 * 2 ^ (- e)) by (rewrite <- Z.pow_add_r by lia; f_equal; lia).
    nia. }
  assert (HdPpow : Zpos mn = 2 ^ 52 -> dP <= 52 - e).
  { intros Hpow. assert (dP - 1 < 52 - e); [| lia].
    apply (Z.pow_lt_mono_r_iff 2); [lia | lia |].
    assert (2 ^ (52 - e) = 2 ^ 52 * 2 ^ (- e)) by (rewrite <- Z.pow_add_r by lia; f_equal; lia).
    nia. }
  set (E0 := e + en) in *.
  assert (Hfexp : fexp prec emax (dP + E0) = Z.max (dP + E0 - 53) (-1074)) by reflexivity.
  set (e2 := fexp prec emax (dP + E0)) in *.
  assert (He2lo : E0 <= e2) by (unfold E0 in *; lia).
  assert (He2hi : e2 <= en) by (unfold E0 in *; lia).
  assert (He2pow : Zpos mn = 2 ^ 52 -> e2 <= en - 1) by (intros H; specialize (HdPpow H); unfold E0 in *; lia).
  destruct (binary_round_aux_value0 false P E0 loc_Exact) as (mr & Hmr & Hbr & Hres);
    fold dP; fold e2; try lia.
  fold dP in Hmr, Hbr, Hres. fold e2 in Hmr, Hbr, Hres.
  set (s := e2 - E0) in *.
  assert (Hs : 0 <= s <= - e) by (unfold s, E0 in *; lia).
  assert (Hps : 0 < 2 ^ s) by (apply Z.pow_pos_nonneg; lia).
  (* n on the grid of the result: n * 2 ^ (- e2) = N2 = mn * 2 ^ (- e - s) *)
  set (N2 := Zpos mn * 2 ^ (- e - s)).
  assert (Hpes : 0 < 2 ^ (- e - s)) by (apply Z.pow_pos_nonneg; lia).
  assert (Hsplit : 2 ^ (- e) = 2 ^ (- e - s) * 2 ^ s).
  { rewrite <- Z.pow_add_r by lia. f_equal. lia. }
  assert (HN2 : N2 = n * 2 ^ (- e2)).
  { unfold N2. rewrite Hmn, <- Z.mul_assoc, <- Z.pow_add_r by lia. do 2 f_equal.
    unfold s, E0. lia. }
  assert (HM : Zpos P / 2 ^ s <= N2 - 1).
  { assert (Zpos P / 2 ^ s < N2); [| lia].
    apply Z.div_lt_upper_bound; [exact Hps |]. unfold N2.
    rewrite Hsplit in HPlt. lia. }
  assert (Hmr_le : mr <= N2 - 1).
  { destruct (Z_le_gt_dec (Zpos P / 2 ^ s) (N2 - 2)) as [Hsmall | Hbig]; [lia |].
    assert (HMeq : Zpos P / 2 ^ s = N2 - 1) by lia.
    rewrite <- Hmr, round_stage_down; fold dP; fold e2; fold s; try lia.
    pose proof (Z.div_mod (Zpos P) (2 ^ s) ltac:(lia)) as Hdm. rewrite HMeq in Hdm.
    (* the distance to n is more than half a unit *)
    assert (Hdist : 2 ^ s < 2 * (Zpos mn * 2 ^ (- e) - Zpos P)).
    { set (delta := 2 ^ (- e) - Zpos m).
      assert (Hdelta : 1 <= delta) by (unfold delta; lia).
      assert (Hgap : Zpos mn * 2 ^ (- e) - Zpos P = Zpos mn * delta)
        by (unfold delta; rewrite HP; ring).
      rewrite Hgap.
      assert (Hmd : Zpos mn <= Zpos mn * delta).
      { rewrite <- (Z.mul_1_r (Zpos mn)) at 1. apply Z.mul_le_mono_nonneg_l; lia. }
      destruct (Z_le_gt_dec (- e) 53) as [Hnear | Hfar].
      - destruct (Z.eq_dec (Zpos mn) (2 ^ 52)) as [Hpow | Hnpow].
        + specialize (He2pow Hpow).
          assert (Hs52 : s <= 52) by (unfold s, E0 in *; lia).
          assert (2 ^ s <= 2 ^ 52) by (apply Z.pow_le_mono_r; lia). lia.
        + assert (2 ^ s <= 2 ^ 53) by (apply Z.pow_le_mono_r; lia).
          change (2 ^ 53) with (2 * 2 ^ 52) in *. lia.
      - assert (Hm53 : Zpos m < 2 ^ 53).
        { eapply Z.lt_le_trans; [apply (digits_bounds m) |].
          apply Z.pow_le_mono_r; lia. }
        assert (Hhalf : 2 ^ (- e) = 2 * 2 ^ (- e - 1)).
        { replace (- e) with (Z.succ (- e - 1)) at 1 by lia. apply Z.pow_succ_r. lia. }
        assert (2 ^ 53 <= 2 ^ (- e - 1)) by (apply Z.pow_le_mono_r; lia).
        assert (2 ^ s <= 2 ^ (- e)) by (apply Z.pow_le_mono_r; lia).
        assert (Hd : 2 ^ (- e - 1) < delta) by (unfold delta; lia).
        assert (H2d : 2 * delta <= Zpos mn * delta)
          by (apply Z.mul_le_mono_nonneg_r; lia).
        lia. }
    unfold N2 in Hdm. rewrite Hsplit in Hdist. lia. }
  destruct Hres as [[Hm0 ->] | (p & e3 & -> & Hvalp & Hle3 & Hv)].
  { exists 0. split; [reflexivity | lia]. }
  assert (Hpe2 : 0 < 2 ^ (- e2)) by (apply Z.pow_pos_nonneg; lia).
  assert (Hp32 : 0 < 2 ^ (e3 - e2)) by (apply Z.pow_pos_nonneg; lia).
  unfold Math_floor. destruct (0 <=? e3) eqn:Hpos.
  - apply Z.leb_le in Hpos. exists (Zpos p * 2 ^ e3).
    split; [symmetry; now apply number_of_Z_integer |].
    assert (0 < 2 ^ e3) by (apply Z.pow_pos_nonneg; lia).
    split; [lia |].
    assert (Hk : Zpos p * 2 ^ e3 * 2 ^ (- e2) = mr).
    { rewrite <- Hv, <- Z.mul_assoc, <- Z.pow_add_r by lia. do 2 f_equal; lia. }
    apply (Z.mul_lt_mono_pos_r (2 ^ (- e2))); [exact Hpe2 | lia].
  - apply Z.leb_gt in Hpos. exists (Zpos p / 2 ^ (- e3)).
    split; [reflexivity |].
    assert (Hp3 : 0 < 2 ^ (- e3)) by (apply Z.pow_pos_nonneg; lia).
    split; [apply Z.div_pos; lia |].
    pose proof (Z.mul_div_le (Zpos p) (2 ^ (- e3)) Hp3) as Hfloor.
    assert (Hpow : 2 ^ (- e2) = 2 ^ (- e3) * 2 ^ (e3 - e2)).
    { rewrite <- Z.pow_add_r by lia. f_equal. lia. }
    apply (Z.mul_lt_mono_pos_r (2 ^ (- e2))); [exact Hpe2 |].
    rewrite Hpow at 1.
    pose proof (Z.mul_le_mono_nonneg_r _ _ (2 ^ (e3 - e2)) ltac:(lia) Hfloor) as Hscaled.
    lia.
Qed.

(** ** The generators of the demo data *)

Lemma ToIndex_number_of_Z (k : Z) :
  0 <= k < 2 ^ 53 -> ToIndex (number_of_Z k) = Some (Z.to_nat k).
Proof.
  intros Hk. destruct (Z.eq_dec k 0) as [-> | Hnz]; [reflexivity |].
  destruct (number_of_Z_normal k ltac:(lia)) as (m & e & -> & _ & He & Hm & _).
  cbn [ToIndex]. assert (Hp : 0 < 2 ^ (- e)) by (apply Z.pow_pos_nonneg; lia).
  destruct (0 <=? e) eqn:E.
  - apply Z.leb_le in E. assert (e = 0) by lia. subst e.
    change (2 ^ (- 0)) with 1 in Hm. change (2 ^ 0) with 1. do 2 f_equal. lia.
  - rewrite Hm, Z.mod_mul, Z.eqb_refl, Z.div_mul by lia. reflexivity.
Qed.

Lemma Array_get_number_of_Z {A : Type} (array : list A) (k : Z) :
  0 <= k < Z.of_nat (length array) -> Z.of_nat (length array) < 2 ^ 53 ->
  exists x, Array_get array (number_of_Z k) = Some x /\ In x array.
Proof.
  intros Hk Hlen. unfold Array_get. rewrite ToIndex_number_of_Z by lia.
  destruct (nth_error array (Z.to_nat k)) as [x |] eqn:E.
  - exists x. split; [reflexivity |]. now apply nth_error_In in E.
  - apply nth_error_None in E. lia.
Qed.

(** The product of two whole numbers is exact while it stays below 2^53. *)
Lemma js_mul_number_of_Z (a b : Z) :
  0 <= a < 2 ^ 53 -> 0 <= b < 2 ^ 53 -> a * b < 2 ^ 53 ->
  js_mul (number_of_Z a) (number_of_Z b) = number_of_Z (a * b).
Proof.
  intros Ha Hb Hab.
  destruct (Z.eq_dec a 0) as [-> | Hna].
  { cbn [Z.mul]. rewrite !number_of_Z_0.
    destruct (Z.eq_dec b 0) as [-> | Hnb]; [reflexivity |].
    destruct (number_of_Z_normal b ltac:(lia)) as (m & e & -> & _). reflexivity. }
  destruct (Z.eq_dec b 0) as [-> | Hnb].
  { rewrite Z.mul_0_r, number_of_Z_0.
    destruct (number_of_Z_normal a ltac:(lia)) as (m & e & -> & _). reflexivity. }
  destruct (number_of_Z_normal a ltac:(lia)) as (ma & ea & -> & _ & Hea & Hma & Hmar).
  destruct (number_of_Z_normal b ltac:(lia)) as (mb & eb & -> & _ & Heb & Hmb & Hmbr).
  unfold js_mul. cbn [SFmul xorb].
  pose proof (digits_bounds (ma * mb)) as [Hdlo Hdhi].
  set (d := Zpos (digits2_pos (ma * mb))) in *.
  assert (Hd : 105 <= d).
  { assert (104 < d); [| lia]. apply (Z.pow_lt_mono_r_iff 2); [lia | unfold d; lia |].
    change (2 ^ 104) with (2 ^ 52 * 2 ^ 52). nia. }
  assert (Hround : binary_round prec emax false (ma * mb) (ea + eb)
                   = binary_round_aux prec emax false (Zpos (ma * mb)) (ea + eb) loc_Exact).
  { unfold binary_round, shl_align. fold d.
    destruct (fexp prec emax (d + (ea + eb)) - (ea + eb)) as [| q | q] eqn:E;
      try reflexivity.
    exfalso. revert E. unfold_fexp. lia. }
  rewrite <- Hround. unfold number_of_Z.
  pose proof (binary_normalize_scale (a * b) 0 (- (ea + eb)) ltac:(lia)) as Hscale.
  rewrite <- Hscale.
  replace (0 - - (ea + eb)) with (ea + eb) by lia.
  replace (a * b * 2 ^ (- (ea + eb))) with (Zpos (ma * mb)); [reflexivity |].
  rewrite Pos2Z.inj_mul, Hma, Hmb.
  replace (- (ea + eb)) with (- ea + - eb) by lia. rewrite Z.pow_add_r by lia. ring.
Qed.

Section Generators.

Variable random : nat -> number.
Variable isoDate : number -> string.
Hypothesis random_unit : forall i, unit_interval (random i).

Lemma random_below_spec (n : Z) (i : nat) :
  0 < n < 2 ^ 53 ->
  exists k, random_below random (number_of_Z n) i = number_of_Z k /\ 0 <= k < n.
Proof. intros Hn. apply Math_floor_random; [apply random_unit | exact Hn]. Qed.

(** [Math.floor(Math.random() * n) + c] is a whole number from [c] to
    [c + n - 1]. *)
Lemma random_whole (n c lo hi : Z) (i : nat) :
  0 < n < 2 ^ 52 -> 0 <= c < 2 ^ 52 -> lo <= c -> c + n - 1 <= hi ->
  whole_between lo hi
    (Some (js_add (random_below random (number_of_Z n) i) (number_of_Z c))).
Proof.
  intros Hn Hc Hlo Hhi.
  assert (H52 : 2 ^ 53 = 2 * 2 ^ 52) by reflexivity.
  destruct (random_below_spec n i ltac:(lia)) as (k & -> & Hk).
  exists (k + c). rewrite js_add_number_of_Z by lia. split; [reflexivity | lia].
Qed.

(** [array[Math.floor(Math.random() * array.length)]] is an element of the
    array: the index is never out of range. *)
Lemma random_element (array : list string) (i : nat) :
  array <> [] -> Z.of_nat (length array) < 2 ^ 53 ->
  one_of array (Array_get array (random_below random (number_of_nat (length array)) i)).
Proof.
  intros Hne Hlen. unfold number_of_nat.
  destruct (random_below_spec (Z.of_nat (length array)) i) as (k & -> & Hk).
  { destruct array; [congruence | cbn [length] in *; lia]. }
  destruct (Array_get_number_of_Z array k Hk Hlen) as (x & -> & Hin). now exists x.
Qed.

Lemma demo_sale_record_spec (i : nat) :
  generated_sale isoDate (demo_sale_record random isoDate i).
Proof.
  unfold generated_sale, demo_sale_record.
  cbn [SalesData.Date SalesData.Product SalesData.Category SalesData.Quantity
       SalesData.Amount SalesData.Customer_Age SalesData.Location].
  split; [| split; [| split; [| split; [| split]]]].
  - destruct (random_below_spec 90 i ltac:(split; reflexivity)) as (d & -> & Hd).
    exists d. split; [lia | reflexivity].
  - apply random_element; [discriminate | reflexivity].
  - apply random_element; [discriminate | reflexivity].
  - destruct (random_below_spec 5 (i + 2) ltac:(split; reflexivity)) as (q & -> & Hq).
    destruct (random_below_spec 2000 (i + 3) ltac:(split; reflexivity)) as (p & -> & Hp).
    assert (H53 : 2 ^ 53 = 9007199254740992) by reflexivity.
    exists (q + 1), (p + 500). unfold one.
    rewrite !js_add_number_of_Z by lia.
    rewrite js_mul_number_of_Z by (try lia; nia).
    repeat split; lia.
  - apply random_whole; try lia; split; reflexivity || lia.
  - apply random_element; [discriminate | reflexivity].
Qed.

Lemma demo_inventory_record_spec (product : string) (i : nat) :
  In product products ->
  generated_item (demo_inventory_record random product i)
  /\ InventoryData.Product (demo_inventory_record random product i) = Some product.
Proof.
  intros Hin. split; [| reflexivity].
  unfold generated_item, demo_inventory_record.
  cbn [InventoryData.Product InventoryData.Category InventoryData.Stock
       InventoryData.Price InventoryData.Supplier InventoryData.Min_Alert].
  split; [| split; [| split; [| split; [| split]]]].
  - now exists product.
  - apply random_element; [discriminate | reflexivity].
  - apply random_whole; try lia; split; reflexivity || lia.
  - apply random_whole; try lia; split; reflexivity || lia.
  - apply random_element; [discriminate | reflexivity].
  - apply random_whole; try lia; split; reflexivity || lia.
Qed.

Lemma demo_review_record_spec (i : nat) :
  generated_review isoDate (demo_review_record random isoDate i).
Proof.
  unfold generated_review, demo_review_record.
  cbn [ReviewData.Date ReviewData.Rating ReviewData.Review ReviewData.Product
       ReviewData.Platform].
  split; [| split; [| split]].
  - destruct (random_below_spec 90 i ltac:(split; reflexivity)) as (d & -> & Hd).
    exists d. split; [lia | reflexivity].
  - destruct (random_below_spec 5 (i + 1) ltac:(split; reflexivity)) as (z & -> & Hz).
    assert (H53 : 2 ^ 53 = 9007199254740992) by reflexivity.
    exists (z + 1). unfold one. rewrite js_add_number_of_Z by lia.
    split; [lia |]. split; [reflexivity |].
    rewrite js_le_compare, SFcompare_number_of_Z by lia.
    destruct (Z.leb_spec 4 (z + 1)) as [Hge | Hlt].
    + destruct (Z.compare_spec 4 (z + 1)); try lia;
        (apply random_element; [discriminate | reflexivity]).
    + destruct (Z.compare_spec 4 (z + 1)); try lia.
      apply random_element; [discriminate | reflexivity].
  - apply random_element; [discriminate | reflexivity].
  - apply random_element; [discriminate | reflexivity].
Qed.

Lemma push_records_spec {A : Type} (record : nat -> A) (P : A -> Prop)
    (draws count i : nat) :
  (forall j, P (record j)) ->
  length (push_records record draws count i) = count
  /\ Forall P (push_records record draws count i).
Proof.
  intros HP. revert i. induction count as [| count IH]; intros i; cbn [push_records].
  - split; [reflexivity | constructor].
  - destruct (IH (i + draws)%nat) as [Hlen Hall]. split; [cbn; now rewrite Hlen |].
    now constructor.
Qed.

End Generators.

Lemma sample_random_unit (i : nat) : unit_interval (sample_random i).
Proof.
  unfold sample_random.
  assert (Hlt : (i mod 10 < 10)%nat) by (apply Nat.mod_upper_bound; discriminate).
  remember (i mod 10)%nat as k eqn:Hk. clear Hk.
  destruct k as [| [| [| [| [| [| [| [| [| [| n]]]]]]]]]]; try lia;
    (split; [reflexivity | split; [discriminate | split; reflexivity]]).
Qed.







Section DemoData.

Variable random : nat -> number.
Variable isoDate : number -> string.
Hypothesis random_unit : forall i, unit_interval (random i).

(** [generateDemoSalesData] returns 100 records; whatever [Math.random]
    draws, every record has a product, a category and a location of the
    lists (no index falls outside its array), a quantity from 1 to 5, an
    amount that is the quantity times a base price from 500 to 2499, and a
    customer age from 20 to 59. *)
Theorem generateDemoSalesData_spec (i : nat) :
  length (generateDemoSalesData random isoDate i).1 = 100%nat
  /\ Forall (generated_sale isoDate) (generateDemoSalesData random isoDate i).1.
Proof.
  apply push_records_spec. intros j. now apply demo_sale_record_spec.
Qed.

Lemma map_records_spec (l : list string) (i : nat) :
  Forall (fun product => In product products) l ->
  Forall generated_item (map_records (demo_inventory_record random) 5 l i)
  /\ map InventoryData.Product (map_records (demo_inventory_record random) 5 l i)
     = map Some l.
Proof.
  intros Hl. revert i. induction Hl as [| product l Hin _ IH]; intros i; cbn [map_records map].
  - split; [constructor | reflexivity].
  - destruct (IH (i + 5)%nat) as [Hall Hmap].
    destruct (demo_inventory_record_spec random random_unit product i Hin) as [Hitem Hprod].
    split; [now constructor | now rewrite Hprod, Hmap].
Qed.

(** [generateDemoInventoryData] returns one record for each of the six
    products, in the order of the list, with a stock from 5 to 54, a price
    from 500 to 2499 and an alert level from 5 to 14. *)
Theorem generateDemoInventoryData_spec (i : nat) :
  map InventoryData.Product (generateDemoInventoryData random i).1 = map Some products
  /\ Forall generated_item (generateDemoInventoryData random i).1.
Proof.
  destruct (map_records_spec products i) as [Hall Hmap].
  - apply List.Forall_forall. auto.
  - split; assumption.
Qed.

(** The texts of the demo reviews hold no word of the negative lexicon, and
    at most one of the positive lexicon; the texts for low ratings hold
    none. *)
Lemma demo_review_texts :
  Forall (fun text => text_delta text = 0 \/ text_delta text = 1) positiveReviews
  /\ Forall (fun text => text_delta text = 0) negativeReviews.
Proof.
  split; repeat (apply List.Forall_cons; [vm_compute; auto |]); apply List.Forall_nil.
Qed.

Lemma generated_review_delta (review : ReviewData.t) :
  generated_review isoDate review -> has_Review review /\ 0 <= review_delta review <= 1.
Proof.
  intros (_ & (z & _ & _ & text & Htext & Hin) & _).
  unfold has_Review, review_delta. rewrite Htext. split; [discriminate |].
  destruct demo_review_texts as [Hpos Hneg]. rewrite List.Forall_forall in Hpos, Hneg.
  destruct (4 <=? z).
  - destruct (Hpos text Hin) as [-> | ->]; lia.
  - rewrite (Hneg text Hin). lia.
Qed.

Lemma totalDelta_nonneg (reviews : list ReviewData.t) :
  Forall (fun review => 0 <= review_delta review <= 1) reviews ->
  0 <= totalDelta reviews <= Z.of_nat (length reviews).
Proof.
  induction 1 as [| r l Hr _ IH]; [cbn; lia |].
  unfold totalDelta in *. cbn [fold_right length]. lia.
Qed.

(** [generateDemoReviewData] returns 50 records with a rating from 1 to 5
    and a text of the positive list when the rating is at least 4, of the
    negative list otherwise. Every record has its text, so that the engine
    returns on them, and since no text holds a negative word the engine's
    sentiment score for them is never below 0. *)
Theorem generateDemoReviewData_spec
    (sales : list SalesData.t) (inventory : list InventoryData.t) (i : nat) :
  length (generateDemoReviewData random isoDate i).1 = 50%nat
  /\ Forall (generated_review isoDate) (generateDemoReviewData random isoDate i).1
  /\ exists s,
       generateBusinessSummary sales inventory (generateDemoReviewData random isoDate i).1
       = Return s
       /\ js_le zero (sentimentScore s) = true.
Proof.
  destruct (push_records_spec (demo_review_record random isoDate) (generated_review isoDate)
              5 50 i (demo_review_record_spec random isoDate random_unit)) as [Hlen Hall].
  cbn [generateDemoReviewData fst]. split; [exact Hlen |]. split; [exact Hall |].
  set (reviews := push_records (demo_review_record random isoDate) 5 50 i) in *.
  assert (Hrev : Forall has_Review reviews).
  { apply (List.Forall_impl (P := generated_review isoDate)); [| exact Hall].
    intros r Hr. now apply generated_review_delta. }
  assert (Hdelta : 0 <= totalDelta reviews <= Z.of_nat (length reviews)).
  { apply totalDelta_nonneg. apply (List.Forall_impl (P := generated_review isoDate));
      [| exact Hall]. intros r Hr. now apply generated_review_delta. }
  assert (Hne : reviews <> []) by (intros H; rewrite H in Hlen; discriminate Hlen).
  destruct (sentimentScore_value sales inventory reviews Hrev Hne) as (s & Hs & Hscore).
  { rewrite Hlen. reflexivity. }
  exists s. split; [exact Hs |]. rewrite Hscore, Hlen in *.
  destruct (clamp_quotient_sign (totalDelta reviews) 50) as (Hp & _ & Hz & _);
    [cbn in *; lia | split; reflexivity |].
  destruct (Z.eq_dec (totalDelta reviews) 0) as [H0 | Hn0].
  - change (Z.of_nat 50) with 50. now rewrite (Hz H0).
  - change (Z.of_nat 50) with 50. apply js_lt_le, Hp. lia.
Qed.




End DemoData.

Lemma generateDemoSalesData_spec_witness :
  length (generateDemoSalesData sample_random sample_isoDate 0).1 = 100%nat
  /\ Forall (generated_sale sample_isoDate)
            (generateDemoSalesData sample_random sample_isoDate 0).1.
Proof. apply (generateDemoSalesData_spec sample_random sample_isoDate sample_random_unit 0). Defined.

Lemma generateDemoInventoryData_spec_witness :
  map InventoryData.Product (generateDemoInventoryData sample_random 0).1 = map Some products
  /\ Forall generated_item (generateDemoInventoryData sample_random 0).1.
Proof. apply (generateDemoInventoryData_spec sample_random sample_random_unit 0). Defined.

Lemma generateDemoReviewData_spec_witness :
  length (generateDemoReviewData sample_random sample_isoDate 0).1 = 50%nat.
Proof.
  apply (generateDemoReviewData_spec sample_random sample_isoDate sample_random_unit [] [] 0).
Defined.


(** ** Sample runs *)

Lemma lowStockItems_spec_witness :
  exists s,
    generateBusinessSummary []
      [stock_item "X" (number_of_Z 2) (Some five); stock_item "Y" (number_of_Z 10) (Some five);
       stock_item "Z" (number_of_Z 4) None]
      [] = Return s
    /\ (length (lowStockItems s) <= 10)%nat
    /\ Sorted ascending (lowStockItems s).
Proof.
  destruct (lowStockItems_spec []
              [stock_item "X" (number_of_Z 2) (Some five);
               stock_item "Y" (number_of_Z 10) (Some five);
               stock_item "Z" (number_of_Z 4) None] [])
    as (s & Hs & Hlen & _ & Hsorted & _).
  - constructor.
  - repeat constructor; intros x [= <-]; reflexivity.
  - exists s. split; [exact Hs |]. split; [exact Hlen | exact Hsorted].
Defined.

Lemma lowStockItems_lowest_witness :
  exists s,
    generateBusinessSummary []
      (stock_item "Last" (number_of_Z 4) None
       :: repeat (stock_item "X" (number_of_Z 2) (Some five)) 10)
      [] = Return s
    /\ forall it, In it (lowStockItems s) ->
         In (LowStockItem.mk (Some "Last"%string) (Some (number_of_Z 4))) (lowStockItems s)
         \/ js_le (ToNumber (LowStockItem.stock it)) (number_of_Z 4) = true.
Proof.
  destruct (lowStockItems_lowest []
              (stock_item "Last" (number_of_Z 4) None
               :: repeat (stock_item "X" (number_of_Z 2) (Some five)) 10) [])
    as (s & Hs & Hlow).
  - constructor.
  - repeat constructor; intros x [= <-]; reflexivity.
  - exists s. split; [exact Hs |]. intros it Hit.
    apply (Hlow it (stock_item "Last" (number_of_Z 4) None) Hit); [now left | reflexivity].
Defined.

Lemma topProducts_best_witness :
  exists s,
    generateBusinessSummary
      [sale "A" (number_of_Z 10); sale "B" (number_of_Z 20); sale "C" (number_of_Z 30);
       sale "D" (number_of_Z 40); sale "E" (number_of_Z 50); sale "F" (number_of_Z 60);
       sale "A" (number_of_Z 5)]
      [] [] = Return s
    /\ forall tp, In tp (topProducts s) ->
         js_le (number_of_Z 15) (TopProduct.revenue tp) = true.
Proof.
  destruct (topProducts_best
      [sale "A" (number_of_Z 10); sale "B" (number_of_Z 20); sale "C" (number_of_Z 30);
       sale "D" (number_of_Z 40); sale "E" (number_of_Z 50); sale "F" (number_of_Z 60);
       sale "A" (number_of_Z 5)] [] [])
    as (s & Hs & Hbest).
  - constructor.
  - repeat (apply List.Forall_cons; [intros x [= <-]; split; [reflexivity | intros []; discriminate] |]).
    apply List.Forall_nil.
  - repeat (apply List.Forall_cons; [reflexivity |]). apply List.Forall_nil.
  - exists s. split; [exact Hs |]. intros tp Htp.
    apply (Hbest tp "A"%string Htp); [discriminate |].
    assert (Hrun : exists s0,
              generateBusinessSummary
                [sale "A" (number_of_Z 10); sale "B" (number_of_Z 20);
                 sale "C" (number_of_Z 30); sale "D" (number_of_Z 40);
                 sale "E" (number_of_Z 50); sale "F" (number_of_Z 60);
                 sale "A" (number_of_Z 5)] [] [] = Return s0
              /\ ~ In "A"%string (map TopProduct.product (topProducts s0))).
    { eexists. split; [vm_compute; reflexivity |]. vm_compute. intuition discriminate. }
    destruct Hrun as (s0 & Hs0 & Hnot). rewrite Hs in Hs0. now injection Hs0 as ->.
Defined.

Lemma ranking_ties_witness :
  exists groups,
    Permutation
      (ranking [sale "Saree" (number_of_Z 5); sale "Kurta" (number_of_Z 5);
                sale "Saree" (number_of_Z 2); sale "Shawl" (number_of_Z 7);
                sale "Kurta" (number_of_Z 2)])
      groups
    /\ map TopProduct.product groups = ["Saree"; "Kurta"; "Shawl"]%string.
Proof.
  destruct (ranking_ties [sale "Saree" (number_of_Z 5); sale "Kurta" (number_of_Z 5);
                          sale "Saree" (number_of_Z 2); sale "Shawl" (number_of_Z 7);
                          sale "Kurta" (number_of_Z 2)])
    as (groups & Hperm & Hkeys & _).
  - repeat (apply List.Forall_cons; [intros x [= <-]; split; [reflexivity | intros []; discriminate] |]).
    apply List.Forall_nil.
  - repeat (apply List.Forall_cons; [reflexivity |]). apply List.Forall_nil.
  - repeat constructor.
  - exists groups. split; [exact Hperm | exact Hkeys].
Defined.

Lemma averageRating_whole_witness :
  exists s,
    generateBusinessSummary [] []
      [review 5 "Great quality"; review 4 "Good";
       ReviewData.mk (Some "2024-08-03"%string) None (Some "No stars given"%string) None None]
    = Return s
    /\ averageRating s = number_of_Z 3
    /\ js_le (number_of_Z 0) (averageRating s) = true
    /\ js_le (averageRating s) (number_of_Z 5) = true.
Proof.
  destruct (averageRating_whole [] []
      [review 5 "Great quality"; review 4 "Good";
       ReviewData.mk (Some "2024-08-03"%string) None (Some "No stars given"%string) None None]
      [5; 4; 0] 0 5)
    as (s & Hs & Havg & Hlo & Hhi).
  - repeat constructor; discriminate.
  - discriminate.
  - apply List.Forall2_cons; [split; [lia | left; reflexivity] |].
    apply List.Forall2_cons; [split; [lia | left; reflexivity] |].
    apply List.Forall2_cons; [split; [lia | right; split; reflexivity] |].
    apply List.Forall2_nil.
  - repeat constructor; lia.
  - lia.
  - reflexivity.
  - reflexivity.
  - reflexivity.
  - exists s. split; [exact Hs |]. split; [rewrite Havg; reflexivity |]. now split.
Defined.

Lemma averageOrderValue_whole_witness :
  exists s,
    generateBusinessSummary
      [sale "A" (number_of_Z 100); sale "B" (number_of_Z 300); sale "A" (number_of_Z 50)]
      [] [] = Return s
    /\ totalRevenue s = number_of_Z 450
    /\ js_le (number_of_Z 50) (averageOrderValue s) = true
    /\ js_le (averageOrderValue s) (number_of_Z 300) = true.
Proof.
  destruct (averageOrderValue_whole
      [sale "A" (number_of_Z 100); sale "B" (number_of_Z 300); sale "A" (number_of_Z 50)]
      [] [] [100; 300; 50] 50 300)
    as (s & Hs & Htotal & Hlo & Hhi).
  - constructor.
  - discriminate.
  - repeat (apply List.Forall2_cons; [split; [lia | reflexivity] |]). apply List.Forall2_nil.
  - repeat constructor; lia.
  - lia.
  - reflexivity.
  - reflexivity.
  - reflexivity.
  - exists s. split; [exact Hs |]. split; [exact Htotal |]. now split.
Defined.

Lemma sentimentScore_sign_witness :
  exists s,
    generateBusinessSummary [] []
      [review 5 "Great quality, love it"; review 2 "Bad zip"; review 3 "It is fine"]
    = Return s
    /\ js_lt zero (sentimentScore s) = true.
Proof.
  destruct (sentimentScore_sign [] []
      [review 5 "Great quality, love it"; review 2 "Bad zip"; review 3 "It is fine"])
    as (s & Hs & Hpos & _).
  - repeat constructor; discriminate.
  - discriminate.
  - reflexivity.
  - exists s. split; [exact Hs |]. apply Hpos. reflexivity.
Defined.

Lemma demo_summary_engine_witness :
  exists s,
    generateBusinessSummary
      [sale "Blue Kurta" (number_of_Z 1500); sale "Red Saree" (number_of_Z 4200)]
      [stock_item "Blue Kurta" (number_of_Z 7) (Some (number_of_Z 9))]
      [review 5 "Great product, highly recommended"]
    = Return s
    /\ topProducts
         (demo_summary
            [sale "Blue Kurta" (number_of_Z 1500); sale "Red Saree" (number_of_Z 4200)]
            [stock_item "Blue Kurta" (number_of_Z 7) (Some (number_of_Z 9))]
            [review 5 "Great product, highly recommended"])
       = topProducts s.
Proof.
  destruct (demo_summary_engine
      [sale "Blue Kurta" (number_of_Z 1500); sale "Red Saree" (number_of_Z 4200)]
      [stock_item "Blue Kurta" (number_of_Z 7) (Some (number_of_Z 9))]
      [review 5 "Great product, highly recommended"])
    as (s & Hs & _ & _ & Htop & _).
  - repeat constructor; eexists; repeat split; reflexivity.
  - repeat constructor. eexists. split; reflexivity.
  - repeat constructor; [eexists; repeat split; reflexivity | discriminate].
  - exists s. split; [exact Hs | exact Htop].
Defined.

(** ** The revenue totals on decoded rows *)

(** A text, once it is the running sum, stays one. *)
Lemma fold_js_plus_text (data : list row) (t : string) :
  exists t',
    fold_left (fun sum sale => js_plus sum (value_or (sale !! "Amount"%string) (VNumber zero)))
              data (VString t) = VString t'.
Proof.
  revert t. induction data as [| r data IH]; intros t; [now exists t |].
  cbn [fold_left]. unfold js_plus at 2. apply IH.
Qed.

(** A text in the Amount column, in any row, turns [totalRevenue] into a
    text: the amount is not counted as 0, and the amounts of the rows after
    it are appended as texts. *)
Theorem totalRevenue_text (data : list row) :
  Exists text_Amount data ->
  exists t, Rows.totalRevenue (Rows.revenue_totals data) = VString t.
Proof.
  intros Hex. unfold Rows.revenue_totals. cbn [Rows.totalRevenue].
  generalize (VNumber zero) at 2. induction Hex as [r data (s & Hs & Hne) | r data _ IH];
    intros sum; cbn [fold_left].
  - assert (Hor : value_or (r !! "Amount"%string) (VNumber zero) = VString s).
    { rewrite Hs. unfold value_or, truthy. destruct (String.eqb_spec s EmptyString); [easy | reflexivity]. }
    rewrite Hor. destruct sum; apply fold_js_plus_text.
  - apply IH.
Qed.

Lemma totalRevenue_text_witness :
  exists t,
    Rows.totalRevenue
      (Rows.revenue_totals [sales_row "2024-08-01" "Kurta" "1" "1000";
                            sales_row "2024-08-02" "Saree" "1" " "])
    = VString t.
Proof.
  apply totalRevenue_text. apply Exists_cons_tl, Exists_cons_hd.
  exists " "%string. split; [reflexivity | discriminate].
Defined.

(** On rows whose Amount cells are numbers, the totals are those of the
    engine on the records of the rows, a missing cell and the empty text
    counting as 0. *)
Theorem revenue_totals_numeric_rows
    (data : list row) (inventory : list InventoryData.t) (reviews : list ReviewData.t) :
  Forall numeric_Amount data -> Forall has_Review reviews ->
  exists s,
    generateBusinessSummary (map SalesData_of_row data) inventory reviews = Return s
    /\ Rows.totalRevenue (Rows.revenue_totals data) = VNumber (totalRevenue s)
    /\ Rows.totalOrders (Rows.revenue_totals data) = totalOrders s
    /\ Rows.averageOrderValue (Rows.revenue_totals data) = averageOrderValue s.
Proof.
  intros Hnum Hrev. unfold generateBusinessSummary.
  destruct (forEach_review_Return reviews zero Hrev) as (score & ->).
  cbn [mbind completion_bind]. eexists. split; [reflexivity |].
  cbn [totalRevenue totalOrders averageOrderValue].
  unfold Rows.revenue_totals.
  cbn [Rows.totalRevenue Rows.totalOrders Rows.averageOrderValue].
  assert (Hfold : forall sum,
            fold_left (fun sum sale => js_plus sum (value_or (sale !! "Amount"%string) (VNumber zero)))
                      data (VNumber sum)
            = VNumber (fold_left (fun sum sale => js_add sum (number_or (SalesData.Amount sale) zero))
                                 (map SalesData_of_row data) sum)).
  { induction Hnum as [| r data Hr _ IH]; intros sum; [reflexivity |].
    cbn [fold_left map]. rewrite <- IH. f_equal.
    unfold SalesData_of_row. cbn [SalesData.Amount].
    unfold numeric_Amount in Hr.
    destruct (r !! "Amount"%string) as [[n | s] |]; cbn [value_or truthy number_cell number_or].
    - destruct (number_truthy n); reflexivity.
    - rewrite (Hr s eq_refl). reflexivity.
    - reflexivity. }
  rewrite Hfold, length_map. repeat split.
Qed.

Lemma revenue_totals_numeric_rows_witness :
  exists s,
    generateBusinessSummary
      (map SalesData_of_row [sales_row "2024-08-01" "Kurta" "1" "1000";
                             sales_row "2024-08-02" "Saree" "2" EmptyString]) [] [] = Return s
    /\ Rows.totalRevenue
         (Rows.revenue_totals [sales_row "2024-08-01" "Kurta" "1" "1000";
                               sales_row "2024-08-02" "Saree" "2" EmptyString])
       = VNumber (totalRevenue s).
Proof.
  destruct (revenue_totals_numeric_rows
              [sales_row "2024-08-01" "Kurta" "1" "1000";
               sales_row "2024-08-02" "Saree" "2" EmptyString] [] [])
    as (s & Hs & Htotal & _).
  - repeat (apply List.Forall_cons;
            [intros s Hs; vm_compute in Hs; try discriminate Hs; now injection Hs as <- |]).
    apply List.Forall_nil.
  - constructor.
  - exists s. split; [exact Hs | exact Htotal].
Defined.

(** ** Numbers: the quotient and the product of normal numbers *)

(** The quotient of two numbers with full mantissas, in a range where the
    result has one too: its mantissa [M], at the exponent
    [e1 - e2 - 53 + s], is within two units of the exact quotient. *)
Lemma js_div_normal (sx : bool) (m1 m2 : positive) (e1 e2 : Z) :
  is_number (S754_finite sx m1 e1) -> is_number (S754_finite false m2 e2) ->
  2 ^ 52 <= Zpos m1 -> 2 ^ 52 <= Zpos m2 ->
  -1021 <= e1 - e2 <= 1022 ->
  exists p e3 s M,
    js_div (S754_finite sx m1 e1) (S754_finite false m2 e2) = S754_finite sx p e3
    /\ is_number (S754_finite sx p e3)
    /\ 0 <= s <= 1
    /\ e1 - e2 - 53 + s <= e3
    /\ Zpos p * 2 ^ (e3 - (e1 - e2 - 53 + s)) = M
    /\ 2 ^ 52 <= M <= 2 ^ 53
    /\ Zpos m2 * 2 ^ 52 * 2 ^ s <= Zpos m1 * 2 ^ 53
    /\ Z.abs (Zpos m2 * M * 2 ^ s - Zpos m1 * 2 ^ 53) <= 2 * Zpos m2 * 2 ^ s.
Proof.
  intros Hv1 Hv2 Hn1 Hn2 Hrange.
  destruct (is_number_finite _ _ _ Hv1) as (_ & Hdig1 & _).
  destruct (is_number_finite _ _ _ Hv2) as (_ & Hdig2 & _).
  pose proof (digits_bounds m1) as [Hlo1 Hhi1].
  pose proof (digits_bounds m2) as [Hlo2 Hhi2].
  assert (Hm1 : Zpos m1 < 2 ^ 53).
  { eapply Z.lt_le_trans; [exact Hhi1 |]. apply Z.pow_le_mono_r; lia. }
  assert (Hm2 : Zpos m2 < 2 ^ 53).
  { eapply Z.lt_le_trans; [exact Hhi2 |]. apply Z.pow_le_mono_r; lia. }
  assert (Hd1 : Zpos (digits2_pos m1) = 53) by (apply digits_unique; simpl; lia).
  assert (Hd2 : Zpos (digits2_pos m2) = 53) by (apply digits_unique; simpl; lia).
  clear Hlo1 Hhi1 Hlo2 Hhi2 Hdig1 Hdig2.
  unfold js_div. cbn [SFdiv xorb]. rewrite xorb_false_r.
  unfold SFdiv_core_binary. cbn [Zdigits2]. rewrite Hd1, Hd2.
  set (e' := Z.min (fexp prec emax (53 + e1 - (53 + e2))) (e1 - e2)).
  assert (He' : e' = e1 - e2 - 53) by (unfold e'; unfold_fexp; lia).
  replace (e1 - e2 - e') with 53 by lia.
  cbv iota. rewrite Z.shiftl_mul_pow2 by lia.
  pose proof (Z_div_mod (Zpos m1 * 2 ^ 53) (Zpos m2) ltac:(lia)) as Hdiv.
  destruct (Z.div_eucl (Zpos m1 * 2 ^ 53) (Zpos m2)) as [q r].
  destruct Hdiv as [Hdiv Hr].
  assert (Hqlo : 2 ^ 52 <= q).
  { assert (Zpos m2 * 2 ^ 52 < Zpos m2 * (q + 1)); [| apply Z.lt_succ_r, (Z.mul_lt_mono_pos_l (Zpos m2)); lia].
    assert (Zpos m2 * 2 ^ 52 <= 2 ^ 52 * 2 ^ 53).
    { rewrite Z.mul_comm. apply Z.mul_le_mono_nonneg_l; lia. }
    assert (2 ^ 52 * 2 ^ 53 <= Zpos m1 * 2 ^ 53) by (apply Z.mul_le_mono_nonneg_r; lia).
    lia. }
  assert (Hqhi : q < 2 ^ 54).
  { apply (Z.mul_lt_mono_pos_l (Zpos m2)); [lia |].
    assert (2 ^ 53 * 2 ^ 53 <= Zpos m2 * 2 ^ 54).
    { change (2 ^ 54) with (2 ^ 52 * 4). change (2 ^ 53 * 2 ^ 53) with (2 ^ 52 * 4 * 2 ^ 52).
      assert (2 ^ 52 * 4 * 2 ^ 52 <= 2 ^ 52 * 4 * Zpos m2)
        by (apply Z.mul_le_mono_nonneg_l; lia). lia. }
    assert (Zpos m1 * 2 ^ 53 < 2 ^ 53 * 2 ^ 53) by (apply Z.mul_lt_mono_pos_r; lia).
    lia. }
  destruct q as [| q | q]; try lia.
  pose proof (digits_bounds q) as [Hdlo Hdhi].
  set (dq := Zpos (digits2_pos q)) in *.
  assert (Hdq : dq = 53 \/ dq = 54).
  { assert (52 < dq) by (apply (Z.pow_lt_mono_r_iff 2); lia).
    assert (dq - 1 < 54) by (apply (Z.pow_lt_mono_r_iff 2); lia). lia. }
  assert (Hfexp : fexp prec emax (dq + e') = dq + e' - 53) by (unfold_fexp; lia).
  destruct (binary_round_aux_value sx q e' (new_location (Zpos m2) r))
    as (p & e3 & m & Heq & Hval & Hle3 & Hv & Hbr & _);
    fold dq; rewrite ?Hfexp; try lia.
  fold dq in Hle3, Hv, Hbr. rewrite Hfexp in Hle3, Hv, Hbr.
  replace (dq + e' - 53 - e') with (dq - 53) in Hbr by lia.
  exists p, e3, (dq - 53), m. rewrite Heq.
  replace (e1 - e2 - 53 + (dq - 53)) with (dq + e' - 53) by lia.
  split; [reflexivity |]. split; [exact Hval |]. split; [lia |]. split; [exact Hle3 |].
  split; [exact Hv |].
  set (S2 := 2 ^ (dq - 53)) in *.
  assert (HS2 : 0 < S2) by (apply Z.pow_pos_nonneg; lia).
  assert (HS2q : 2 ^ 52 * S2 <= Zpos q).
  { unfold S2. rewrite <- Z.pow_add_r by lia. replace (52 + (dq - 53)) with (dq - 1) by lia.
    exact Hdlo. }
  assert (HqS2 : Zpos q < 2 ^ 53 * S2).
  { unfold S2. rewrite <- Z.pow_add_r by lia. replace (53 + (dq - 53)) with dq by lia.
    exact Hdhi. }
  pose proof (Z.mul_div_le (Zpos q) S2 HS2) as Hfloor.
  pose proof (Z.mul_succ_div_gt (Zpos q) S2 HS2) as Hceil.
  assert (Hflo : 2 ^ 52 <= Zpos q / S2) by (apply Z.div_le_lower_bound; lia).
  assert (Hfhi : Zpos q / S2 < 2 ^ 53) by (apply Z.div_lt_upper_bound; lia).
  split; [lia |].
  assert (Hms : Z.abs (m * S2 - Zpos q) <= S2).
  { assert (S2 * (Zpos q / S2) <= m * S2) by (rewrite Z.mul_comm; apply Z.mul_le_mono_nonneg_r; lia).
    assert (m * S2 <= (Zpos q / S2 + 1) * S2) by (apply Z.mul_le_mono_nonneg_r; lia).
    lia. }
  split.
  - assert (Zpos m2 * (2 ^ 52 * S2) <= Zpos m2 * Zpos q) by (apply Z.mul_le_mono_nonneg_l; lia).
    lia.
  - assert (Hdist : Z.abs (Zpos m2 * (m * S2 - Zpos q)) <= Zpos m2 * S2).
    { rewrite Z.abs_mul, (Z.abs_eq (Zpos m2)) by lia. apply Z.mul_le_mono_nonneg_l; lia. }
    assert (Zpos m2 <= Zpos m2 * S2).
    { rewrite <- (Z.mul_1_r (Zpos m2)) at 1. apply Z.mul_le_mono_nonneg_l; lia. }
    lia.
Qed.

(** The product of two numbers with full mantissas, in a range where the
    result has one too: its mantissa [M], at the exponent [e1 + e2 + s], is
    within one unit of the exact product. *)
Lemma js_mul_normal (sx : bool) (m1 m2 : positive) (e1 e2 : Z) :
  is_number (S754_finite sx m1 e1) -> is_number (S754_finite false m2 e2) ->
  2 ^ 52 <= Zpos m1 -> 2 ^ 52 <= Zpos m2 ->
  -1074 <= e1 + e2 <= 917 ->
  exists p e3 s M,
    js_mul (S754_finite sx m1 e1) (S754_finite false m2 e2) = S754_finite sx p e3
    /\ is_number (S754_finite sx p e3)
    /\ 52 <= s <= 53
    /\ e1 + e2 + s <= e3
    /\ Zpos p * 2 ^ (e3 - (e1 + e2 + s)) = M
    /\ 2 ^ 52 * 2 ^ s <= Zpos m1 * Zpos m2
    /\ Z.abs (M * 2 ^ s - Zpos m1 * Zpos m2) <= 2 ^ s.
Proof.
  intros Hv1 Hv2 Hn1 Hn2 Hrange.
  destruct (is_number_finite _ _ _ Hv1) as (_ & Hdig1 & _).
  destruct (is_number_finite _ _ _ Hv2) as (_ & Hdig2 & _).
  pose proof (digits_bounds m1) as [Hlo1 Hhi1].
  pose proof (digits_bounds m2) as [Hlo2 Hhi2].
  assert (Hm1 : Zpos m1 < 2 ^ 53).
  { eapply Z.lt_le_trans; [exact Hhi1 |]. apply Z.pow_le_mono_r; lia. }
  assert (Hm2 : Zpos m2 < 2 ^ 53).
  { eapply Z.lt_le_trans; [exact Hhi2 |]. apply Z.pow_le_mono_r; lia. }
  clear Hlo1 Hhi1 Hlo2 Hhi2 Hdig1 Hdig2.
  unfold js_mul. cbn [SFmul xorb]. rewrite xorb_false_r.
  set (P := (m1 * m2)%positive).
  assert (HP : Zpos P = Zpos m1 * Zpos m2) by (unfold P; lia).
  assert (HPlo : 2 ^ 104 <= Zpos P).
  { rewrite HP. change (2 ^ 104) with (2 ^ 52 * 2 ^ 52).
    apply Z.mul_le_mono_nonneg; lia. }
  assert (HPhi : Zpos P < 2 ^ 106).
  { rewrite HP. change (2 ^ 106) with (2 ^ 53 * 2 ^ 53).
    apply Z.mul_lt_mono_nonneg; lia. }
  pose proof (digits_bounds P) as [Hdlo Hdhi].
  set (dP := Zpos (digits2_pos P)) in *.
  assert (HdP : dP = 105 \/ dP = 106).
  { assert (104 < dP) by (apply (Z.pow_lt_mono_r_iff 2); lia).
    assert (dP - 1 < 106) by (apply (Z.pow_lt_mono_r_iff 2); lia). lia. }
  assert (Hfexp : fexp prec emax (dP + (e1 + e2)) = dP + (e1 + e2) - 53) by (unfold_fexp; lia).
  destruct (binary_round_aux_value sx P (e1 + e2) loc_Exact)
    as (p & e3 & m & Heq & Hval & Hle3 & Hv & Hbr & _);
    fold dP; rewrite ?Hfexp; try lia.
  fold dP in Hle3, Hv, Hbr. rewrite Hfexp in Hle3, Hv, Hbr.
  replace (dP + (e1 + e2) - 53 - (e1 + e2)) with (dP - 53) in Hbr by lia.
  exists p, e3, (dP - 53), m. rewrite Heq.
  replace (e1 + e2 + (dP - 53)) with (dP + (e1 + e2) - 53) by lia.
  split; [reflexivity |]. split; [exact Hval |]. split; [lia |]. split; [exact Hle3 |].
  split; [exact Hv |].
  set (S2 := 2 ^ (dP - 53)) in *.
  assert (HS2 : 0 < S2) by (apply Z.pow_pos_nonneg; lia).
  rewrite <- HP. split.
  - unfold S2. rewrite <- Z.pow_add_r by lia. replace (52 + (dP - 53)) with (dP - 1) by lia.
    exact Hdlo.
  - pose proof (Z.mul_div_le (Zpos P) S2 HS2) as Hfloor.
    pose proof (Z.mul_succ_div_gt (Zpos P) S2 HS2) as Hceil.
    assert (S2 * (Zpos P / S2) <= m * S2) by (rewrite Z.mul_comm; apply Z.mul_le_mono_nonneg_r; lia).
    assert (m * S2 <= (Zpos P / S2 + 1) * S2).
    { apply Z.mul_le_mono_nonneg_r; lia. }
    lia.
Qed.

Lemma Zabs_cond_Zopp (s : bool) (z : Z) : Z.abs (cond_Zopp s z) = Z.abs z.
Proof. destruct s; cbn [cond_Zopp]; lia. Qed.

Lemma cond_Zopp_sub (s : bool) (a b : Z) :
  cond_Zopp s a - cond_Zopp s b = cond_Zopp s (a - b).
Proof. destruct s; cbn [cond_Zopp]; lia. Qed.

(** Dividing a number by a positive integer and multiplying the quotient
    by it gives the number back up to rounding: the result is within the
    relative distance 2^-50 of the number, in the range where neither step
    underflows or overflows (from 2^-960 up to 2^1021). *)
Lemma js_mul_js_div_close (x : number) (n : Z) :
  is_number x -> 0 < n < 2 ^ 53 -> 2 ^ 114 <= Z.abs (ulps x) < 2 ^ 2095 ->
  close_to (js_mul (js_div x (number_of_Z n)) (number_of_Z n)) x.
Proof.
  intros Hv Hn Hrange.
  destruct x as [sx | sx | | sx m1 e1]; try (cbn [ulps Z.abs] in Hrange; lia).
  cbn [ulps] in Hrange. rewrite Zabs_cond_Zopp in Hrange.
  destruct (number_of_Z_normal n Hn) as (mn & en & Hnn & Hvn & Hen & Hmn & Hmnr).
  rewrite Hnn.
  destruct (is_number_finite _ _ _ Hv) as (He1 & Hdig & Hnorm).
  pose proof (digits_bounds m1) as [Hlo1 Hhi1].
  assert (Hm1 : Zpos m1 < 2 ^ 53).
  { eapply Z.lt_le_trans; [exact Hhi1 |]. apply Z.pow_le_mono_r; lia. }
  rewrite Z.abs_eq in Hrange by (apply Z.mul_nonneg_nonneg; [lia | apply Z.pow_nonneg; lia]).
  assert (He1lo : -1012 <= e1).
  { destruct (Z_le_gt_dec (-1012) e1) as [| Hlow]; [assumption | exfalso].
    assert (2 ^ (e1 + 1074) <= 2 ^ 61) by (apply Z.pow_le_mono_r; lia).
    assert (Zpos m1 * 2 ^ (e1 + 1074) < 2 ^ 53 * 2 ^ 61).
    { apply Z.lt_le_trans with (2 ^ 53 * 2 ^ (e1 + 1074)).
      - apply Z.mul_lt_mono_pos_r; [apply Z.pow_pos_nonneg; lia | lia].
      - apply Z.mul_le_mono_nonneg_l; lia. }
    change (2 ^ 53 * 2 ^ 61) with (2 ^ 114) in *. lia. }
  assert (Hd1 : Zpos (digits2_pos m1) = 53) by (apply Hnorm; lia).
  rewrite Hd1 in Hlo1. change (2 ^ (53 - 1)) with (2 ^ 52) in Hlo1.
  assert (He1hi : e1 <= 968).
  { destruct (Z_le_gt_dec e1 968) as [| Hhigh]; [assumption | exfalso].
    assert (2 ^ 2043 <= 2 ^ (e1 + 1074)) by (apply Z.pow_le_mono_r; lia).
    assert (2 ^ 52 * 2 ^ 2043 <= Zpos m1 * 2 ^ (e1 + 1074)).
    { apply Z.mul_le_mono_nonneg; lia. }
    change (2 ^ 52 * 2 ^ 2043) with (2 ^ 2095) in *. lia. }
  clear Hrange Hhi1 Hdig Hnorm.
  (* the quotient *)
  destruct (js_div_normal sx m1 mn e1 en Hv Hvn Hlo1 ltac:(lia) ltac:(lia))
    as (p & e3 & s1 & M1 & -> & Hvq & Hs1 & Hf & HM1 & HM1r & Hlarge1 & Hnear1).
  set (f := e1 - en - 53 + s1) in *.
  destruct (is_number_finite _ _ _ Hvq) as (_ & _ & Hnormq).
  pose proof (digits_bounds p) as [Hlop Hhip].
  rewrite (Hnormq ltac:(lia)) in Hlop. change (2 ^ (53 - 1)) with (2 ^ 52) in Hlop.
  clear Hhip Hnormq.
  assert (Ht : e3 - f <= 1).
  { destruct (Z_le_gt_dec (e3 - f) 1) as [| Hbig]; [assumption | exfalso].
    assert (2 ^ 2 <= 2 ^ (e3 - f)) by (apply Z.pow_le_mono_r; lia).
    assert (2 ^ 52 * 2 ^ 2 <= Zpos p * 2 ^ (e3 - f)) by (apply Z.mul_le_mono_nonneg; lia).
    change (2 ^ 52 * 2 ^ 2) with (2 * 2 ^ 53) in *. lia. }
  (* the product *)
  destruct (js_mul_normal sx p mn e3 en Hvq Hvn Hlop ltac:(lia) ltac:(unfold f in *; lia))
    as (p2 & e4 & s2 & M2 & -> & Hvp & Hs2 & Hf2 & HM2 & Hlarge2 & Hnear2).
  split; [exact Hvp |]. split; [eauto |].
  cbn [ulps]. rewrite cond_Zopp_sub, !Zabs_cond_Zopp.
  rewrite (Z.abs_eq (Zpos m1 * _)) by (apply Z.mul_nonneg_nonneg; [lia | apply Z.pow_nonneg; lia]).
  (* everything at the scale 2 ^ (e1 - 53) *)
  set (c := 2 ^ (e1 - 53 + 1074)).
  assert (Hc : 0 < c) by (apply Z.pow_pos_nonneg; lia).
  set (t := e3 - f) in *.
  assert (Ht0 : 0 <= t) by (unfold t; lia).
  set (k := s1 + t).
  assert (Hx : Zpos m1 * 2 ^ (e1 + 1074) = Zpos m1 * 2 ^ 53 * c).
  { unfold c. rewrite <- Z.mul_assoc, <- Z.pow_add_r by lia. do 2 f_equal. lia. }
  assert (Hp : Zpos p2 * 2 ^ (e4 + 1074) = M2 * 2 ^ s2 * 2 ^ k * c).
  { rewrite <- HM2. unfold c, k. rewrite <- !Z.mul_assoc, <- !Z.pow_add_r by (unfold t, f in *; lia).
    do 2 f_equal. unfold t, f. lia. }
  rewrite Hx, Hp.
  set (A := Zpos m1 * 2 ^ 53) in *.
  set (C := M2 * 2 ^ s2 * 2 ^ k).
  assert (Hk : 0 < 2 ^ k) by (apply Z.pow_pos_nonneg; unfold k; lia).
  assert (Hps1 : 0 < 2 ^ s1) by (apply Z.pow_pos_nonneg; lia).
  assert (Hps2 : 0 < 2 ^ s2) by (apply Z.pow_pos_nonneg; lia).
  set (B := Zpos mn * M1 * 2 ^ s1) in *.
  assert (HB : Zpos p * Zpos mn * 2 ^ k = B).
  { unfold B, k. rewrite <- HM1. fold t. rewrite Z.pow_add_r by lia. ring. }
  assert (HCB : Z.abs (C - B) <= 2 ^ s2 * 2 ^ k).
  { rewrite <- HB. unfold C.
    replace (M2 * 2 ^ s2 * 2 ^ k - Zpos p * Zpos mn * 2 ^ k)
      with ((M2 * 2 ^ s2 - Zpos p * Zpos mn) * 2 ^ k) by ring.
    rewrite Z.abs_mul, (Z.abs_eq (2 ^ k)) by lia. apply Z.mul_le_mono_nonneg_r; lia. }
  assert (HbB : 2 ^ 52 * (2 ^ s2 * 2 ^ k) <= B).
  { rewrite <- HB, Z.mul_assoc. apply Z.mul_le_mono_nonneg_r; lia. }
  assert (Hfinal : 2 ^ 50 * Z.abs (C - A) <= A).
  { set (a := Zpos mn * 2 ^ s1) in *. set (b := 2 ^ s2 * 2 ^ k) in *.
    replace (2 * Zpos mn * 2 ^ s1) with (2 * a) in Hnear1 by (unfold a; ring).
    replace (Zpos mn * 2 ^ 52 * 2 ^ s1) with (2 ^ 52 * a) in Hlarge1 by (unfold a; ring).
    clearbody A B C a b. clear -Hnear1 Hlarge1 HCB HbB.
    change (2 ^ 52) with 4503599627370496 in *. change (2 ^ 50) with 1125899906842624. lia. }
  replace (C * c - A * c) with ((C - A) * c) by ring.
  rewrite Z.abs_mul, (Z.abs_eq c) by lia.
  rewrite Z.mul_assoc. apply Z.mul_le_mono_nonneg_r; lia.
Qed.

(** An integer below 2^53 as a multiple of the least positive number. *)
Lemma ulps_number_of_Z (z : Z) : Z.abs z < 2 ^ 53 -> ulps (number_of_Z z) = z * 2 ^ 1074.
Proof.
  intros Hz. destruct (Z.eq_dec z 0) as [-> | Hnz]; [now rewrite number_of_Z_0 |].
  destruct (number_of_Z_finite z Hnz Hz) as (m & e & -> & He & Hm & Hval).
  destruct (is_number_finite _ _ _ Hval) as (Hrange & _).
  cbn [ulps]. rewrite Hm, <- Z.mul_assoc, <- Z.pow_add_r by lia.
  replace (- e + (e + 1074)) with 1074 by lia.
  rewrite cond_Zopp_mul, cond_Zopp_abs. reflexivity.
Qed.

(** ** The average, multiplied back *)

(** [averageOrderValue * totalOrders] is [totalRevenue] up to rounding: for
    a total between 2^-960 and 2^1021 in absolute value, and so for every
    total that is a positive whole number below 2^53, the product is a
    finite number within the relative distance 2^-50 of the total; for a
    total of 0 it is 0. *)
Theorem averageOrderValue_times_totalOrders
    (sales : list SalesData.t) (inventory : list InventoryData.t)
    (reviews : list ReviewData.t) :
  Forall sale_ok sales -> Forall has_Review reviews ->
  sales <> [] -> Z.of_nat (length sales) < 2 ^ 53 ->
  exists s,
    generateBusinessSummary sales inventory reviews = Return s
    /\ (2 ^ 114 <= Z.abs (ulps (totalRevenue s)) < 2 ^ 2095 ->
        close_to (js_mul (averageOrderValue s) (number_of_nat (totalOrders s)))
                 (totalRevenue s))
    /\ (forall zs,
          Forall2 whole_amount sales zs -> 0 < Zsum zs < 2 ^ 53 ->
          totalRevenue s = number_of_Z (Zsum zs)
          /\ close_to (js_mul (averageOrderValue s) (number_of_nat (totalOrders s)))
                      (number_of_Z (Zsum zs)))
    /\ (totalRevenue s = zero ->
        js_mul (averageOrderValue s) (number_of_nat (totalOrders s)) = zero).
Proof.
  intros Hsales Hrev Hne Hlen.
  destruct (revenue_totals sales inventory reviews Hsales Hrev)
    as (s & Hs & Horders & Htotal & Havg & _).
  exists s. split; [exact Hs |].
  assert (Hpos : (0 < totalOrders s)%nat).
  { rewrite Horders. destruct sales; [congruence | cbn; lia]. }
  rewrite (Havg Hpos), Horders. unfold number_of_nat.
  assert (Hn : 0 < Z.of_nat (length sales) < 2 ^ 53) by (rewrite <- Horders; lia).
  assert (Hval : is_number (totalRevenue s)).
  { rewrite Htotal. unfold sum_numbers.
    assert (Hfold : forall l acc, Forall is_number l -> is_number acc ->
                                  is_number (fold_left js_add l acc)).
    { induction l as [| x l IH]; intros acc Hl Hacc; [exact Hacc |].
      inversion Hl; subst. cbn [fold_left]. apply IH; [assumption |].
      now apply js_add_is_number. }
    apply Hfold; [| reflexivity].
    apply List.Forall_map. eapply List.Forall_impl; [| exact Hsales].
    intros sale Hok. unfold amount_value.
    destruct (SalesData.Amount sale) as [x |] eqn:E; [| reflexivity].
    destruct (isNaN x); [reflexivity | now apply Hok]. }
  split; [| split].
  - intros Hrange. now apply js_mul_js_div_close.
  - intros zs Hzs Hsum.
    assert (Hzs' : Forall2 (fun x z => 0 <= z /\ (SalesData.Amount x = Some (number_of_Z z)
                                                  \/ (z = 0 /\ SalesData.Amount x = None)))
                           sales zs).
    { clear -Hzs. induction Hzs as [| x z l zs' [H1 H2] _ IH]; constructor; auto. }
    assert (Ht : totalRevenue s = number_of_Z (Zsum zs)).
    { unfold generateBusinessSummary in Hs.
      destruct (forEach_review_Return reviews zero Hrev) as (score & Hscore).
      rewrite Hscore in Hs. cbn [mbind completion_bind] in Hs. injection Hs as <-.
      cbn [totalRevenue]. apply (fold_number_or_whole_0 SalesData.Amount sales zs Hzs'). lia. }
    split; [exact Ht |]. rewrite Ht. apply js_mul_js_div_close.
    + apply is_number_number_of_Z.
    + exact Hn.
    + rewrite ulps_number_of_Z by lia. rewrite Z.abs_eq by lia.
      split.
      * apply Z.le_trans with (1 * 2 ^ 1074); [| apply Z.mul_le_mono_nonneg_r; lia].
        rewrite Z.mul_1_l. apply Z.pow_le_mono_r; lia.
      * apply Z.lt_le_trans with (2 ^ 53 * 2 ^ 1074); [apply Z.mul_lt_mono_pos_r; lia |].
        rewrite <- Z.pow_add_r by lia. apply Z.pow_le_mono_r; lia.
  - intros ->. destruct (number_of_Z_normal _ Hn) as (mn & en & -> & _). reflexivity.
Qed.

Lemma averageOrderValue_times_totalOrders_witness :
  exists s,
    generateBusinessSummary
      (sale "Kurta" (number_of_Z 5) :: repeat (sale "Saree" (number_of_Z 4)) 6) [] []
    = Return s
    /\ totalRevenue s = number_of_Z 29
    /\ close_to (js_mul (averageOrderValue s) (number_of_nat (totalOrders s)))
                (number_of_Z 29).
Proof.
  destruct (averageOrderValue_times_totalOrders
              (sale "Kurta" (number_of_Z 5) :: repeat (sale "Saree" (number_of_Z 4)) 6) [] [])
    as (s & Hs & _ & Hwhole & _).
  - repeat (apply List.Forall_cons; [intros x [= <-]; reflexivity |]). apply List.Forall_nil.
  - constructor.
  - discriminate.
  - reflexivity.
  - exists s. split; [exact Hs |].
    apply (Hwhole [5; 4; 4; 4; 4; 4; 4]).
    + repeat (apply List.Forall2_cons; [split; [lia | reflexivity] |]). apply List.Forall2_nil.
    + split; reflexivity.
Defined.
